(** * CameraOverlay: the frame pipeline of [src/app.py]

    A shallow embedding of the per-tick pipeline of the floating camera
    preview ([CameraOverlay.update_frame] and the methods it calls), of the
    cutout toggle and of the placeholder renderer, followed by the
    properties the specification states about them.

    Conventions of the embedding.
    - Python [int] is [Z]; Python [float] is the kernel's binary64
      [PrimFloat.float], so that [value / 100.0] and [int(w / zoom)] round
      exactly as they do in the program.
    - A [str] is its list of code points; a frame is the list of its rows,
      each row a list of 8-bit channel triples in the camera's B, G, R order.
    - Methods that mutate [self] or talk to the outside are computations
      over [State] that either return or raise ([M]); what the camera, the
      permission service, the file system and the segmentation model answer
      during one event is given by an [Env].
    - [cv2.resize] and [cv2.putText] are library routines whose pixel
      arithmetic is not part of this repository: they are variables of the
      section [Pipeline]. *)

From Stdlib Require Import String Ascii.
From Stdlib Require Import ZArith List Lia Bool.
From Stdlib Require Import Floats Uint63.
Import ListNotations.
Open Scope Z_scope.

Set Implicit Arguments.

(** ** Exceptions and results

    Every error the modelled calls raise derives from Python's [Exception]
    (cv2.error, ValueError, ImportError, RuntimeError, ...), so a handler
    [except Exception] matches each constructor of [exn], while
    [except FileNotFoundError] matches only the first. *)

Inductive exn : Set :=
| FileNotFoundError
| ImportError
| ValueError
| OverflowError
| AttributeError
| RuntimeError
| CvError.

Inductive result (A : Type) : Type :=
| Ok (a : A)
| Raise (e : exn).

Arguments Ok {A} a.
Arguments Raise {A} e.

Definition is_FileNotFoundError (e : exn) : bool :=
  match e with FileNotFoundError => true | _ => false end.

(** ** Strings *)

Definition codepoint := N.
Definition pystr := list codepoint.

(** Continuation bytes of one UTF-8 sequence: [n] bytes folded into [acc]. *)
Fixpoint utf8_cont (n : nat) (acc : N) (s : string) : N * string :=
  match n, s with
  | S n', String c rest =>
      utf8_cont n' (acc * 64 + (N_of_ascii c) mod 64)%N rest
  | _, _ => (acc, s)
  end.

(** Code points of a UTF-8 literal, so that the program's messages can be
    written as they are in the source. *)
Fixpoint decode_utf8 (fuel : nat) (s : string) : pystr :=
  match fuel, s with
  | S fuel', String c rest =>
      let b := N_of_ascii c in
      let '(cp, rest') :=
        if (b <? 128)%N then (b, rest)
        else if (b <? 224)%N then utf8_cont 1 (b mod 32)%N rest
        else if (b <? 240)%N then utf8_cont 2 (b mod 16)%N rest
        else utf8_cont 3 (b mod 8)%N rest in
      cp :: decode_utf8 fuel' rest'
  | _, _ => []
  end.

Definition py (s : string) : pystr := decode_utf8 (String.length s) s.

(** [str.splitlines()]: the characters Python treats as line boundaries. *)
Definition is_linebreak (c : codepoint) : bool :=
  existsb (N.eqb c) [10; 11; 12; 13; 28; 29; 30; 133; 8232; 8233]%N.

(** [splitlines_from cur skip_lf s]: [cur] is the current line, reversed;
    [skip_lf] holds right after a carriage return, whose following line
    feed belongs to the same boundary.  No empty last line is produced
    when the text ends with a boundary. *)
Fixpoint splitlines_from (cur : pystr) (skip_lf : bool) (s : pystr)
  : list pystr :=
  match s with
  | [] => match cur with [] => [] | _ => [rev cur] end
  | c :: rest =>
      if skip_lf && (c =? 10)%N then splitlines_from cur false rest
      else if is_linebreak c
           then rev cur :: splitlines_from [] (c =? 13)%N rest
           else splitlines_from (c :: cur) false rest
  end.

Definition splitlines (s : pystr) : list pystr := splitlines_from [] false s.

(** ** Frames, masks and bitmaps *)

(** One pixel of a 3-channel 8-bit image, in storage order. *)
Definition Pixel := (Z * Z * Z)%type.
Definition Frame := list (list Pixel).

(** A segmentation mask: one floating-point value per pixel (the model's
    single-precision values, each of which is a double as it stands). *)
Definition Mask := list (list float).

(** What [QImage] wraps and [QLabel.setPixmap] displays. *)
Inductive Bitmap : Type :=
| Format_RGB888 (data : list (list (Z * Z * Z)))
| Format_RGBA8888 (data : list (list (Z * Z * Z * Z))).

(** [frame.shape[:2]] of a rectangular array: its rows and columns. *)
Definition rows {A} (f : list (list A)) : Z := Z.of_nat (length f).
Definition cols {A} (f : list (list A)) : Z :=
  match f with [] => 0 | row :: _ => Z.of_nat (length row) end.

(** The array has [h] rows of [w] entries each. *)
Definition rect {A} (h w : nat) (f : list (list A)) : Prop :=
  length f = h /\ Forall (fun row => length row = w) f.

(** Entry at row [i], column [j]. *)
Definition at_ {A} (f : list (list A)) (i j : nat) : option A :=
  match nth_error f i with
  | Some row => nth_error row j
  | None => None
  end.

(** [np.zeros((height, width, 3), dtype=np.uint8)] *)
Definition np_zeros (h w : Z) : Frame :=
  repeat (repeat (0, 0, 0) (Z.to_nat w)) (Z.to_nat h).

(** [cv2.flip(frame, 1)]: mirror about the vertical axis. *)
Definition cv2_flip (frame : Frame) : Frame := map (@rev Pixel) frame.

(** [cv2.cvtColor(frame, cv2.COLOR_BGR2RGB)]: swap the outer channels. *)
Definition bgr2rgb (p : Pixel) : Z * Z * Z :=
  let '(b, g, r) := p in (r, g, b).
Definition cv2_cvtColor (frame : Frame) : list (list (Z * Z * Z)) :=
  map (map bgr2rgb) frame.

(** A Python slice [l[start:stop]] with both bounds given: a negative bound
    counts from the end, and both are clamped to the sequence. *)
Definition slice_bound (len i : Z) : Z :=
  if i <? 0 then Z.max 0 (i + len) else Z.min i len.

Definition py_slice {A} (l : list A) (start stop : Z) : list A :=
  let len := Z.of_nat (length l) in
  let s := slice_bound len start in
  let e := slice_bound len stop in
  firstn (Z.to_nat (e - s)) (skipn (Z.to_nat s) l).

(** [frame[y1:y2, x1:x2]] *)
Definition crop (frame : Frame) (y1 y2 x1 x2 : Z) : Frame :=
  map (fun row => py_slice row x1 x2) (py_slice frame y1 y2).

(** ** Floating point *)

(** The [float] of a Python [int] (exact below 2^53; the widths, heights
    and slider values met here are C ints). *)
Definition float_of_Z (z : Z) : float :=
  match z with
  | Z0 => PrimFloat.zero
  | Zpos _ => PrimFloat.of_uint63 (Uint63.of_Z z)
  | Zneg p => PrimFloat.opp (PrimFloat.of_uint63 (Uint63.of_Z (Zpos p)))
  end.

(** [int(x)]: truncation toward zero; NaN and the infinities raise.
    [frshiftexp] writes [|x|] as [m * 2^(e - shift)] with [m] in [0.5, 1),
    and [normfr_mantissa m] is the integer [m * 2^53]. *)
Definition py_int (x : float) : result Z :=
  if PrimFloat.is_nan x then Raise ValueError
  else if PrimFloat.is_infinity x then Raise OverflowError
  else
    let '(m, e) := PrimFloat.frshiftexp (PrimFloat.abs x) in
    let mant := Uint63.to_Z (PrimFloat.normfr_mantissa m) in
    let ex := Uint63.to_Z e - FloatOps.shift - FloatOps.prec in
    let mag := if 0 <=? ex then mant * 2 ^ ex else mant / 2 ^ (- ex) in
    Ok (if PrimFloat.ltb x PrimFloat.zero then - mag else mag).

(** ** The zoom transform *)

(** [zoom = self.zoom_bar.value() / 100.0] *)
Definition zoom_factor (value : Z) : float :=
  PrimFloat.div (float_of_Z value) (float_of_Z 100).

(** [max(1, int(n / zoom))] *)
Definition zoom_len (zoom : float) (n : Z) : result Z :=
  match py_int (PrimFloat.div (float_of_Z n) zoom) with
  | Ok k => Ok (Z.max 1 k)
  | Raise e => Raise e
  end.

(** [CameraOverlay._apply_zoom], with the slider's value as an argument. *)
Definition _apply_zoom (value : Z) (frame : Frame) : result Frame :=
  let zoom := zoom_factor value in
  if PrimFloat.leb zoom PrimFloat.one then Ok frame
  else
    let h := rows frame in
    let w := cols frame in
    match zoom_len zoom w with
    | Raise e => Raise e
    | Ok new_w =>
        match zoom_len zoom h with
        | Raise e => Raise e
        | Ok new_h =>
            let x1 := (w - new_w) / 2 in
            let y1 := (h - new_h) / 2 in
            Ok (crop frame y1 (y1 + new_h) x1 (x1 + new_w))
        end
    end.

(** ** The widget's state *)

Record AppConfig : Set := mkAppConfig {
  width : Z;
  height : Z;
  blur_kernel : Z;
  zoom_min : Z;
  zoom_max : Z
}.

(** [AppConfig()] with the dataclass defaults, as [main] builds it. *)
Definition default_config : AppConfig := mkAppConfig 320 320 21 100 300.

Inductive Shape : Set := square | circle.

Inductive Backend : Set := CAP_AVFOUNDATION | CAP_ANY.

(** An opened [cv2.VideoCapture]. *)
Inductive Capture : Set := VideoCapture (backend : Backend).

(** [mp.solutions.selfie_segmentation.SelfieSegmentation(model_selection)] *)
Inductive Segmenter : Set := SelfieSegmentation (model_selection : Z).

Inductive LogEntry : Set :=
| log_info (msg : pystr)
| log_exception (msg : pystr) (e : exn).

(** What the widget does to its collaborators, in the order it does it:
    entries of the methods that query the permission service, open the
    device or prepare the model, and the calls it attempts on the model,
    the device and the label. *)
Inductive Call : Type :=
| call_ensure_camera_permission
| call_requestAccess
| call_open_camera
| call_release
| call_ensure_segmenter_ready
| call_set_resource_dir (base : pystr)
| call_SelfieSegmentation
| call_process
| call_segmenter_close
| call_setPixmap (b : Bitmap).

Record State : Type := mkState {
  config : AppConfig;
  shape : Shape;
  cutout_enabled : bool;
  camera_error_message : option pystr;
  _permission_requested : bool;
  _open_retry_counter : Z;
  cap : option Capture;
  segmenter : option Segmenter;
  zoom_bar_value : Z;              (* self.zoom_bar.value() *)
  label_pixmap : option Bitmap;    (* what self.label displays *)
  shape_button_text : pystr;
  cutout_button_text : pystr;
  debug_text : option pystr;       (* contents of self.debug_text_path *)
  log : list LogEntry;
  trace : list Call
}.

Definition set_shape (v : Shape) (s : State) : State :=
  mkState (config s) v (cutout_enabled s) (camera_error_message s)
    (_permission_requested s) (_open_retry_counter s) (cap s) (segmenter s)
    (zoom_bar_value s) (label_pixmap s) (shape_button_text s)
    (cutout_button_text s) (debug_text s) (log s) (trace s).

Definition set_cutout_enabled (v : bool) (s : State) : State :=
  mkState (config s) (shape s) v (camera_error_message s)
    (_permission_requested s) (_open_retry_counter s) (cap s) (segmenter s)
    (zoom_bar_value s) (label_pixmap s) (shape_button_text s)
    (cutout_button_text s) (debug_text s) (log s) (trace s).

Definition set_camera_error_message (v : option pystr) (s : State) : State :=
  mkState (config s) (shape s) (cutout_enabled s) v
    (_permission_requested s) (_open_retry_counter s) (cap s) (segmenter s)
    (zoom_bar_value s) (label_pixmap s) (shape_button_text s)
    (cutout_button_text s) (debug_text s) (log s) (trace s).

Definition set_permission_requested (v : bool) (s : State) : State :=
  mkState (config s) (shape s) (cutout_enabled s) (camera_error_message s)
    v (_open_retry_counter s) (cap s) (segmenter s)
    (zoom_bar_value s) (label_pixmap s) (shape_button_text s)
    (cutout_button_text s) (debug_text s) (log s) (trace s).

Definition set_open_retry_counter (v : Z) (s : State) : State :=
  mkState (config s) (shape s) (cutout_enabled s) (camera_error_message s)
    (_permission_requested s) v (cap s) (segmenter s)
    (zoom_bar_value s) (label_pixmap s) (shape_button_text s)
    (cutout_button_text s) (debug_text s) (log s) (trace s).

Definition set_cap (v : option Capture) (s : State) : State :=
  mkState (config s) (shape s) (cutout_enabled s) (camera_error_message s)
    (_permission_requested s) (_open_retry_counter s) v (segmenter s)
    (zoom_bar_value s) (label_pixmap s) (shape_button_text s)
    (cutout_button_text s) (debug_text s) (log s) (trace s).

Definition set_segmenter (v : option Segmenter) (s : State) : State :=
  mkState (config s) (shape s) (cutout_enabled s) (camera_error_message s)
    (_permission_requested s) (_open_retry_counter s) (cap s) v
    (zoom_bar_value s) (label_pixmap s) (shape_button_text s)
    (cutout_button_text s) (debug_text s) (log s) (trace s).

Definition set_zoom_bar_value (v : Z) (s : State) : State :=
  mkState (config s) (shape s) (cutout_enabled s) (camera_error_message s)
    (_permission_requested s) (_open_retry_counter s) (cap s) (segmenter s)
    v (label_pixmap s) (shape_button_text s)
    (cutout_button_text s) (debug_text s) (log s) (trace s).

Definition set_label_pixmap (v : option Bitmap) (s : State) : State :=
  mkState (config s) (shape s) (cutout_enabled s) (camera_error_message s)
    (_permission_requested s) (_open_retry_counter s) (cap s) (segmenter s)
    (zoom_bar_value s) v (shape_button_text s)
    (cutout_button_text s) (debug_text s) (log s) (trace s).

Definition set_shape_button_text (v : pystr) (s : State) : State :=
  mkState (config s) (shape s) (cutout_enabled s) (camera_error_message s)
    (_permission_requested s) (_open_retry_counter s) (cap s) (segmenter s)
    (zoom_bar_value s) (label_pixmap s) v
    (cutout_button_text s) (debug_text s) (log s) (trace s).

Definition set_cutout_button_text (v : pystr) (s : State) : State :=
  mkState (config s) (shape s) (cutout_enabled s) (camera_error_message s)
    (_permission_requested s) (_open_retry_counter s) (cap s) (segmenter s)
    (zoom_bar_value s) (label_pixmap s) (shape_button_text s)
    v (debug_text s) (log s) (trace s).

Definition set_debug_text (v : option pystr) (s : State) : State :=
  mkState (config s) (shape s) (cutout_enabled s) (camera_error_message s)
    (_permission_requested s) (_open_retry_counter s) (cap s) (segmenter s)
    (zoom_bar_value s) (label_pixmap s) (shape_button_text s)
    (cutout_button_text s) v (log s) (trace s).

Definition set_log (v : list LogEntry) (s : State) : State :=
  mkState (config s) (shape s) (cutout_enabled s) (camera_error_message s)
    (_permission_requested s) (_open_retry_counter s) (cap s) (segmenter s)
    (zoom_bar_value s) (label_pixmap s) (shape_button_text s)
    (cutout_button_text s) (debug_text s) v (trace s).

Definition set_trace (v : list Call) (s : State) : State :=
  mkState (config s) (shape s) (cutout_enabled s) (camera_error_message s)
    (_permission_requested s) (_open_retry_counter s) (cap s) (segmenter s)
    (zoom_bar_value s) (label_pixmap s) (shape_button_text s)
    (cutout_button_text s) (debug_text s) (log s) v.

(** ** Computations that mutate [self] and may raise

    A mutation made before an exception is raised stays made, as it does
    in Python: the state is returned on both outcomes. *)

Definition M (A : Type) : Type := State -> result A * State.

Definition ret {A} (a : A) : M A := fun s => (Ok a, s).

Definition bind {A B} (m : M A) (k : A -> M B) : M B :=
  fun s =>
    match m s with
    | (Ok a, s') => k a s'
    | (Raise e, s') => (Raise e, s')
    end.

Definition lift {A} (r : result A) : M A := fun s => (r, s).

Definition gets {A} (f : State -> A) : M A := fun s => (Ok (f s), s).

Definition modify (f : State -> State) : M unit := fun s => (Ok tt, f s).

(** [try: body / except Exception as e: handler] *)
Definition try_except {A} (body : M A) (handler : exn -> M A) : M A :=
  fun s =>
    match body s with
    | (Ok a, s') => (Ok a, s')
    | (Raise e, s') => handler e s'
    end.

Declare Scope py_scope.
Delimit Scope py_scope with py_m.
Notation "x <- m ;; k" := (bind m (fun x => k))
  (at level 61, m at next level, right associativity) : py_scope.
Notation "m ;; k" := (bind m (fun _ => k))
  (at level 61, right associativity) : py_scope.
Open Scope py_scope.

Definition logging_info (msg : pystr) : M unit :=
  modify (fun s => set_log (log s ++ [log_info msg]) s).

Definition logging_exception (msg : pystr) (e : exn) : M unit :=
  modify (fun s => set_log (log s ++ [log_exception msg e]) s).

Definition record (c : Call) : M unit :=
  modify (fun s => set_trace (trace s ++ [c]) s).

(** ** The outside during one event *)

Inductive AuthorizationStatus : Set :=
| AVAuthorizationStatusNotDetermined
| AVAuthorizationStatusRestricted
| AVAuthorizationStatusDenied
| AVAuthorizationStatusAuthorized.

Record Env : Type := mkEnv {
  platform_darwin : bool;          (* sys.platform == "darwin" *)
  frozen : bool;                   (* getattr(sys, "frozen", False) *)
  import_AVFoundation : bool;      (* the import succeeds *)
  authorizationStatus : result AuthorizationStatus;
  open_avfoundation : result bool; (* VideoCapture(0, CAP_AVFOUNDATION).isOpened() *)
  open_default : result bool;      (* VideoCapture(0).isOpened() *)
  cap_isOpened : result bool;      (* self.cap.isOpened() *)
  cap_read : result (option Frame);  (* (True, frame) or (False, None) *)
  info_plist_path : pystr;
  read_info_plist : result (option pystr);  (* NSCameraUsageDescription *)
  resources_dir : pystr;
  frameworks_dir : pystr;
  import_resource_util : result unit;
  modules_isdir : pystr -> bool;
  binary_isfile : pystr -> bool;
  set_resource_dir : pystr -> result unit;
  new_SelfieSegmentation : result Segmenter;
  process : list (list (Z * Z * Z)) -> result (option Mask);
  write_debug_text : result unit   (* opening and writing the debug file *)
}.

(** ** The program's messages *)

Definition MSG_CAMERA_CLOSED : pystr :=
  Eval vm_compute in py "카메라를 열 수 없습니다."%string.
Definition MSG_TICK_FAILED : pystr :=
  Eval vm_compute in py "오류가 발생했습니다. 로그를 확인하세요."%string.
Definition MSG_PERMISSION_OFF : pystr :=
  Eval vm_compute in
    py "카메라 권한이 꺼져 있습니다. 시스템 설정에서 허용하세요."%string.
Definition MSG_CHECK_PERMISSION : pystr :=
  Eval vm_compute in py "카메라 권한을 확인해 주세요."%string.
Definition MSG_NO_AVFOUNDATION : pystr :=
  Eval vm_compute in
    py "AVFoundation 모듈을 불러올 수 없습니다. 앱을 다시 빌드하세요."%string.
Definition MSG_SEGMENTER_FAILED : pystr :=
  Eval vm_compute in py "배경 제거 초기화에 실패했습니다."%string.
Definition MSG_CUTOUT_ON : pystr :=
  Eval vm_compute in py "배경 제거: ON"%string.
Definition MSG_CUTOUT_OFF : pystr :=
  Eval vm_compute in py "배경 제거: OFF"%string.
Definition MSG_SHAPE_CIRCLE : pystr := Eval vm_compute in py "모양: 원"%string.
Definition MSG_SHAPE_SQUARE : pystr := Eval vm_compute in py "모양: 네모"%string.
Definition MSG_PLIST_UNREADABLE : pystr :=
  Eval vm_compute in py "Info.plist를 읽을 수 없습니다: "%string.
Definition MSG_PLIST_NO_USAGE : pystr :=
  Eval vm_compute in py "카메라 권한 설명이 없습니다: "%string.
Definition NL : pystr := [10%N].

(** The f-string of the "model not found" branch. *)
Definition MSG_MODEL_NOT_FOUND (resources frameworks : pystr) : pystr :=
  py "mediapipe model not found." ++ NL
  ++ py "searched: " ++ resources ++ NL
  ++ py "searched: " ++ frameworks ++ NL
  ++ py "rebuild the app.".

Definition MSG_MODEL_MISSING : pystr :=
  py "mediapipe model missing." ++ NL ++ py "rebuild the app.".

(** ** Compositing helpers *)

(** [(mask > 0.5).astype(np.uint8) * 255], in 8-bit arithmetic. *)
Definition alpha_of (m : float) : Z :=
  (Z.b2z (PrimFloat.ltb 0.5%float m) * 255) mod 256.
Definition alpha_of_mask (mask : Mask) : list (list Z) :=
  map (map alpha_of) mask.

Definition with_alpha (pa : (Z * Z * Z) * Z) : Z * Z * Z * Z :=
  let '((r, g, b), a) := pa in (r, g, b, a).

(** [np.dstack((rgb, alpha))]: the two arrays must have the same rows and
    columns, else numpy raises. *)
Definition np_dstack (rgb : list (list (Z * Z * Z))) (alpha : list (list Z))
  : result (list (list (Z * Z * Z * Z))) :=
  if (rows rgb =? rows alpha) && (cols rgb =? cols alpha)
  then Ok (map (fun ra => map with_alpha (combine (fst ra) (snd ra)))
             (combine rgb alpha))
  else Raise ValueError.

(** [x or default] on an optional string: [None] and [""] are falsy. *)
Definition or_else (x : option pystr) (default : pystr) : pystr :=
  match x with
  | Some (c :: m) => c :: m
  | _ => default
  end.

(** ** The quotient [int(n / zoom)] on machine integers

    The same computation as [zoom_len], on 63-bit integers, together with
    what is to be established of it.  It is evaluated over the slider's
    range and over every frame side up to [max_side]; the lemmas below
    carry the outcome back to [py_int]. *)

(** The largest frame side covered by the evaluation. *)
Definition max_side : Z := 8192.

Definition quotient_ok (v n : int) : bool :=
  let x := PrimFloat.div (PrimFloat.of_uint63 n)
             (PrimFloat.div (PrimFloat.of_uint63 v) (PrimFloat.of_uint63 100)) in
  let '(m, e) := PrimFloat.frshiftexp (PrimFloat.abs x) in
  let k := Uint63.lsr (PrimFloat.normfr_mantissa m) (Uint63.sub 2154 e) in
  let q := Uint63.div (Uint63.mul 100 n) v in
  negb (PrimFloat.is_nan x) && negb (PrimFloat.is_infinity x)
  && negb (PrimFloat.ltb x PrimFloat.zero) && Uint63.leb e 2154
  && Uint63.leb k n && Uint63.leb k q && Uint63.leb q (Uint63.add k 1)
  && (Uint63.eqb (Uint63.mod (Uint63.mul 100 n) v) 0 || Uint63.eqb k q).

(** [f] holds of the [count] integers from [from] on. *)
Fixpoint holds_from (f : int -> bool) (count : nat) (from : int) : bool :=
  match count with
  | O => true
  | S count' => f from && holds_from f count' (Uint63.add from 1)
  end.

Definition zoom_ok (v : int) : bool :=
  negb (PrimFloat.leb (PrimFloat.div (PrimFloat.of_uint63 v)
                         (PrimFloat.of_uint63 100)) PrimFloat.one)
  && holds_from (quotient_ok v) (Z.to_nat max_side) 1%uint63.

(** The exact quotient [floor(n / z)] for a positive finite [z], from the
    mantissa and exponent of [z]. *)
Definition exact_floor_quot (n : Z) (z : float) : option Z :=
  match Prim2SF z with
  | S754_finite false m e =>
      Some (if e <? 0 then (n * 2 ^ (- e)) / Zpos m
            else n / (Zpos m * 2 ^ e))
  | _ => None
  end.

(** ** What the zoom transform is to produce *)

(** [k] is the side [max(1, int(n / zoom))] at slider value [value]: at
    least 1, at most [n], and the floor of [n / (value / 100)] bounded
    below by 1 -- or one less than it, which can only happen when that
    quotient is a whole number. *)
Definition near_floor (value n k : Z) : Prop :=
  let q := Z.max 1 (100 * n / value) in
  1 <= k <= n /\ q - 1 <= k <= q /\ ((100 * n) mod value <> 0 -> k = q).

(** [g] is the [ch] by [cw] window of the [h] by [w] frame whose origin is
    [((w - cw) / 2, (h - ch) / 2)]: the margin left of and above the window
    is the margin right of and below it, or one pixel less. *)
Definition centered_crop (frame g : Frame) (h w ch cw : Z) : Prop :=
  let x1 := (w - cw) / 2 in
  let y1 := (h - ch) / 2 in
  rect (Z.to_nat ch) (Z.to_nat cw) g
  /\ (forall i j : nat,
         Z.of_nat i < ch -> Z.of_nat j < cw ->
         at_ g i j = at_ frame (Z.to_nat y1 + i) (Z.to_nat x1 + j))
  /\ 0 <= x1 <= w - cw - x1 /\ w - cw - x1 <= x1 + 1
  /\ 0 <= y1 <= h - ch - y1 /\ h - ch - y1 <= y1 + 1.

(** The sizes the zoom transform would produce if its quotient were the
    floor computed by [floor_quot]. *)
Definition sized_by_floor (floor_quot : Z -> Z) (value : Z) (frame : Frame)
  : Prop :=
  exists g,
    _apply_zoom value frame = Ok g
    /\ cols g = Z.max 1 (floor_quot (cols frame))
    /\ rows g = Z.max 1 (floor_quot (rows frame)).

(** ** What the placeholder is to show *)

(** [lines] set one below the other, 26 pixels apart, from height [y] on,
    each 10 pixels from the left edge. *)
Fixpoint placed (y : Z) (lines : list pystr) : list (pystr * (Z * Z)) :=
  match lines with
  | [] => []
  | line :: rest => (line, (10, y)) :: placed (y + 26) rest
  end.

(** The texts of a placeholder in the specification's words: the first 6
    lines of the message, each cut to its first 64 characters, or the one
    line "error" for the empty message. *)
Definition texts_drawn (message : pystr) : list (pystr * (Z * Z)) :=
  match message with
  | [] => [(py "error", (10, 24))]
  | _ => placed 24 (map (firstn 64) (firstn 6 (splitlines message)))
  end.

(** ** The methods of [CameraOverlay] *)

Section Pipeline.

(** [cv2.resize(frame, (w, h))] *)
Variable cv2_resize : Frame -> Z * Z -> result Frame.

(** [cv2.putText(frame, text, org, FONT_HERSHEY_SIMPLEX, 0.6,
    (255, 255, 255), 2)]: the frame with the text drawn at [org], or the
    exception the library raises (it rejects an empty image). *)
Variable cv2_putText : Frame -> pystr -> Z * Z -> result Frame.

(** [self.label.setPixmap(QPixmap.fromImage(image))] *)
Definition setPixmap (b : Bitmap) : M unit :=
  modify (set_label_pixmap (Some b)) ;;
  record (call_setPixmap b).

(** [_write_debug_text]: a failure to write is logged and swallowed. *)
Definition _write_debug_text (env : Env) (message : pystr) : M unit :=
  match write_debug_text env with
  | Ok _ => modify (set_debug_text (Some message))
  | Raise e => logging_exception (py "failed to write debug text") e
  end.

(** The lines a placeholder shows: [message.splitlines() if message else
    ["error"]]. *)
Definition placeholder_lines (message : pystr) : list pystr :=
  match message with
  | [] => [py "error"]
  | _ => splitlines message
  end.

(** The loop [for line in lines: cv2.putText(frame, line[:64], (10, y), ...);
    y += 26]; an exception of [cv2.putText] ends it. *)
Fixpoint draw_lines (frame : Frame) (y : Z) (lines : list pystr)
  : result Frame :=
  match lines with
  | [] => Ok frame
  | line :: rest =>
      match cv2_putText frame (firstn 64 line) (10, y) with
      | Ok frame => draw_lines frame (y + 26) rest
      | Raise e => Raise e
      end
  end.

(** The bitmap [_render_placeholder] builds on a [cfg]-sized label, from
    [np.zeros] to the [QImage]. *)
Definition draw_placeholder (cfg : AppConfig) (message : pystr)
  : result Bitmap :=
  let frame := np_zeros (height cfg) (width cfg) in
  let lines := placeholder_lines message in
  match draw_lines frame 24 (firstn 6 lines) with
  | Ok frame => Ok (Format_RGB888 (cv2_cvtColor frame))
  | Raise e => Raise e
  end.

Definition _render_placeholder (env : Env) (message : pystr) : M unit :=
  _write_debug_text env message ;;
  cfg <- gets config ;;
  b <- lift (draw_placeholder cfg message) ;;
  setPixmap b.

(** [_ensure_camera_permission]; the completion handler passed to the
    permission service runs later, see [permission_callback]. *)
Definition _ensure_camera_permission (env : Env) : M unit :=
  record call_ensure_camera_permission ;;
  if negb (platform_darwin env) then ret tt
  else if negb (import_AVFoundation env) then
    modify (set_camera_error_message (Some MSG_NO_AVFOUNDATION))
  else
    status <- lift (authorizationStatus env) ;;
    match status with
    | AVAuthorizationStatusAuthorized => ret tt
    | AVAuthorizationStatusDenied | AVAuthorizationStatusRestricted =>
        modify (set_camera_error_message (Some MSG_PERMISSION_OFF))
    | AVAuthorizationStatusNotDetermined =>
        requested <- gets _permission_requested ;;
        if requested then ret tt
        else
          modify (set_permission_requested true) ;;
          record call_requestAccess
    end.

Definition _camera_permission_denied (env : Env) : M bool :=
  if negb (platform_darwin env) then ret false
  else if negb (import_AVFoundation env) then
    modify (set_camera_error_message (Some MSG_NO_AVFOUNDATION)) ;;
    ret false
  else
    status <- lift (authorizationStatus env) ;;
    match status with
    | AVAuthorizationStatusDenied | AVAuthorizationStatusRestricted =>
        ret true
    | _ => ret false
    end.

(** [_open_camera]; an AVFoundation capture that did not open is released
    before the default backend is tried. *)
Definition _open_camera (env : Env) : M (option Capture) :=
  record call_open_camera ;;
  denied <- _camera_permission_denied env ;;
  if denied then
    modify (set_camera_error_message (Some MSG_PERMISSION_OFF)) ;;
    ret None
  else
    opened <- lift (open_avfoundation env) ;;
    if opened then ret (Some (VideoCapture CAP_AVFOUNDATION))
    else
      record call_release ;;
      fallback <- lift (open_default env) ;;
      if negb fallback then
        modify (set_camera_error_message (Some MSG_CHECK_PERMISSION)) ;;
        ret None
      else ret (Some (VideoCapture CAP_ANY)).

(** The first directory of [candidates] that satisfies [test]. *)
Definition first_base (test : pystr -> bool) (candidates : list pystr)
  : option pystr := find test candidates.

Definition _configure_mediapipe_resource_dir (env : Env) : M unit :=
  if negb (platform_darwin env) || negb (frozen env) then ret tt
  else
    match import_resource_util env with
    | Raise e =>
        logging_exception (py "mediapipe resource_util import failed") e
    | Ok _ =>
        match first_base (modules_isdir env)
                [resources_dir env; frameworks_dir env] with
        | Some base_dir =>
            record (call_set_resource_dir base_dir) ;;
            lift (set_resource_dir env base_dir) ;;
            logging_info (py "mediapipe resource dir set to " ++ base_dir)
        | None => ret tt
        end
    end.

(** The body of the [try] in [_ensure_segmenter_ready]. *)
Definition segmenter_setup (env : Env) : M bool :=
  _configure_mediapipe_resource_dir env ;;
  found <-
    (if platform_darwin env && frozen env then
       match first_base (binary_isfile env)
               [resources_dir env; frameworks_dir env] with
       | Some found_base =>
           lift (import_resource_util env) ;;
           record (call_set_resource_dir found_base) ;;
           lift (set_resource_dir env found_base) ;;
           logging_info (py "mediapipe resource dir forced to " ++ found_base) ;;
           ret true
       | None =>
           let message :=
             MSG_MODEL_NOT_FOUND (resources_dir env) (frameworks_dir env) in
           modify (set_camera_error_message (Some message)) ;;
           _render_placeholder env message ;;
           ret false
       end
     else ret true) ;;
  if negb found then ret false
  else
    record call_SelfieSegmentation ;;
    seg <- lift (new_SelfieSegmentation env) ;;
    modify (set_segmenter (Some seg)) ;;
    ret true.

Definition _ensure_segmenter_ready (env : Env) : M bool :=
  record call_ensure_segmenter_ready ;;
  seg <- gets segmenter ;;
  match seg with
  | Some _ => ret true
  | None =>
      try_except (segmenter_setup env)
        (fun e =>
           if is_FileNotFoundError e then
             modify (set_camera_error_message (Some MSG_MODEL_MISSING)) ;;
             _render_placeholder env MSG_MODEL_MISSING ;;
             ret false
           else
             logging_exception (py "segmenter init failed") e ;;
             modify (set_camera_error_message (Some MSG_SEGMENTER_FAILED)) ;;
             _render_placeholder env MSG_SEGMENTER_FAILED ;;
             ret false)
  end.

(** [self.segmenter.process(rgb)] and the mask it yields, if any. *)
Definition segmenter_process (env : Env) (rgb : list (list (Z * Z * Z)))
  : M (option Mask) :=
  seg <- gets segmenter ;;
  match seg with
  | None => lift (Raise AttributeError)
  | Some _ => record call_process ;; lift (process env rgb)
  end.

(** [not self.cap or not self.cap.isOpened()] *)
Definition cap_not_live (env : Env) : M bool :=
  c <- gets cap ;;
  match c with
  | None => ret true
  | Some _ => opened <- lift (cap_isOpened env) ;; ret (negb opened)
  end.

(** The body of the [try] in [update_frame]. *)
Definition update_frame_body (env : Env) : M unit :=
  closed <- cap_not_live env ;;
  if closed then
    modify (fun s => set_open_retry_counter (_open_retry_counter s + 1) s) ;;
    counter <- gets _open_retry_counter ;;
    (if counter mod 30 =? 0 then
       _ensure_camera_permission env ;;
       c <- _open_camera env ;;
       modify (set_cap c)
     else ret tt) ;;
    message <- gets camera_error_message ;;
    _render_placeholder env (or_else message MSG_CAMERA_CLOSED)
  else
    r <- lift (cap_read env) ;;
    match r with
    | None => ret tt
    | Some frame =>
        let frame := cv2_flip frame in
        target_w <- gets (fun s => width (config s)) ;;
        target_h <- gets (fun s => height (config s)) ;;
        value <- gets zoom_bar_value ;;
        frame <- lift (_apply_zoom value frame) ;;
        frame <- lift (cv2_resize frame (target_w, target_h)) ;;
        cutout <- gets cutout_enabled ;;
        if cutout then
          ready <- _ensure_segmenter_ready env ;;
          if negb ready then ret tt
          else
            let rgb := cv2_cvtColor frame in
            mask <- segmenter_process env rgb ;;
            match mask with
            | None => ret tt
            | Some mask =>
                let alpha := alpha_of_mask mask in
                rgba <- lift (np_dstack rgb alpha) ;;
                setPixmap (Format_RGBA8888 rgba)
            end
        else
          let rgb := cv2_cvtColor frame in
          setPixmap (Format_RGB888 rgb)
    end.

Definition update_frame (env : Env) : M unit :=
  try_except (update_frame_body env)
    (fun e =>
       logging_exception (py "update_frame failed") e ;;
       _render_placeholder env MSG_TICK_FAILED).

Definition toggle_cutout (env : Env) : M unit :=
  enabled <- gets cutout_enabled ;;
  if negb enabled then
    ready <- _ensure_segmenter_ready env ;;
    if negb ready then ret tt
    else
      modify (set_cutout_enabled true) ;;
      modify (set_cutout_button_text MSG_CUTOUT_ON)
  else
    modify (set_cutout_enabled false) ;;
    modify (set_cutout_button_text MSG_CUTOUT_OFF).

(** [toggle_shape]; [apply_shape_mask] only clips the label to an ellipse
    or clears the clip, which is left to the window system. *)
Definition toggle_shape : M unit :=
  sh <- gets shape ;;
  match sh with
  | square =>
      modify (set_shape circle) ;;
      modify (set_shape_button_text MSG_SHAPE_CIRCLE)
  | circle =>
      modify (set_shape square) ;;
      modify (set_shape_button_text MSG_SHAPE_SQUARE)
  end.

(** [QScrollBar] keeps the value within its range, and
    [setMaximum(zoom_max)] after [setMinimum(zoom_min)] lowers the minimum
    to the maximum where the configuration has them the wrong way round:
    the range of the slider is [min(zoom_min, zoom_max) .. zoom_max]. *)
Definition slider_value (cfg : AppConfig) (value : Z) : Z :=
  Z.max (Z.min (zoom_min cfg) (zoom_max cfg)) (Z.min (zoom_max cfg) value).

(** The user moves the slider; [on_zoom_change] only rewrites the caption
    next to it. *)
Definition zoom_bar_moved (value : Z) : M unit :=
  cfg <- gets config ;;
  modify (set_zoom_bar_value (slider_value cfg value)).

(** The completion handler of the permission request. *)
Definition permission_callback (granted : bool) : M unit :=
  if granted then logging_info (py "camera permission granted")
  else logging_info (py "camera permission denied").

Definition closeEvent (env : Env) : M unit :=
  closed <- cap_not_live env ;;
  (if closed then ret tt else record call_release) ;;
  seg <- gets segmenter ;;
  match seg with
  | Some _ => record call_segmenter_close
  | None => ret tt
  end.

Definition _validate_camera_usage_description (env : Env) : M bool :=
  if negb (platform_darwin env) then ret true
  else if negb (frozen env) then ret true
  else
    match read_info_plist env with
    | Raise e =>
        logging_exception (py "Info.plist read failed: " ++ info_plist_path env) e ;;
        modify (set_camera_error_message
                  (Some (MSG_PLIST_UNREADABLE ++ info_plist_path env))) ;;
        ret false
    | Ok (Some (_ :: _)) => ret true
    | Ok _ =>
        modify (set_camera_error_message
                  (Some (MSG_PLIST_NO_USAGE ++ info_plist_path env))) ;;
        ret false
    end.

(** The fields [__init__] sets before it calls any method; the slider is
    given its range and then the value 200. *)
Definition fresh (cfg : AppConfig) : State :=
  mkState cfg square false None false 0 None None
    (slider_value cfg 200)
    None MSG_SHAPE_SQUARE MSG_CUTOUT_OFF None [] [].

Definition __init__ (env : Env) : M unit :=
  _ensure_camera_permission env ;;
  usable <- _validate_camera_usage_description env ;;
  (if usable then c <- _open_camera env ;; modify (set_cap c)
   else modify (set_cap None)) ;;
  _configure_mediapipe_resource_dir env ;;
  modify (set_segmenter None).

(** ** The widget as a transition system *)

Inductive Event : Type :=
| Tick (env : Env)                   (* self.timer fires *)
| CutoutClicked (env : Env)
| ShapeClicked
| ZoomMoved (value : Z)
| PermissionAnswered (granted : bool)
| Closed (env : Env).

Definition handler (ev : Event) : M unit :=
  match ev with
  | Tick env => update_frame env
  | CutoutClicked env => toggle_cutout env
  | ShapeClicked => toggle_shape
  | ZoomMoved value => zoom_bar_moved value
  | PermissionAnswered granted => permission_callback granted
  | Closed env => closeEvent env
  end.

(** Qt reports an exception that leaves a slot and goes on with the event
    loop; the mutations made before it stay. *)
Definition step (s : State) (ev : Event) : State := snd (handler ev s).

Definition run (s : State) (evs : list Event) : State := fold_left step evs s.

Inductive reachable : State -> Prop :=
| reach_init cfg env s :
    __init__ env (fresh cfg) = (Ok tt, s) -> reachable s
| reach_step s ev : reachable s -> reachable (step s ev).


(** ** From the machine-integer evaluation to [py_int] *)

Lemma holds_from_spec (f : int -> bool) (count : nat) (from : int) :
  holds_from f count from = true ->
  forall n : Z,
    Uint63.to_Z from <= n < Uint63.to_Z from + Z.of_nat count ->
    n < Uint63.wB ->
    f (Uint63.of_Z n) = true.
Proof.
  revert from.
  induction count as [|count IH]; intros from Hall n Hn Hwb.
  - simpl in Hn. lia.
  - cbn [holds_from] in Hall.
    apply andb_true_iff in Hall as [Hhere Hrest].
    destruct (Z.eq_dec n (Uint63.to_Z from)) as [->|Hne].
    + now rewrite Uint63.of_to_Z.
    + apply (IH _ Hrest); [|assumption].
      rewrite Uint63.add_spec.
      change (Uint63.to_Z 1) with 1.
      rewrite Z.mod_small by (pose proof (Uint63.to_Z_bounded from); lia).
      lia.
Qed.

Lemma to_Z_of_Z_small (n : Z) :
  0 <= n < Uint63.wB -> Uint63.to_Z (Uint63.of_Z n) = n.
Proof.
  intros H. rewrite Uint63.of_Z_spec. now apply Z.mod_small.
Qed.

Lemma float_of_Z_pos (n : Z) :
  0 < n -> float_of_Z n = PrimFloat.of_uint63 (Uint63.of_Z n).
Proof. destruct n; simpl; intros; try lia; reflexivity. Qed.

Lemma zoom_factor_pos (v : Z) :
  0 < v ->
  zoom_factor v =
  PrimFloat.div (PrimFloat.of_uint63 (Uint63.of_Z v)) (PrimFloat.of_uint63 100).
Proof.
  intros H. unfold zoom_factor. now rewrite (float_of_Z_pos H).
Qed.

(** What [quotient_ok] establishes, read on [Z]. *)
Lemma quotient_ok_spec (v n : Z) :
  0 < v < 2 ^ 31 -> 0 < n < 2 ^ 31 ->
  quotient_ok (Uint63.of_Z v) (Uint63.of_Z n) = true ->
  exists k,
    py_int (PrimFloat.div (float_of_Z n) (zoom_factor v)) = Ok k
    /\ 0 <= k <= n
    /\ 100 * n / v - 1 <= k <= 100 * n / v
    /\ ((100 * n) mod v <> 0 -> k = 100 * n / v).
Proof.
  intros Hv Hn Hok.
  assert (Hwb : 2 ^ 31 * 200 < Uint63.wB) by (vm_compute; reflexivity).
  rewrite (float_of_Z_pos (proj1 Hn)), (zoom_factor_pos (proj1 Hv)).
  unfold quotient_ok in Hok. unfold py_int.
  set (x := PrimFloat.div _ _) in *.
  destruct (PrimFloat.frshiftexp (PrimFloat.abs x)) as [m e].
  set (k := Uint63.lsr (PrimFloat.normfr_mantissa m) (Uint63.sub 2154 e)) in *.
  apply andb_true_iff in Hok as [Hok Hexact].
  apply andb_true_iff in Hok as [Hok Hup].
  apply andb_true_iff in Hok as [Hok Hlow].
  apply andb_true_iff in Hok as [Hok Hkn].
  apply andb_true_iff in Hok as [Hok He].
  apply andb_true_iff in Hok as [Hok Hsign].
  apply andb_true_iff in Hok as [Hnan Hinf].
  apply negb_true_iff in Hnan, Hinf, Hsign.
  rewrite Hnan, Hinf, Hsign.
  apply Uint63.leb_spec in He, Hkn, Hlow, Hup.
  change (Uint63.to_Z 2154) with 2154 in He.
  pose proof (Uint63.to_Z_bounded e) as Hebound.
  pose proof (Uint63.to_Z_bounded k) as Hkb.
  assert (Hk : Uint63.to_Z k =
               Uint63.to_Z (PrimFloat.normfr_mantissa m) / 2 ^ (2154 - Uint63.to_Z e)).
  { unfold k. rewrite Uint63.lsr_spec, Uint63.sub_spec.
    change (Uint63.to_Z 2154) with 2154.
    rewrite Z.mod_small by lia. reflexivity. }
  assert (Hvz : Uint63.to_Z (Uint63.of_Z v) = v) by (apply to_Z_of_Z_small; lia).
  assert (Hnz : Uint63.to_Z (Uint63.of_Z n) = n) by (apply to_Z_of_Z_small; lia).
  assert (Hmul : Uint63.to_Z (Uint63.mul 100 (Uint63.of_Z n)) = 100 * n).
  { rewrite Uint63.mul_spec, Hnz. change (Uint63.to_Z 100) with 100.
    apply Z.mod_small. lia. }
  assert (Hq : Uint63.to_Z (Uint63.div (Uint63.mul 100 (Uint63.of_Z n)) (Uint63.of_Z v))
               = 100 * n / v).
  { now rewrite Uint63.div_spec, Hmul, Hvz. }
  rewrite Hnz in Hkn. rewrite Hq in Hlow.
  rewrite Hq, Uint63.add_spec in Hup. change (Uint63.to_Z 1) with 1 in Hup.
  rewrite Z.mod_small in Hup by lia.
  exists (Uint63.to_Z k). split.
  - f_equal.
    change FloatOps.shift with 2101. change FloatOps.prec with 53.
    destruct (Z.leb_spec 0 (Uint63.to_Z e - 2101 - 53)) as [Hge|Hlt].
    + replace (Uint63.to_Z e - 2101 - 53) with 0 by lia.
      rewrite Hk. replace (2154 - Uint63.to_Z e) with 0 by lia.
      simpl. now rewrite Z.div_1_r, Z.mul_1_r.
    + rewrite Hk. do 2 f_equal. lia.
  - repeat split; try lia.
    intros Hmod.
    apply orb_true_iff in Hexact as [H|H]; apply Uint63.eqb_spec in H;
      apply (f_equal Uint63.to_Z) in H.
    + exfalso. apply Hmod.
      rewrite Uint63.mod_spec, Hmul, Hvz in H. exact H.
    + now rewrite Hq in H.
Qed.

(** The evaluation itself: every slider value from 101 to 300 and every
    side from 1 to [max_side]. *)
Lemma zoom_range_evaluated : holds_from zoom_ok 200 101%uint63 = true.
Proof. vm_cast_no_check (eq_refl true). Qed.

Lemma zoom_quotient_in_range (v n : Z) :
  101 <= v <= 300 -> 1 <= n <= max_side ->
  PrimFloat.leb (zoom_factor v) PrimFloat.one = false
  /\ exists k,
      py_int (PrimFloat.div (float_of_Z n) (zoom_factor v)) = Ok k
      /\ 0 <= k <= n
      /\ 100 * n / v - 1 <= k <= 100 * n / v
      /\ ((100 * n) mod v <> 0 -> k = 100 * n / v).
Proof.
  intros Hv Hn. unfold max_side in Hn.
  assert (Hwb : 8192 < Uint63.wB) by (vm_compute; reflexivity).
  pose proof (holds_from_spec _ _ _ zoom_range_evaluated) as Hz.
  specialize (Hz v). change (Uint63.to_Z 101) with 101 in Hz.
  assert (Hzv : zoom_ok (Uint63.of_Z v) = true) by (apply Hz; simpl; lia).
  unfold zoom_ok in Hzv. apply andb_true_iff in Hzv as [Hgt Hall].
  split.
  - rewrite zoom_factor_pos by lia. now apply negb_true_iff in Hgt.
  - apply quotient_ok_spec; try lia.
    apply (holds_from_spec _ _ _ Hall); change (Uint63.to_Z 1) with 1.
    + unfold max_side. rewrite Z2Nat.id; lia.
    + lia.
Qed.

Lemma zoom_len_in_range (v n : Z) :
  101 <= v <= 300 -> 1 <= n <= max_side ->
  exists k, zoom_len (zoom_factor v) n = Ok k /\ near_floor v n k.
Proof.
  intros Hv Hn.
  destruct (zoom_quotient_in_range Hv Hn) as (_ & k & Hk & Hb & Hq & Hex).
  exists (Z.max 1 k). unfold zoom_len. rewrite Hk. split; [reflexivity|].
  unfold near_floor. cbv zeta. repeat split; try lia.
  all: intros Hmod; specialize (Hex Hmod); lia.
Qed.

(** ** Slices *)

Lemma In_firstn {A} (n : nat) (l : list A) (x : A) :
  In x (firstn n l) -> In x l.
Proof.
  intros H. rewrite <- (firstn_skipn n l). apply in_or_app. now left.
Qed.

Lemma In_skipn {A} (n : nat) (l : list A) (x : A) :
  In x (skipn n l) -> In x l.
Proof.
  intros H. rewrite <- (firstn_skipn n l). apply in_or_app. now right.
Qed.

Lemma py_slice_inner {A} (l : list A) (a b : Z) :
  0 <= a <= b -> b <= Z.of_nat (length l) ->
  py_slice l a b = firstn (Z.to_nat (b - a)) (skipn (Z.to_nat a) l).
Proof.
  intros Hab Hb. unfold py_slice, slice_bound.
  destruct (Z.ltb_spec a 0); [lia|].
  destruct (Z.ltb_spec b 0); [lia|].
  now rewrite !Z.min_l by lia.
Qed.

Lemma length_py_slice_inner {A} (l : list A) (a b : Z) :
  0 <= a <= b -> b <= Z.of_nat (length l) ->
  length (py_slice l a b) = Z.to_nat (b - a).
Proof.
  intros Hab Hb. rewrite py_slice_inner by assumption.
  rewrite length_firstn, length_skipn. lia.
Qed.

Lemma nth_error_py_slice_inner {A} (l : list A) (a b : Z) (i : nat) :
  0 <= a <= b -> b <= Z.of_nat (length l) ->
  Z.of_nat i < b - a ->
  nth_error (py_slice l a b) i = nth_error l (Z.to_nat a + i).
Proof.
  intros Hab Hb Hi. rewrite py_slice_inner by assumption.
  rewrite nth_error_firstn.
  destruct (Nat.ltb_spec i (Z.to_nat (b - a))); [|lia].
  apply nth_error_skipn.
Qed.

Lemma rect_rows {A} (h w : nat) (f : list (list A)) :
  rect h w f -> rows f = Z.of_nat h.
Proof. intros [Hl _]. unfold rows. now rewrite Hl. Qed.

Lemma rect_cols {A} (h w : nat) (f : list (list A)) :
  rect h w f -> (0 < h)%nat -> cols f = Z.of_nat w.
Proof.
  intros [Hl Hall] Hh. destruct f as [|row f]; simpl in *; [lia|].
  inversion Hall; subst. reflexivity.
Qed.

Lemma rect_row {A} (h w : nat) (f : list (list A)) (i : nat) (row : list A) :
  rect h w f -> nth_error f i = Some row -> length row = w.
Proof.
  intros [_ Hall] Hi. rewrite Forall_forall in Hall.
  apply Hall. eapply nth_error_In; eassumption.
Qed.

(** A window that lies within the frame: its shape and its entries. *)
Lemma crop_inner (frame : Frame) (h w : nat) (y1 y2 x1 x2 : Z) :
  rect h w frame ->
  0 <= y1 <= y2 -> y2 <= Z.of_nat h ->
  0 <= x1 <= x2 -> x2 <= Z.of_nat w ->
  rect (Z.to_nat (y2 - y1)) (Z.to_nat (x2 - x1)) (crop frame y1 y2 x1 x2)
  /\ forall i j : nat,
      Z.of_nat i < y2 - y1 -> Z.of_nat j < x2 - x1 ->
      at_ (crop frame y1 y2 x1 x2) i j
      = at_ frame (Z.to_nat y1 + i) (Z.to_nat x1 + j).
Proof.
  intros Hrect Hy Hy2 Hx Hx2.
  pose proof Hrect as [Hlen Hall].
  assert (Hrows : forall row, In row (py_slice frame y1 y2) -> length row = w).
  { intros row Hin. rewrite Forall_forall in Hall. apply Hall.
    rewrite py_slice_inner in Hin by lia.
    apply In_firstn, In_skipn in Hin. exact Hin. }
  split.
  - split.
    + unfold crop. rewrite length_map. apply length_py_slice_inner; lia.
    + unfold crop. apply Forall_map. rewrite Forall_forall. intros row Hin.
      apply length_py_slice_inner; [lia|]. rewrite (Hrows _ Hin). lia.
  - intros i j Hi Hj. unfold at_, crop.
    rewrite nth_error_map, nth_error_py_slice_inner by lia.
    destruct (nth_error frame (Z.to_nat y1 + i)) as [row|] eqn:Hrow;
      simpl; [|reflexivity].
    apply nth_error_py_slice_inner; try lia.
    rewrite (rect_row _ Hrect Hrow). lia.
Qed.


(** ** The zoom transform *)

(** C2.  For every frame and every slider value whose zoom factor
    [value / 100.0] is at most 1.0, [_apply_zoom] returns the frame it was
    given, unchanged. *)
Theorem apply_zoom_identity (value : Z) (frame : Frame) :
  PrimFloat.leb (zoom_factor value) PrimFloat.one = true ->
  _apply_zoom value frame = Ok frame.
Proof.
  intros Hle. unfold _apply_zoom. cbv zeta. now rewrite Hle.
Qed.

(** The window [_apply_zoom] cuts once the two sides are known. *)
Lemma apply_zoom_crop (value : Z) (frame : Frame) (new_w new_h : Z) :
  PrimFloat.leb (zoom_factor value) PrimFloat.one = false ->
  zoom_len (zoom_factor value) (cols frame) = Ok new_w ->
  zoom_len (zoom_factor value) (rows frame) = Ok new_h ->
  _apply_zoom value frame =
  Ok (crop frame ((rows frame - new_h) / 2) ((rows frame - new_h) / 2 + new_h)
        ((cols frame - new_w) / 2) ((cols frame - new_w) / 2 + new_w)).
Proof.
  intros Hgt Hw Hh. unfold _apply_zoom. cbv zeta.
  now rewrite Hgt, Hw, Hh.
Qed.

(** C3, as the program has it.  For every slider value from 101 to 300
    (zoom factors in (1, 3]) and every frame of [h] rows and [w] columns,
    both between 1 and [max_side], [_apply_zoom] returns the window of
    [new_h] rows and [new_w] columns whose origin is
    [((w - new_w) / 2, (h - new_h) / 2)], integer division leaving the odd
    pixel to the right and below.  Each side is [max(1, int(n / zoom))] with
    the quotient taken in double precision: it is the floor of
    [n / (value / 100)], at least 1, except that it can be one less when
    that quotient is a whole number. *)
Theorem apply_zoom_center_crop (value : Z) (h w : nat) (frame : Frame) :
  101 <= value <= 300 ->
  rect h w frame ->
  1 <= Z.of_nat h <= max_side ->
  1 <= Z.of_nat w <= max_side ->
  exists new_w new_h g,
    zoom_len (zoom_factor value) (Z.of_nat w) = Ok new_w
    /\ zoom_len (zoom_factor value) (Z.of_nat h) = Ok new_h
    /\ near_floor value (Z.of_nat w) new_w
    /\ near_floor value (Z.of_nat h) new_h
    /\ _apply_zoom value frame = Ok g
    /\ centered_crop frame g (Z.of_nat h) (Z.of_nat w) new_h new_w.
Proof.
  intros Hv Hrect Hh Hw.
  destruct (zoom_len_in_range Hv Hw) as (new_w & Hlw & Hnw).
  destruct (zoom_len_in_range Hv Hh) as (new_h & Hlh & Hnh).
  destruct (zoom_quotient_in_range Hv Hw) as (Hgt & _).
  pose proof (rect_rows Hrect) as Hrows.
  pose proof (rect_cols Hrect ltac:(lia)) as Hcols.
  exists new_w, new_h.
  exists (crop frame ((rows frame - new_h) / 2)
            ((rows frame - new_h) / 2 + new_h)
            ((cols frame - new_w) / 2) ((cols frame - new_w) / 2 + new_w)).
  split; [exact Hlw|]. split; [exact Hlh|].
  split; [exact Hnw|]. split; [exact Hnh|].
  split.
  - apply apply_zoom_crop; [assumption| |].
    + rewrite Hcols. exact Hlw.
    + rewrite Hrows. exact Hlh.
  - rewrite Hrows, Hcols.
    destruct Hnw as (Hwb & _). destruct Hnh as (Hhb & _).
    set (x1 := (Z.of_nat w - new_w) / 2).
    set (y1 := (Z.of_nat h - new_h) / 2).
    assert (Hx1 : 0 <= x1 /\ 2 * x1 <= Z.of_nat w - new_w < 2 * x1 + 2).
    { unfold x1. pose proof (Z.div_mod (Z.of_nat w - new_w) 2 ltac:(lia)).
      pose proof (Z.mod_pos_bound (Z.of_nat w - new_w) 2 ltac:(lia)).
      split; [apply Z.div_pos; lia|lia]. }
    assert (Hy1 : 0 <= y1 /\ 2 * y1 <= Z.of_nat h - new_h < 2 * y1 + 2).
    { unfold y1. pose proof (Z.div_mod (Z.of_nat h - new_h) 2 ltac:(lia)).
      pose proof (Z.mod_pos_bound (Z.of_nat h - new_h) 2 ltac:(lia)).
      split; [apply Z.div_pos; lia|lia]. }
    destruct (@crop_inner frame h w y1 (y1 + new_h) x1 (x1 + new_w) Hrect)
      as [Hshape Hat]; try lia.
    unfold centered_crop. cbv zeta. fold x1 y1.
    replace (y1 + new_h - y1) with new_h in * by lia.
    replace (x1 + new_w - x1) with new_w in * by lia.
    repeat split; try lia; try apply Hshape.
    exact Hat.
Qed.

(** C3, as the claim states it, fails on a frame of 11 rows and 33 columns
    at slider value 110 (zoom 1.1): the window has 10 rows and 29 columns.
    With [z] the decimal 1.1 the claimed size is floor(11/z) = 10 by
    floor(33/z) = 30; with [z] the double nearest to 1.1, which lies just
    above it, the claimed size is 9 by 29. *)
Lemma apply_zoom_not_floor :
  _apply_zoom 110 (np_zeros 11 33) = Ok (np_zeros 10 29)
  /\ (33 * 100 / 110 = 30 /\ 11 * 100 / 110 = 10)
  /\ (exact_floor_quot 33 (zoom_factor 110) = Some 29
      /\ exact_floor_quot 11 (zoom_factor 110) = Some 9)
  /\ ~ sized_by_floor (fun n => n * 100 / 110) 110 (np_zeros 11 33)
  /\ ~ sized_by_floor
         (fun n => match exact_floor_quot n (zoom_factor 110) with
                   | Some q => q
                   | None => 0
                   end) 110 (np_zeros 11 33).
Proof.
  assert (Hrun : _apply_zoom 110 (np_zeros 11 33) = Ok (np_zeros 10 29))
    by (vm_compute; reflexivity).
  split; [exact Hrun|].
  split; [split; reflexivity|].
  split; [split; vm_compute; reflexivity|].
  split; intros (g & Hg & Hc & Hr); rewrite Hrun in Hg;
    injection Hg as <-; vm_compute in Hc, Hr; discriminate.
Qed.


(** ** Running the methods *)

Lemma bind_Ok {A B} (m : M A) (k : A -> M B) (s s' : State) (a : A) :
  m s = (Ok a, s') -> bind m k s = k a s'.
Proof. intros H. unfold bind. now rewrite H. Qed.

Arguments bind_Ok {A B m k s s' a} _.

(** Reads a field through the setters applied to a state. *)
Ltac fields :=
  cbn [config shape cutout_enabled camera_error_message _permission_requested
       _open_retry_counter cap segmenter zoom_bar_value label_pixmap
       shape_button_text cutout_button_text debug_text log trace
       set_shape set_cutout_enabled set_camera_error_message
       set_permission_requested set_open_retry_counter set_cap set_segmenter
       set_zoom_bar_value set_label_pixmap set_shape_button_text
       set_cutout_button_text set_debug_text set_log set_trace] in *.

(** ** A failing read *)

(** The device is live and [read] reports failure. *)
Definition read_fails (env : Env) : Prop :=
  cap_isOpened env = Ok true /\ cap_read env = Ok None.

Lemma update_frame_read_fails (env : Env) (s : State) (c : Capture) :
  cap s = Some c -> read_fails env -> update_frame env s = (Ok tt, s).
Proof.
  intros Hcap [Hopen Hread].
  unfold update_frame, try_except, update_frame_body, cap_not_live,
    bind, gets, lift, ret.
  rewrite Hcap, Hopen. simpl. now rewrite Hread.
Qed.

(** C5.  While the device is live and its read fails, a tick changes
    nothing: it returns without raising and leaves the whole state as it
    was -- the device handle, the error message, the retry counter, the
    bitmap on the label, the log and the calls made -- and so does any
    number of such ticks in a row. *)
Theorem failing_reads_change_nothing (envs : list Env) (s : State) (c : Capture) :
  cap s = Some c ->
  Forall read_fails envs ->
  Forall (fun env => update_frame env s = (Ok tt, s)) envs
  /\ run s (map Tick envs) = s.
Proof.
  intros Hcap Hall. split.
  - eapply Forall_impl; [|exact Hall].
    intros env Henv. now apply update_frame_read_fails with c.
  - induction Hall as [|env envs Henv _ IH]; [reflexivity|].
    change (run (step s (Tick env)) (map Tick envs) = s).
    replace (step s (Tick env)) with s; [exact IH|].
    unfold step, handler. now rewrite (update_frame_read_fails _ Hcap Henv).
Qed.

(** ** What a computation leaves as it was

    [preserves R m]: whatever the outcome of [m], the state it leaves is
    related by [R] to the state it started from. *)

Definition preserves (R : State -> State -> Prop) {A} (m : M A) : Prop :=
  forall s, R s (snd (m s)).

Section Preservation.

Variable R : State -> State -> Prop.
Hypothesis R_refl : forall s, R s s.
Hypothesis R_trans : forall s1 s2 s3, R s1 s2 -> R s2 s3 -> R s1 s3.

Lemma preserves_ret {A} (a : A) : preserves R (ret a).
Proof. intros s. apply R_refl. Qed.

Lemma preserves_lift {A} (r : result A) : preserves R (lift r).
Proof. intros s. apply R_refl. Qed.

Lemma preserves_gets {A} (f : State -> A) : preserves R (gets f).
Proof. intros s. apply R_refl. Qed.

Lemma preserves_modify (f : State -> State) :
  (forall s, R s (f s)) -> preserves R (modify f).
Proof. intros H s. apply H. Qed.

Lemma preserves_bind {A B} (m : M A) (k : A -> M B) :
  preserves R m -> (forall a, preserves R (k a)) -> preserves R (bind m k).
Proof.
  intros Hm Hk s. unfold bind. specialize (Hm s).
  destruct (m s) as [[a|e] s1]; simpl in *; [|assumption].
  eapply R_trans; [exact Hm|apply Hk].
Qed.

Lemma preserves_try_except {A} (body : M A) (handler : exn -> M A) :
  preserves R body -> (forall e, preserves R (handler e)) ->
  preserves R (try_except body handler).
Proof.
  intros Hm Hk s. unfold try_except. specialize (Hm s).
  destruct (body s) as [[a|e] s1]; simpl in *; [assumption|].
  eapply R_trans; [exact Hm|apply Hk].
Qed.

End Preservation.

(** Breaks a computation into its steps; what is left are the mutations,
    as goals [forall s, R s (f s)]. *)
Ltac preserve_steps Hrefl Htrans :=
  repeat match goal with
    | |- preserves _ (bind _ _) => apply (preserves_bind Htrans); [|intros ?]
    | |- preserves _ (try_except _ _) =>
        apply (preserves_try_except Htrans); [|intros ?]
    | |- preserves _ (ret _) => apply (preserves_ret Hrefl)
    | |- preserves _ (lift _) => apply (preserves_lift Hrefl)
    | |- preserves _ (gets _) => apply (preserves_gets Hrefl)
    | |- preserves _ (modify _) => apply preserves_modify
    | |- preserves _ (if ?b then _ else _) => destruct b
    | |- preserves _ (match ?x with _ => _ end) => destruct x
    end.

(** What no handler but [toggle_cutout] touches, and what none undoes:
    the configuration, the cutout flag and the caption of its button stay,
    and a segmenter once constructed stays constructed. *)
Definition kept (s s' : State) : Prop :=
  config s' = config s
  /\ cutout_enabled s' = cutout_enabled s
  /\ cutout_button_text s' = cutout_button_text s
  /\ (segmenter s <> None -> segmenter s' <> None).

Lemma kept_refl (s : State) : kept s s.
Proof. repeat split; auto. Qed.

Lemma kept_trans (s1 s2 s3 : State) : kept s1 s2 -> kept s2 s3 -> kept s1 s3.
Proof.
  intros (Hc & Hk & Hb & Hs) (Hc' & Hk' & Hb' & Hs'). repeat split.
  - now rewrite Hc'.
  - now rewrite Hk'.
  - now rewrite Hb'.
  - auto.
Qed.

Ltac kept_steps :=
  unfold setPixmap, logging_info, logging_exception, record;
  preserve_steps kept_refl kept_trans;
  try solve [intros ?st; repeat split; simpl; auto; discriminate].

Lemma kept_render_placeholder (env : Env) (message : pystr) :
  preserves kept (_render_placeholder env message).
Proof. unfold _render_placeholder, _write_debug_text. kept_steps. Qed.

Lemma kept_ensure_camera_permission (env : Env) :
  preserves kept (_ensure_camera_permission env).
Proof. unfold _ensure_camera_permission. kept_steps. Qed.

Lemma kept_open_camera (env : Env) : preserves kept (_open_camera env).
Proof. unfold _open_camera, _camera_permission_denied. kept_steps. Qed.

Lemma kept_configure (env : Env) :
  preserves kept (_configure_mediapipe_resource_dir env).
Proof. unfold _configure_mediapipe_resource_dir, first_base. kept_steps. Qed.

Lemma kept_ensure_segmenter_ready (env : Env) :
  preserves kept (_ensure_segmenter_ready env).
Proof.
  unfold _ensure_segmenter_ready, segmenter_setup.
  kept_steps; try apply kept_configure; try apply kept_render_placeholder.
Qed.

Lemma kept_update_frame_body (env : Env) :
  preserves kept (update_frame_body env).
Proof.
  unfold update_frame_body, cap_not_live, segmenter_process.
  kept_steps;
    try apply kept_render_placeholder; try apply kept_ensure_segmenter_ready;
    try apply kept_ensure_camera_permission; try apply kept_open_camera.
Qed.

Lemma kept_update_frame (env : Env) : preserves kept (update_frame env).
Proof.
  unfold update_frame. kept_steps.
  - apply kept_update_frame_body.
  - apply kept_render_placeholder.
Qed.

(** ** Failures inside a tick *)

(** The state after the first step of [_render_placeholder]: the debug
    text written, or the failure to write it logged. *)
Definition debug_written (env : Env) (message : pystr) (s : State) : State :=
  match write_debug_text env with
  | Ok _ => set_debug_text (Some message) s
  | Raise e =>
      set_log (log s ++ [log_exception (py "failed to write debug text") e]) s
  end.

(** [_render_placeholder] puts the bitmap on the label, unless drawing it
    raises: then the exception leaves the method, with the label as it
    was. *)
Lemma render_placeholder_cases (env : Env) (message : pystr) (s : State) :
  _render_placeholder env message s
  = match draw_placeholder (config s) message with
    | Ok b =>
        (Ok tt,
         set_trace (trace (debug_written env message s) ++ [call_setPixmap b])
           (set_label_pixmap (Some b) (debug_written env message s)))
    | Raise e => (Raise e, debug_written env message s)
    end.
Proof.
  unfold _render_placeholder, debug_written, _write_debug_text, setPixmap,
    logging_exception, record, bind, gets, modify, lift.
  destruct (write_debug_text env); fields;
    destruct (draw_placeholder (config s) message); reflexivity.
Qed.

Lemma log_debug_written (env : Env) (message : pystr) (s : State) :
  exists rest, log (debug_written env message s) = log s ++ rest.
Proof.
  unfold debug_written. destruct (write_debug_text env); fields.
  - exists []. now rewrite app_nil_r.
  - eexists. reflexivity.
Qed.

(** What the handler of the [try] in [update_frame] does after the body
    raised [e]. *)
Lemma update_frame_handler (env : Env) (e : exn) (s1 : State) :
  let s2 :=
    debug_written env MSG_TICK_FAILED
      (set_log (log s1 ++ [log_exception (py "update_frame failed") e]) s1) in
  bind (logging_exception (py "update_frame failed") e)
    (fun _ => _render_placeholder env MSG_TICK_FAILED) s1
  = match draw_placeholder (config s1) MSG_TICK_FAILED with
    | Ok b =>
        (Ok tt,
         set_trace (trace s2 ++ [call_setPixmap b])
           (set_label_pixmap (Some b) s2))
    | Raise e' => (Raise e', s2)
    end.
Proof.
  cbv zeta. cbv [bind logging_exception modify].
  rewrite render_placeholder_cases. fields. reflexivity.
Qed.

(** C8.  When the body of the [try] in [update_frame] raises -- at any
    point, with any exception -- the handler logs the exception under
    "update_frame failed" and draws the generic placeholder; the mutations
    made before the failure stay.  If that drawing succeeds the tick
    returns normally with the placeholder on the label, so then no failure
    inside the tick leaves the tick function.  The handler does not guard
    the drawing: the one exception that leaves a tick is the one raised
    while the handler draws the generic placeholder, after the failure of
    the body was logged, and it leaves the label as the body left it. *)
Theorem update_frame_raises_only_while_drawing (env : Env) (s : State) :
  (forall b,
      draw_placeholder (config s) MSG_TICK_FAILED = Ok b ->
      (exists s', update_frame env s = (Ok tt, s'))
      /\ forall e s1,
          update_frame_body env s = (Raise e, s1) ->
          exists s',
            update_frame env s = (Ok tt, s')
            /\ (exists rest,
                  log s'
                  = log s1 ++ log_exception (py "update_frame failed") e :: rest)
            /\ label_pixmap s' = Some b
            /\ trace s' = trace s1 ++ [call_setPixmap b])
  /\ (forall e' s',
         update_frame env s = (Raise e', s') ->
         draw_placeholder (config s) MSG_TICK_FAILED = Raise e'
         /\ exists e s1,
             update_frame_body env s = (Raise e, s1)
             /\ (exists rest,
                   log s'
                   = log s1
                     ++ log_exception (py "update_frame failed") e :: rest)
             /\ label_pixmap s' = label_pixmap s1
             /\ trace s' = trace s1).
Proof.
  pose proof (kept_update_frame_body env s) as (Hcfg & _).
  assert (Hlog : forall e s1,
             exists rest,
               log (debug_written env MSG_TICK_FAILED
                      (set_log
                         (log s1 ++ [log_exception (py "update_frame failed") e])
                         s1))
               = log s1 ++ log_exception (py "update_frame failed") e :: rest).
  { intros e s1.
    destruct (log_debug_written env MSG_TICK_FAILED
                (set_log (log s1 ++ [log_exception (py "update_frame failed") e])
                   s1)) as [rest Hrest].
    exists rest. rewrite Hrest. fields. now rewrite <- app_assoc. }
  assert (Hsame : forall e s1,
             label_pixmap
               (debug_written env MSG_TICK_FAILED
                  (set_log
                     (log s1 ++ [log_exception (py "update_frame failed") e]) s1))
             = label_pixmap s1
             /\ trace
                  (debug_written env MSG_TICK_FAILED
                     (set_log
                        (log s1 ++ [log_exception (py "update_frame failed") e])
                        s1))
                = trace s1).
  { intros e s1. unfold debug_written.
    destruct (write_debug_text env); split; reflexivity. }
  unfold update_frame, try_except.
  destruct (update_frame_body env s) as [[[]|e] s1]; cbn [snd] in Hcfg.
  - split.
    + intros b _. split; [now exists s1|]. intros e s2 Hbody.
      discriminate Hbody.
    + intros e' s' Hrun. discriminate Hrun.
  - rewrite update_frame_handler. cbv zeta. rewrite Hcfg. split.
    + intros b Hdraw. rewrite Hdraw.
      split; [eexists; reflexivity|].
      intros e0 s2 Hbody. injection Hbody as <- <-.
      eexists. split; [reflexivity|]. fields.
      destruct (Hsame e s1) as [_ Htrace]. rewrite Htrace.
      split; [apply Hlog|]. split; reflexivity.
    + intros e' s' Hrun.
      destruct (draw_placeholder (config s) MSG_TICK_FAILED) as [b|e2];
        [discriminate Hrun|].
      injection Hrun as <- <-. split; [reflexivity|].
      exists e, s1. split; [reflexivity|].
      split; [apply Hlog|]. apply Hsame.
Qed.

(** ** Drawing that does not raise

    What the placeholder shows is stated for executions on which
    [cv2.putText] does not raise; [putText] is what it draws then.  The
    lemmas and theorems that rest on this take [drawing_succeeds] as a
    hypothesis; all others hold whatever [cv2.putText] does. *)

Variable putText : Frame -> pystr -> Z * Z -> Frame.

(** [cv2.putText] does not raise: it returns the frame [putText] draws. *)
Definition drawing_succeeds : Prop :=
  forall frame text org,
    cv2_putText frame text org = Ok (putText frame text org).

(** [draw_lines] where no call raises. *)
Fixpoint drawn_lines (frame : Frame) (y : Z) (lines : list pystr) : Frame :=
  match lines with
  | [] => frame
  | line :: rest =>
      drawn_lines (putText frame (firstn 64 line) (10, y)) (y + 26) rest
  end.

(** The bitmap of the placeholder of [message] on a [cfg]-sized label. *)
Definition placeholder_bitmap (cfg : AppConfig) (message : pystr) : Bitmap :=
  let frame := np_zeros (height cfg) (width cfg) in
  let lines := placeholder_lines message in
  Format_RGB888 (cv2_cvtColor (drawn_lines frame 24 (firstn 6 lines))).

Lemma draw_lines_drawn (Hdraw : drawing_succeeds)
  (lines : list pystr) (frame : Frame) (y : Z) :
  draw_lines frame y lines = Ok (drawn_lines frame y lines).
Proof.
  revert frame y. induction lines as [|line lines IH]; intros frame y.
  - reflexivity.
  - cbn [draw_lines drawn_lines]. rewrite Hdraw. apply IH.
Qed.

Lemma draw_placeholder_drawn (Hdraw : drawing_succeeds)
  (cfg : AppConfig) (message : pystr) :
  draw_placeholder cfg message = Ok (placeholder_bitmap cfg message).
Proof.
  unfold draw_placeholder, placeholder_bitmap. cbv zeta.
  now rewrite (draw_lines_drawn Hdraw).
Qed.

(** The state [_render_placeholder] leaves: the debug text written (or the
    failure to write it logged), and the placeholder on the label. *)
Definition rendered (env : Env) (message : pystr) (s : State) : State :=
  let s1 :=
    match write_debug_text env with
    | Ok _ => set_debug_text (Some message) s
    | Raise e =>
        set_log (log s ++ [log_exception (py "failed to write debug text") e]) s
    end in
  let b := placeholder_bitmap (config s) message in
  set_trace (trace s1 ++ [call_setPixmap b]) (set_label_pixmap (Some b) s1).

Lemma _render_placeholder_run (Hdraw : drawing_succeeds)
  (env : Env) (message : pystr) (s : State) :
  _render_placeholder env message s = (Ok tt, rendered env message s).
Proof.
  rewrite render_placeholder_cases, (draw_placeholder_drawn Hdraw).
  unfold rendered, debug_written.
  destruct (write_debug_text env); reflexivity.
Qed.

(** ** Preparing the segmenter *)

(** The messages a failed preparation of the model leaves. *)
Definition model_error (env : Env) (message : pystr) : Prop :=
  message = MSG_MODEL_NOT_FOUND (resources_dir env) (frameworks_dir env)
  \/ message = MSG_MODEL_MISSING
  \/ message = MSG_SEGMENTER_FAILED.

(** The state shows [message]: it is the recorded error, and the bitmap on
    the label, the last one handed to it, is the placeholder that carries
    the message. *)
Definition shows_error (s : State) (message : pystr) : Prop :=
  camera_error_message s = Some message
  /\ label_pixmap s = Some (placeholder_bitmap (config s) message)
  /\ exists before,
      trace s = before ++ [call_setPixmap (placeholder_bitmap (config s) message)].

Lemma shows_error_rendered (env : Env) (message : pystr) (s : State) :
  camera_error_message s = Some message ->
  shows_error (rendered env message s) message.
Proof.
  intros Hmsg. unfold shows_error, rendered.
  destruct (write_debug_text env); simpl; repeat split; auto;
    eexists; reflexivity.
Qed.

(** Follows a computation through its case distinctions, innermost
    scrutinee first. *)
Ltac case_step :=
  match goal with
  | |- context [match ?x with _ => _ end] =>
      lazymatch x with
      | context [match _ with _ => _ end] => fail
      | _ => destruct x eqn:?
      end
  end.

Ltac run_methods :=
  cbv [bind ret lift gets modify try_except record logging_exception
         logging_info];
  repeat (first [ match goal with
                  | Hd : drawing_succeeds |- _ =>
                      progress rewrite (@_render_placeholder_run Hd)
                  end
                | case_step ];
          cbv beta iota zeta;
          cbn [fst snd negb andb orb is_FileNotFoundError]).

Lemma trace_rendered (env : Env) (message : pystr) (s : State) :
  trace (rendered env message s)
  = trace s ++ [call_setPixmap (placeholder_bitmap (config s) message)].
Proof. unfold rendered. destruct (write_debug_text env); reflexivity. Qed.

Lemma kept_rendered (Hdraw : drawing_succeeds)
  (env : Env) (message : pystr) (s : State) :
  kept s (rendered env message s).
Proof.
  pose proof (kept_render_placeholder env message s) as H.
  now rewrite (_render_placeholder_run Hdraw) in H.
Qed.

Lemma ensure_segmenter_ready_outcome (Hdraw : drawing_succeeds)
  (env : Env) (s : State) :
  exists ready s1,
    _ensure_segmenter_ready env s = (Ok ready, s1)
    /\ (exists rest, trace s1 = trace s ++ call_ensure_segmenter_ready :: rest)
    /\ (ready = true -> segmenter s1 <> None)
    /\ (ready = false ->
        exists message, model_error env message /\ shows_error s1 message).
Proof.
  unfold _ensure_segmenter_ready, segmenter_setup,
    _configure_mediapipe_resource_dir, first_base.
  run_methods.
  all: eexists; eexists; split; [reflexivity|].
  all: (split;
        [rewrite ?trace_rendered; fields; rewrite <- ?app_assoc;
         eexists; reflexivity|]).
  all: split; [intros Hr; try discriminate Hr; fields; congruence|].
  all: intros Hr; try discriminate Hr.
  all: eexists; split; [|apply shows_error_rendered; reflexivity].
  all: unfold model_error; auto.
Qed.

Lemma toggle_cutout_run (env : Env) (s s1 : State) (ready : bool) :
  cutout_enabled s = false ->
  _ensure_segmenter_ready env s = (Ok ready, s1) ->
  toggle_cutout env s
  = (Ok tt,
     if ready
     then set_cutout_button_text MSG_CUTOUT_ON (set_cutout_enabled true s1)
     else s1).
Proof.
  intros Hoff Hrun. unfold toggle_cutout.
  cbv [bind gets modify ret]. rewrite Hoff. cbn [negb].
  rewrite Hrun. now destruct ready.
Qed.

(** C4.  Turning the cutout on while it is off calls
    [_ensure_segmenter_ready] within the click handler itself.  When that
    call reports failure the handler returns with the flag still off, the
    model's error message recorded and the placeholder carrying it on the
    label; when it reports success the flag is on (and the segmenter is
    constructed).  Drawing the placeholder is taken not to raise
    ([drawing_succeeds]); then the handler does not raise either. *)
Theorem toggle_cutout_on (Hdraw : drawing_succeeds) (env : Env) (s : State) :
  cutout_enabled s = false ->
  exists ready s1 s',
    _ensure_segmenter_ready env s = (Ok ready, s1)
    /\ toggle_cutout env s = (Ok tt, s')
    /\ (exists rest, trace s' = trace s ++ call_ensure_segmenter_ready :: rest)
    /\ (ready = true ->
        cutout_enabled s' = true /\ segmenter s' <> None
        /\ cutout_button_text s' = MSG_CUTOUT_ON)
    /\ (ready = false ->
        s' = s1 /\ cutout_enabled s' = false
        /\ cutout_button_text s' = cutout_button_text s
        /\ exists message, model_error env message /\ shows_error s' message).
Proof.
  intros Hoff.
  destruct (ensure_segmenter_ready_outcome Hdraw env s)
    as (ready & s1 & Hrun & Htrace & Hok & Hfail).
  pose proof (kept_ensure_segmenter_ready env s) as Hkept.
  rewrite Hrun in Hkept. destruct Hkept as (_ & Hflag & Hcaption & _).
  cbn [snd] in Hflag, Hcaption.
  exists ready, s1. eexists.
  split; [exact Hrun|].
  split; [exact (@toggle_cutout_run env s s1 ready Hoff Hrun)|].
  destruct ready; fields.
  - split; [exact Htrace|]. split; [|discriminate].
    intros _. repeat split. now apply Hok.
  - split; [exact Htrace|]. split; [discriminate|].
    intros _. repeat split; [congruence|exact Hcaption|now apply Hfail].
Qed.

(** ** The cutout flag and the segmenter *)

(** The flag is on only if the segmenter is constructed. *)
Definition cutout_ready (s : State) : Prop :=
  cutout_enabled s = true -> segmenter s <> None.

Lemma kept_cutout_ready (s s' : State) :
  kept s s' -> cutout_ready s -> cutout_ready s'.
Proof.
  intros (_ & Hflag & _ & Hseg) Hinv Hon. apply Hseg, Hinv. congruence.
Qed.

(** [_ensure_segmenter_ready] answers True only with the segmenter
    constructed, whatever drawing the placeholders does. *)
Lemma ensure_segmenter_ready_true (env : Env) (s s1 : State) :
  _ensure_segmenter_ready env s = (Ok true, s1) -> segmenter s1 <> None.
Proof.
  unfold _ensure_segmenter_ready, segmenter_setup,
    _configure_mediapipe_resource_dir, first_base.
  cbv [bind ret lift gets modify try_except record logging_exception
         logging_info].
  repeat (case_step; cbv beta iota zeta;
          cbn [fst snd negb andb orb is_FileNotFoundError]).
  all: intros Hrun; try discriminate Hrun.
  all: injection Hrun as <-; fields; congruence.
Qed.

(** A click on the cutout button while the cutout is off, after the
    preparation of the segmenter. *)
Lemma toggle_cutout_after (env : Env) (s : State) :
  cutout_enabled s = false ->
  toggle_cutout env s
  = match _ensure_segmenter_ready env s with
    | (Ok true, s1) =>
        (Ok tt, set_cutout_button_text MSG_CUTOUT_ON (set_cutout_enabled true s1))
    | (Ok false, s1) => (Ok tt, s1)
    | (Raise e, s1) => (Raise e, s1)
    end.
Proof.
  intros Hoff. unfold toggle_cutout.
  cbv [bind gets modify ret]. rewrite Hoff. cbn [negb].
  now destruct (_ensure_segmenter_ready env s) as [[[|]|e] s1].
Qed.

Lemma cutout_ready_toggle (env : Env) (s : State) :
  cutout_ready s -> cutout_ready (snd (toggle_cutout env s)).
Proof.
  intros Hinv. destruct (cutout_enabled s) eqn:Hflag.
  - unfold toggle_cutout. cbv [bind gets modify ret]. rewrite Hflag.
    cbn [negb snd]. intros Hon. fields. discriminate.
  - pose proof (kept_ensure_segmenter_ready env s) as (_ & Hsame & _ & _).
    rewrite (@toggle_cutout_after env s Hflag).
    destruct (_ensure_segmenter_ready env s) as [[[|]|e] s1] eqn:Hrun;
      cbn [snd] in *; intros Hon; fields.
    + exact (@ensure_segmenter_ready_true env s s1 Hrun).
    + congruence.
    + congruence.
Qed.

Lemma kept_toggle_shape : preserves kept toggle_shape.
Proof. unfold toggle_shape. kept_steps. Qed.

Lemma kept_zoom_bar_moved (value : Z) : preserves kept (zoom_bar_moved value).
Proof. unfold zoom_bar_moved. kept_steps. Qed.

Lemma kept_permission_callback (granted : bool) :
  preserves kept (permission_callback granted).
Proof. unfold permission_callback. kept_steps. Qed.

Lemma kept_closeEvent (env : Env) : preserves kept (closeEvent env).
Proof. unfold closeEvent, cap_not_live. kept_steps. Qed.

(** The cutout flag alone: [__init__] leaves it as [fresh] set it. *)
Definition same_flag (s s' : State) : Prop :=
  cutout_enabled s' = cutout_enabled s.

Lemma same_flag_refl (s : State) : same_flag s s.
Proof. reflexivity. Qed.

Lemma same_flag_trans (s1 s2 s3 : State) :
  same_flag s1 s2 -> same_flag s2 s3 -> same_flag s1 s3.
Proof. unfold same_flag. congruence. Qed.

Lemma kept_same_flag {A} (m : M A) : preserves kept m -> preserves same_flag m.
Proof. intros H s. apply H. Qed.

Lemma same_flag_init (env : Env) : preserves same_flag (__init__ env).
Proof.
  unfold __init__, _validate_camera_usage_description,
    logging_exception.
  preserve_steps same_flag_refl same_flag_trans;
    try (apply kept_same_flag;
         first [ apply kept_ensure_camera_permission | apply kept_open_camera
               | apply kept_configure ]);
    try solve [intros ?st; reflexivity].
Qed.

Lemma cutout_ready_step (s : State) (ev : Event) :
  cutout_ready s -> cutout_ready (step s ev).
Proof.
  intros Hinv. unfold step. destruct ev as [env|env| |value|granted|env];
    cbn [handler].
  - exact (kept_cutout_ready (kept_update_frame env s) Hinv).
  - now apply cutout_ready_toggle.
  - exact (kept_cutout_ready (kept_toggle_shape s) Hinv).
  - exact (kept_cutout_ready (kept_zoom_bar_moved value s) Hinv).
  - exact (kept_cutout_ready (kept_permission_callback granted s) Hinv).
  - exact (kept_cutout_ready (kept_closeEvent env s) Hinv).
Qed.

Lemma cutout_ready_reachable (s : State) : reachable s -> cutout_ready s.
Proof.
  induction 1 as [cfg env s Hinit|s ev _ IH].
  - pose proof (same_flag_init env (fresh cfg)) as Hflag.
    rewrite Hinit in Hflag. unfold same_flag in Hflag. cbn in Hflag.
    intros Hon. congruence.
  - now apply cutout_ready_step.
Qed.

(** ** Calls of the segmenter *)

(** A call of [process] made on the way from [s] to [s'] found the
    segmenter constructed, and it stays constructed. *)
Definition guarded (s s' : State) : Prop :=
  (In call_process (trace s') ->
   In call_process (trace s) \/ segmenter s' <> None)
  /\ (segmenter s <> None -> segmenter s' <> None).

Lemma guarded_refl (s : State) : guarded s s.
Proof. split; auto. Qed.

Lemma guarded_trans (s1 s2 s3 : State) :
  guarded s1 s2 -> guarded s2 s3 -> guarded s1 s3.
Proof. unfold guarded. intuition. Qed.

Ltac guarded_steps :=
  unfold setPixmap, logging_info, logging_exception, record;
  preserve_steps guarded_refl guarded_trans;
  try solve [intros ?st; split; fields;
             rewrite ?in_app_iff; cbn [In]; intuition congruence].

Lemma guarded_render_placeholder (env : Env) (message : pystr) :
  preserves guarded (_render_placeholder env message).
Proof. unfold _render_placeholder, _write_debug_text. guarded_steps. Qed.

Lemma guarded_ensure_camera_permission (env : Env) :
  preserves guarded (_ensure_camera_permission env).
Proof. unfold _ensure_camera_permission. guarded_steps. Qed.

Lemma guarded_open_camera (env : Env) : preserves guarded (_open_camera env).
Proof. unfold _open_camera, _camera_permission_denied. guarded_steps. Qed.

Lemma guarded_configure (env : Env) :
  preserves guarded (_configure_mediapipe_resource_dir env).
Proof.
  unfold _configure_mediapipe_resource_dir, first_base. guarded_steps.
Qed.

Lemma guarded_ensure_segmenter_ready (env : Env) :
  preserves guarded (_ensure_segmenter_ready env).
Proof.
  unfold _ensure_segmenter_ready, segmenter_setup.
  guarded_steps; try apply guarded_configure;
    try apply guarded_render_placeholder.
Qed.

(** The one place where [process] is called: the segmenter is read just
    before, and the call is made only when it is there. *)
Lemma guarded_segmenter_process (env : Env) (rgb : list (list (Z * Z * Z))) :
  preserves guarded (segmenter_process env rgb).
Proof.
  intros s. unfold segmenter_process. cbv [bind gets lift record modify].
  destruct (segmenter s) as [seg|] eqn:Hseg; cbn [snd].
  - split; fields; [right|intros _]; congruence.
  - apply guarded_refl.
Qed.

Lemma guarded_update_frame (env : Env) : preserves guarded (update_frame env).
Proof.
  clear putText.
  unfold update_frame, update_frame_body, cap_not_live.
  guarded_steps;
    try apply guarded_render_placeholder;
    try apply guarded_ensure_segmenter_ready;
    try apply guarded_segmenter_process;
    try apply guarded_ensure_camera_permission;
    try apply guarded_open_camera.
Qed.

Lemma guarded_toggle_cutout (env : Env) : preserves guarded (toggle_cutout env).
Proof.
  unfold toggle_cutout. guarded_steps. apply guarded_ensure_segmenter_ready.
Qed.

Lemma guarded_handler (ev : Event) : preserves guarded (handler ev).
Proof.
  destruct ev as [env|env| |value|granted|env]; cbn [handler].
  - apply guarded_update_frame.
  - apply guarded_toggle_cutout.
  - unfold toggle_shape. guarded_steps.
  - unfold zoom_bar_moved. guarded_steps.
  - unfold permission_callback. guarded_steps.
  - unfold closeEvent, cap_not_live. guarded_steps.
Qed.

(** [__init__] makes no call of [process]. *)
Definition no_process (s s' : State) : Prop :=
  In call_process (trace s') -> In call_process (trace s).

Lemma no_process_refl (s : State) : no_process s s.
Proof. unfold no_process. auto. Qed.

Lemma no_process_trans (s1 s2 s3 : State) :
  no_process s1 s2 -> no_process s2 s3 -> no_process s1 s3.
Proof. unfold no_process. auto. Qed.

Lemma no_process_init (env : Env) : preserves no_process (__init__ env).
Proof.
  unfold __init__, _validate_camera_usage_description,
    _ensure_camera_permission, _open_camera, _camera_permission_denied,
    _configure_mediapipe_resource_dir, first_base,
    logging_info, logging_exception, record.
  preserve_steps no_process_refl no_process_trans.
  all: intros st; unfold no_process; fields;
    rewrite ?in_app_iff; cbn [In]; intuition congruence.
Qed.

(** Whenever [process] has been called, the segmenter is constructed. *)
Definition process_guarded (s : State) : Prop :=
  In call_process (trace s) -> segmenter s <> None.

Lemma process_guarded_reachable (s : State) :
  reachable s -> process_guarded s.
Proof.
  induction 1 as [cfg env s Hinit|s ev _ IH].
  - pose proof (no_process_init env (fresh cfg)) as Hno.
    rewrite Hinit in Hno. intros Hin. destruct (Hno Hin).
  - destruct (guarded_handler ev s) as [Hcall Hseg].
    intros Hin. destruct (Hcall Hin) as [Hbefore|Hnow]; auto.
Qed.

(** C9.  In every state the widget can reach, the cutout flag being on
    means the segmenter is constructed.  In such a state
    [_ensure_segmenter_ready] answers true at once, changing nothing, so
    the tick's "cutout on but model not ready" exit is not taken, and the
    frame is handed to the constructed segmenter rather than to a missing
    one.  Along the way no call of [process] was ever made without the
    segmenter: the calls recorded are calls on a constructed one. *)
Theorem cutout_implies_segmenter (s : State) :
  reachable s ->
  (In call_process (trace s) -> segmenter s <> None)
  /\ (cutout_enabled s = true ->
      (exists seg, segmenter s = Some seg)
      /\ (forall env,
             _ensure_segmenter_ready env s
             = (Ok true, set_trace (trace s ++ [call_ensure_segmenter_ready]) s))
      /\ (forall env rgb,
             segmenter_process env rgb s
             = (process env rgb, set_trace (trace s ++ [call_process]) s))).
Proof.
  intros Hreach. split; [exact (process_guarded_reachable Hreach)|].
  intros Hon.
  pose proof (cutout_ready_reachable Hreach Hon) as Hseg.
  destruct (segmenter s) as [seg|] eqn:Hs; [|congruence].
  split; [now exists seg|]. split.
  - intros env. unfold _ensure_segmenter_ready.
    cbv [bind gets record modify ret]. fields. now rewrite Hs.
  - intros env rgb. unfold segmenter_process.
    cbv [bind gets record modify lift]. now rewrite Hs.
Qed.

(** ** The placeholder on the label *)

Lemma label_rendered (env : Env) (message : pystr) (s : State) :
  label_pixmap (rendered env message s)
  = Some (placeholder_bitmap (config s) message).
Proof. unfold rendered. destruct (write_debug_text env); reflexivity. Qed.

Lemma log_rendered (env : Env) (message : pystr) (s : State) :
  exists rest, log (rendered env message s) = log s ++ rest.
Proof.
  unfold rendered. destruct (write_debug_text env); fields.
  - exists []. now rewrite app_nil_r.
  - eexists. reflexivity.
Qed.

(** ** Ticks without a device *)

(** No backend reports itself opened, and the permission service
    answers. *)
Definition no_device (env : Env) : Prop :=
  (exists status, authorizationStatus env = Ok status)
  /\ open_avfoundation env = Ok false
  /\ open_default env = Ok false.

(** The slot of a tick in the reopen cadence. *)
Definition reopen_due (counter : Z) : Prop := counter mod 30 = 0.

(** What looking for the device leaves as it was when it finds none. *)
Definition idle (s s' : State) : Prop :=
  cap s' = cap s
  /\ _open_retry_counter s' = _open_retry_counter s
  /\ config s' = config s
  /\ label_pixmap s' = label_pixmap s.

Lemma idle_refl (s : State) : idle s s.
Proof. repeat split. Qed.

Lemma idle_trans (s1 s2 s3 : State) : idle s1 s2 -> idle s2 s3 -> idle s1 s3.
Proof. unfold idle. intuition congruence. Qed.

Ltac idle_steps :=
  unfold logging_info, logging_exception, record;
  preserve_steps idle_refl idle_trans;
  try solve [intros ?st; repeat split].

Lemma idle_ensure_camera_permission (env : Env) :
  preserves idle (_ensure_camera_permission env).
Proof. unfold _ensure_camera_permission. idle_steps. Qed.

Lemma idle_open_camera (env : Env) : preserves idle (_open_camera env).
Proof. unfold _open_camera, _camera_permission_denied. idle_steps. Qed.

Lemma ensure_camera_permission_calls (env : Env) (s : State) :
  (exists status, authorizationStatus env = Ok status) ->
  exists s' extra,
    _ensure_camera_permission env s = (Ok tt, s')
    /\ trace s' = trace s ++ call_ensure_camera_permission :: extra
    /\ forall c, In c extra -> c = call_requestAccess.
Proof.
  intros [status Hstatus]. unfold _ensure_camera_permission.
  cbv [bind ret lift gets modify record]. rewrite Hstatus.
  repeat (case_step; cbv beta iota zeta; cbn [negb andb orb]).
  all: eexists; eexists; split; [reflexivity|].
  all: fields; rewrite <- ?app_assoc.
  all: split; [reflexivity|].
  all: cbn [In]; intuition.
Qed.

Lemma open_camera_no_device (env : Env) (s : State) :
  no_device env ->
  exists s',
    _open_camera env s = (Ok None, s')
    /\ exists released, trace s' = trace s ++ call_open_camera :: released.
Proof.
  intros ([status Hstatus] & Hav & Hdef).
  unfold _open_camera, _camera_permission_denied.
  cbv [bind ret lift gets modify record]. rewrite Hstatus, Hav, Hdef.
  repeat (case_step; cbv beta iota zeta; cbn [negb andb orb]).
  all: eexists; split; [reflexivity|].
  all: fields; rewrite <- ?app_assoc; eexists; reflexivity.
Qed.

(** The reopen attempt of a due tick. *)
Definition reopen (env : Env) : M unit :=
  _ensure_camera_permission env ;;
  c <- _open_camera env ;;
  modify (set_cap c).

Lemma reopen_no_device (env : Env) (s : State) :
  cap s = None -> no_device env ->
  exists s' extra,
    reopen env s = (Ok tt, s')
    /\ idle s s'
    /\ (exists released,
          trace s'
          = trace s
            ++ call_ensure_camera_permission
                 :: extra ++ call_open_camera :: released)
    /\ forall c, In c extra -> c = call_requestAccess.
Proof.
  intros Hcap Hno.
  destruct (@ensure_camera_permission_calls env s (proj1 Hno))
    as (s1 & extra & Hrun1 & Htr1 & Hextra).
  destruct (@open_camera_no_device env s1 Hno)
    as (s2 & Hrun2 & released & Htr2).
  pose proof (idle_ensure_camera_permission env s) as Hidle1.
  pose proof (idle_open_camera env s1) as Hidle2.
  rewrite Hrun1 in Hidle1. rewrite Hrun2 in Hidle2. cbn [snd] in *.
  exists (set_cap None s2), extra.
  split; [|split; [|split]].
  - unfold reopen. rewrite (bind_Ok Hrun1), (bind_Ok Hrun2). reflexivity.
  - pose proof (idle_trans Hidle1 Hidle2) as (Hc & Hn & Hcfg & Hl).
    unfold idle. fields. repeat split; congruence.
  - exists released. fields. rewrite Htr2, Htr1, <- app_assoc. reflexivity.
  - exact Hextra.
Qed.

(** One tick without a device, from a state whose handle is unset. *)
Lemma update_frame_no_device (Hdraw : drawing_succeeds)
  (env : Env) (s : State) :
  cap s = None -> no_device env ->
  exists s' calls message,
    update_frame env s = (Ok tt, s')
    /\ cap s' = None
    /\ _open_retry_counter s' = _open_retry_counter s + 1
    /\ config s' = config s
    /\ trace s'
       = trace s ++ calls
         ++ [call_setPixmap (placeholder_bitmap (config s) message)]
    /\ label_pixmap s' = Some (placeholder_bitmap (config s) message)
    /\ (In call_ensure_camera_permission calls
        <-> reopen_due (_open_retry_counter s + 1))
    /\ (In call_open_camera calls <-> reopen_due (_open_retry_counter s + 1)).
Proof.
  intros Hcap Hno. unfold reopen_due.
  set (s1 := set_open_retry_counter (_open_retry_counter s + 1) s).
  assert (Hstart :
            update_frame_body env s
            = bind (if (_open_retry_counter s + 1) mod 30 =? 0
                    then reopen env else ret tt)
                (fun _ => bind (gets camera_error_message)
                   (fun message =>
                      _render_placeholder env (or_else message MSG_CAMERA_CLOSED)))
                s1).
  { unfold update_frame_body, cap_not_live.
    cbv [bind gets modify ret]. rewrite Hcap. reflexivity. }
  assert (Hs1 : cap s1 = None) by exact Hcap.
  unfold update_frame, try_except. rewrite Hstart. clear Hstart.
  destruct (Z.eqb_spec ((_open_retry_counter s + 1) mod 30) 0) as [Hdue|Hnot].
  - destruct (@reopen_no_device env s1 Hs1 Hno)
      as (s2 & extra & Hrun & (Hc & Hn & Hcfg & Hl) & [released Htr] & Hextra).
    rewrite (bind_Ok Hrun). cbv [bind gets].
    rewrite (_render_placeholder_run Hdraw).
    eexists.
    exists (call_ensure_camera_permission
              :: extra ++ call_open_camera :: released).
    eexists. split; [reflexivity|].
    rewrite trace_rendered, label_rendered. unfold rendered.
    destruct (write_debug_text env); fields;
      rewrite Hcfg, Htr, <- ?app_assoc; fields;
      (repeat split; try congruence; intros; try exact Hdue;
       cbn [In]; rewrite ?in_app_iff; cbn [In]; tauto).
  - cbv [bind gets ret]. rewrite (_render_placeholder_run Hdraw).
    eexists. exists []. eexists. split; [reflexivity|].
    rewrite trace_rendered, label_rendered. unfold rendered.
    destruct (write_debug_text env); fields;
      (repeat split; try congruence; try (intros []); intros; contradiction).
Qed.

Lemma run_app (s : State) (evs1 evs2 : list Event) :
  run s (evs1 ++ evs2) = run (run s evs1) evs2.
Proof. unfold run. apply fold_left_app. Qed.

(** The state after any number of ticks without a device. *)
Lemma run_no_device (Hdraw : drawing_succeeds) (envs : list Env) (s : State) :
  cap s = None -> Forall no_device envs ->
  let s' := run s (map Tick envs) in
  cap s' = None
  /\ _open_retry_counter s' = _open_retry_counter s + Z.of_nat (length envs)
  /\ config s' = config s.
Proof.
  intros Hcap Hall. revert s Hcap.
  induction Hall as [|env envs Henv _ IH]; intros s Hcap.
  - cbn. repeat split; try assumption; lia.
  - destruct (@update_frame_no_device Hdraw env s Hcap Henv)
      as (s1 & calls & message & Hrun & Hcap1 & Hn1 & Hcfg1 & _).
    assert (Hstep : step s (Tick env) = s1)
      by (unfold step, handler; now rewrite Hrun).
    change (run s (map Tick (env :: envs)))
      with (run (step s (Tick env)) (map Tick envs)).
    rewrite Hstep. destruct (IH s1 Hcap1) as (Hc & Hn & Hcfg).
    cbv zeta. repeat split; try congruence.
    rewrite Hn, Hn1. cbn [length]. lia.
Qed.

Lemma firstn_S_nth_error {A} (l : list A) (n : nat) (x : A) :
  nth_error l n = Some x -> firstn (S n) l = firstn n l ++ [x].
Proof.
  revert n. induction l as [|a l IH]; intros [|n] H; try discriminate.
  - injection H as ->. reflexivity.
  - cbn. f_equal. now apply IH.
Qed.

(** C6.  From a start without a device (handle unset, counter 0) and as
    long as no backend opens, tick number [n + 1] raises the retry counter
    from [n] to [n + 1]; it re-checks the permission and tries to reopen
    the camera exactly when [n + 1] is a multiple of 30; and it ends by
    putting a placeholder on the label.
    Drawing the placeholder is taken not to raise ([drawing_succeeds]). *)
Theorem reopen_every_30_ticks (Hdraw : drawing_succeeds)
  (envs : list Env) (s0 : State) :
  cap s0 = None ->
  _open_retry_counter s0 = 0 ->
  Forall no_device envs ->
  forall (n : nat) (env : Env),
    nth_error envs n = Some env ->
    let before := run s0 (map Tick (firstn n envs)) in
    let after := run s0 (map Tick (firstn (S n) envs)) in
    after = step before (Tick env)
    /\ _open_retry_counter before = Z.of_nat n
    /\ _open_retry_counter after = Z.of_nat n + 1
    /\ cap after = None
    /\ exists calls message,
        trace after
        = trace before ++ calls
          ++ [call_setPixmap (placeholder_bitmap (config s0) message)]
        /\ label_pixmap after = Some (placeholder_bitmap (config s0) message)
        /\ (In call_ensure_camera_permission calls <-> (Z.of_nat n + 1) mod 30 = 0)
        /\ (In call_open_camera calls <-> (Z.of_nat n + 1) mod 30 = 0).
Proof.
  intros Hcap Hzero Hall n env Hnth before after.
  assert (Hpre : Forall no_device (firstn n envs)).
  { rewrite Forall_forall in *. intros e He. apply Hall.
    eapply In_firstn; eassumption. }
  assert (Henv : no_device env).
  { rewrite Forall_forall in Hall. apply Hall.
    eapply nth_error_In; eassumption. }
  destruct (@run_no_device Hdraw (firstn n envs) s0 Hcap Hpre) as (Hcapb & Hnb & Hcfgb).
  fold before in Hcapb, Hnb, Hcfgb.
  assert (Hlen : length (firstn n envs) = n).
  { rewrite length_firstn. apply Nat.min_l.
    apply Nat.lt_le_incl, nth_error_Some. congruence. }
  rewrite Hzero, Hlen in Hnb. cbn in Hnb.
  assert (Hafter : after = step before (Tick env)).
  { unfold after, before.
    rewrite (firstn_S_nth_error _ _ Hnth), map_app, run_app. reflexivity. }
  destruct (@update_frame_no_device Hdraw env before Hcapb Henv)
    as (s1 & calls & message & Hrun & Hcap1 & Hn1 & _ & Htr & Hl & Hperm & Hopen).
  assert (Hstep : step before (Tick env) = s1)
    by (unfold step, handler; now rewrite Hrun).
  rewrite Hafter, Hstep. unfold reopen_due in *.
  rewrite Hnb in *. rewrite Hcfgb in *.
  repeat split; try assumption.
  exists calls, message. repeat split; try assumption; tauto.
Qed.

(** ** Compositing *)

Lemma nth_error_combine {A B} (l : list A) (l' : list B) (n : nat) :
  nth_error (combine l l') n
  = match nth_error l n, nth_error l' n with
    | Some a, Some b => Some (a, b)
    | _, _ => None
    end.
Proof.
  revert l' n. induction l as [|a l IH]; intros [|b l'] [|n]; cbn;
    try reflexivity.
  - now destruct (nth_error l n).
  - apply IH.
Qed.

Lemma at_map {A B} (f : A -> B) (fr : list (list A)) (i j : nat) :
  at_ (map (map f) fr) i j = option_map f (at_ fr i j).
Proof.
  unfold at_. rewrite nth_error_map.
  destruct (nth_error fr i) as [row|]; cbn; [|reflexivity].
  apply nth_error_map.
Qed.

Lemma rect_map {A B} (f : A -> B) (h w : nat) (fr : list (list A)) :
  rect h w fr -> rect h w (map (map f) fr).
Proof.
  intros [Hl Hall]. split; [now rewrite length_map|].
  apply Forall_map. eapply Forall_impl; [|exact Hall].
  intros row Hrow. cbn. now rewrite length_map.
Qed.

Lemma rect_at {A} (h w : nat) (fr : list (list A)) (i j : nat) :
  rect h w fr -> (i < h)%nat -> (j < w)%nat -> exists x, at_ fr i j = Some x.
Proof.
  intros Hrect Hi Hj. unfold at_.
  destruct (nth_error fr i) as [row|] eqn:Hrow.
  - pose proof (rect_row _ Hrect Hrow) as Hlen.
    destruct (nth_error row j) as [x|] eqn:Hx; [now exists x|].
    apply nth_error_None in Hx. lia.
  - apply nth_error_None in Hrow. destruct Hrect as [Hl _]. lia.
Qed.

Lemma rect_shape_eq {A B} (h w : nat) (a : list (list A)) (b : list (list B)) :
  rect h w a -> rect h w b -> rows a = rows b /\ cols a = cols b.
Proof.
  intros [Hla Ha] [Hlb Hb]. unfold rows, cols. split; [congruence|].
  destruct a as [|ra a], b as [|rb b]; cbn in *; try congruence.
  inversion Ha; inversion Hb; subst. congruence.
Qed.

(** Stacking an image and an alpha plane of the same shape. *)
Lemma np_dstack_rect (h w : nat) (rgb : list (list (Z * Z * Z)))
  (alpha : list (list Z)) :
  rect h w rgb -> rect h w alpha ->
  exists rgba,
    np_dstack rgb alpha = Ok rgba
    /\ rect h w rgba
    /\ forall i j,
        at_ rgba i j
        = match at_ rgb i j, at_ alpha i j with
          | Some p, Some a => Some (with_alpha (p, a))
          | _, _ => None
          end.
Proof.
  intros Hrgb Halpha.
  destruct (rect_shape_eq Hrgb Halpha) as [Hr Hc].
  unfold np_dstack. rewrite Hr, Hc, !Z.eqb_refl. cbn [andb].
  eexists. split; [reflexivity|]. split.
  - destruct Hrgb as [Hl1 Ha1], Halpha as [Hl2 Ha2]. split.
    + rewrite length_map, length_combine, Hl1, Hl2. apply Nat.min_id.
    + apply Forall_map. rewrite Forall_forall in *. intros [r a] Hin. cbn.
      rewrite length_map, length_combine.
      rewrite (Ha1 r (in_combine_l _ _ _ _ Hin)).
      rewrite (Ha2 a (in_combine_r _ _ _ _ Hin)). apply Nat.min_id.
  - intros i j. unfold at_. rewrite nth_error_map, nth_error_combine.
    destruct (nth_error rgb i) as [r|], (nth_error alpha i) as [a|]; cbn;
      try reflexivity.
    + rewrite nth_error_map, nth_error_combine.
      now destruct (nth_error r j), (nth_error a j).
    + now destruct (nth_error r j).
Qed.

(** The alpha value is 255 above the threshold and 0 elsewhere. *)
Lemma alpha_of_threshold (m : float) :
  alpha_of m = if PrimFloat.ltb 0.5%float m then 255 else 0.
Proof. unfold alpha_of. now destruct (PrimFloat.ltb 0.5 m). Qed.

(** The tick has a frame to show: the device is live, the read yields
    [frame], and zoom and resize bring its mirror image to [resized]. *)
Definition tick_frame (env : Env) (s : State) (frame resized : Frame) : Prop :=
  (exists c, cap s = Some c)
  /\ cap_isOpened env = Ok true
  /\ cap_read env = Ok (Some frame)
  /\ exists zoomed,
      _apply_zoom (zoom_bar_value s) (cv2_flip frame) = Ok zoomed
      /\ cv2_resize zoomed (width (config s), height (config s)) = Ok resized.

(** The state after [setPixmap]. *)
Definition shown (b : Bitmap) (s : State) : State :=
  set_trace (trace s ++ [call_setPixmap b]) (set_label_pixmap (Some b) s).

Lemma update_frame_plain (env : Env) (s : State) (frame resized : Frame) :
  tick_frame env s frame resized ->
  cutout_enabled s = false ->
  update_frame env s = (Ok tt, shown (Format_RGB888 (cv2_cvtColor resized)) s).
Proof.
  intros ([c Hcap] & Hopen & Hread & zoomed & Hzoom & Hresize) Hoff.
  unfold update_frame, try_except, update_frame_body, cap_not_live, setPixmap.
  cbv [bind gets lift ret modify record].
  rewrite Hcap, Hopen. cbn [negb]. rewrite Hread, Hzoom, Hresize, Hoff.
  reflexivity.
Qed.

Lemma update_frame_cutout (env : Env) (s : State) (frame resized : Frame)
  (seg : Segmenter) (mask : Mask) (rgba : list (list (Z * Z * Z * Z))) :
  tick_frame env s frame resized ->
  cutout_enabled s = true ->
  segmenter s = Some seg ->
  process env (cv2_cvtColor resized) = Ok (Some mask) ->
  np_dstack (cv2_cvtColor resized) (alpha_of_mask mask) = Ok rgba ->
  update_frame env s
  = (Ok tt,
     shown (Format_RGBA8888 rgba)
       (set_trace (trace s ++ [call_ensure_segmenter_ready; call_process]) s)).
Proof.
  intros ([c Hcap] & Hopen & Hread & zoomed & Hzoom & Hresize) Hon Hseg
    Hprocess Hstack.
  unfold update_frame, try_except, update_frame_body, cap_not_live, setPixmap,
    _ensure_segmenter_ready, segmenter_process.
  cbv [bind gets lift ret modify record].
  rewrite Hcap, Hopen. cbn [negb]. rewrite Hread, Hzoom, Hresize, Hon.
  fields. rewrite Hseg. cbn [negb]. fields. rewrite Hseg, Hprocess, Hstack.
  cbv [shown set_trace set_label_pixmap config shape cutout_enabled
         camera_error_message _permission_requested _open_retry_counter cap
         segmenter zoom_bar_value label_pixmap shape_button_text
         cutout_button_text debug_text log trace].
  rewrite <- !app_assoc. reflexivity.
Qed.

(** C1.  On a tick that composites a frame with the cutout on, the bitmap
    put on the label is a four-channel one of the frame's shape; at every
    pixel its colour channels are those of the frame handed to the
    compositor, reordered from B, G, R to R, G, B and otherwise untouched
    whatever the alpha, and its alpha is 255 where the mask exceeds 0.5 and
    0 elsewhere -- no other value occurs. *)
Theorem cutout_alpha_is_thresholded (env : Env) (s : State)
  (frame resized : Frame) (seg : Segmenter) (mask : Mask) (h w : nat) :
  tick_frame env s frame resized ->
  cutout_enabled s = true ->
  segmenter s = Some seg ->
  process env (cv2_cvtColor resized) = Ok (Some mask) ->
  rect h w resized ->
  rect h w mask ->
  exists rgba s',
    update_frame env s = (Ok tt, s')
    /\ label_pixmap s' = Some (Format_RGBA8888 rgba)
    /\ rect h w rgba
    /\ forall i j,
        (i < h)%nat -> (j < w)%nat ->
        exists b g r m a,
          at_ resized i j = Some (b, g, r)
          /\ at_ mask i j = Some m
          /\ at_ rgba i j = Some (r, g, b, a)
          /\ a = (if PrimFloat.ltb 0.5%float m then 255 else 0)
          /\ (a = 0 \/ a = 255).
Proof.
  intros Htick Hon Hseg Hprocess Hframe Hmask.
  destruct (@np_dstack_rect h w (cv2_cvtColor resized) (alpha_of_mask mask))
    as (rgba & Hstack & Hshape & Hat).
  { now apply rect_map. }
  { now apply rect_map. }
  exists rgba. eexists.
  split; [exact (update_frame_cutout Htick Hon Hseg Hprocess Hstack)|].
  split; [reflexivity|]. split; [exact Hshape|].
  intros i j Hi Hj.
  destruct (rect_at Hframe Hi Hj) as [[[b g] r] Hp].
  destruct (rect_at Hmask Hi Hj) as [m Hm].
  exists b, g, r, m, (alpha_of m).
  split; [exact Hp|]. split; [exact Hm|].
  split; [|split].
  - rewrite Hat. unfold cv2_cvtColor, alpha_of_mask.
    rewrite !at_map, Hp, Hm. reflexivity.
  - apply alpha_of_threshold.
  - rewrite alpha_of_threshold. destruct (PrimFloat.ltb 0.5 m); auto.
Qed.

(** ** The mirror image *)

Lemma rect_flip (h w : nat) (frame : Frame) :
  rect h w frame -> rect h w (cv2_flip frame).
Proof.
  intros [Hl Hall]. unfold cv2_flip. split; [now rewrite length_map|].
  apply Forall_map. eapply Forall_impl; [|exact Hall].
  intros row Hrow. cbn. now rewrite length_rev.
Qed.

(** Column [j] of the flipped frame is column [w - 1 - j] of the frame. *)
Lemma at_flip (h w : nat) (frame : Frame) (i j : nat) :
  rect h w frame -> (j < w)%nat ->
  at_ (cv2_flip frame) i j = at_ frame i (w - 1 - j).
Proof.
  intros Hrect Hj. unfold at_, cv2_flip. rewrite nth_error_map.
  destruct (nth_error frame i) as [row|] eqn:Hrow; cbn; [|reflexivity].
  rewrite nth_error_rev, (rect_row _ Hrect Hrow).
  destruct (Nat.ltb_spec j w); [|lia].
  f_equal. lia.
Qed.

(** C10.  A frame that is read is mirrored about its vertical axis before
    anything else is done to it: zoom and resize are applied to the mirror
    image, and the bitmap put on the label -- three channels with the
    cutout off, four with it on -- is the composite of that result. *)
Theorem displayed_frame_is_mirrored (env : Env) (s : State) (c : Capture)
  (frame : Frame) (h w : nat) :
  cap s = Some c ->
  cap_isOpened env = Ok true ->
  cap_read env = Ok (Some frame) ->
  rect h w frame ->
  (rect h w (cv2_flip frame)
   /\ forall i j, (j < w)%nat ->
        at_ (cv2_flip frame) i j = at_ frame i (w - 1 - j))
  /\ forall zoomed resized,
      _apply_zoom (zoom_bar_value s) (cv2_flip frame) = Ok zoomed ->
      cv2_resize zoomed (width (config s), height (config s)) = Ok resized ->
      (cutout_enabled s = false ->
       update_frame env s
       = (Ok tt, shown (Format_RGB888 (cv2_cvtColor resized)) s))
      /\ (cutout_enabled s = true ->
          forall seg mask rgba,
            segmenter s = Some seg ->
            process env (cv2_cvtColor resized) = Ok (Some mask) ->
            np_dstack (cv2_cvtColor resized) (alpha_of_mask mask) = Ok rgba ->
            fst (update_frame env s) = Ok tt
            /\ label_pixmap (snd (update_frame env s))
               = Some (Format_RGBA8888 rgba)).
Proof.
  intros Hcap Hopen Hread Hrect. split.
  - split; [now apply rect_flip|].
    intros i j Hj. now apply at_flip with h.
  - intros zoomed resized Hzoom Hresize.
    assert (Htick : tick_frame env s frame resized).
    { split; [now exists c|]. split; [assumption|]. split; [assumption|].
      now exists zoomed. }
    split.
    + intros Hoff. exact (update_frame_plain Htick Hoff).
    + intros Hon seg mask rgba Hseg Hprocess Hstack.
      rewrite (update_frame_cutout Htick Hon Hseg Hprocess Hstack).
      split; reflexivity.
Qed.

(** ** The placeholder *)

(** The texts written one after the other; the first exception ends the
    drawing. *)
Definition write_text (drawn : result Frame) (d : pystr * (Z * Z))
  : result Frame :=
  match drawn with
  | Ok frame => cv2_putText frame (fst d) (snd d)
  | Raise e => Raise e
  end.

Lemma write_text_raised (texts : list (pystr * (Z * Z))) (e : exn) :
  fold_left write_text texts (Raise e) = Raise e.
Proof. induction texts as [|d texts IH]; [reflexivity|exact IH]. Qed.

Lemma draw_lines_placed (lines : list pystr) (frame : Frame) (y : Z) :
  draw_lines frame y lines
  = fold_left write_text (placed y (map (firstn 64) lines)) (Ok frame).
Proof.
  revert frame y. induction lines as [|line lines IH]; intros frame y.
  - reflexivity.
  - cbn [draw_lines map placed fold_left write_text fst snd].
    destruct (cv2_putText frame (firstn 64 line) (10, y)) as [drawn|e].
    + apply IH.
    + now rewrite write_text_raised.
Qed.

Lemma length_placed (y : Z) (lines : list pystr) :
  length (placed y lines) = length lines.
Proof.
  revert y. induction lines as [|line lines IH]; intros y; cbn; auto.
Qed.

Lemma nth_error_placed (lines : list pystr) (y : Z) (i : nat) :
  nth_error (placed y lines) i
  = option_map (fun line => (line, (10, y + 26 * Z.of_nat i)))
      (nth_error lines i).
Proof.
  revert y i. induction lines as [|line lines IH]; intros y [|i];
    try reflexivity.
  - cbn. now rewrite Z.add_0_r.
  - cbn [placed nth_error]. rewrite IH.
    destruct (nth_error lines i); cbn [option_map]; [|reflexivity].
    do 3 f_equal. lia.
Qed.

Lemma at_np_zeros (h w : Z) (i j : nat) :
  Z.of_nat i < h -> Z.of_nat j < w -> at_ (np_zeros h w) i j = Some (0, 0, 0).
Proof.
  intros Hi Hj. unfold at_, np_zeros.
  rewrite nth_error_repeat by lia.
  apply nth_error_repeat. lia.
Qed.

(** C7.  The placeholder is the black canvas of the label's size with the
    texts of [texts_drawn] written on it in order by [cv2.putText] (an
    exception of a call ends the drawing): at most 6 of them, the
    [i]-th one being the first 64 characters of the [i]-th line of the
    message, 10 pixels from the left and at height [24 + 26 i]; lines past
    the sixth are not drawn.  For the empty message the one text is
    "error". *)
Theorem placeholder_texts (cfg : AppConfig) (message : pystr) :
  draw_placeholder cfg message
  = match
      fold_left write_text (texts_drawn message)
        (Ok (np_zeros (height cfg) (width cfg)))
    with
    | Ok frame => Ok (Format_RGB888 (cv2_cvtColor frame))
    | Raise e => Raise e
    end
  /\ (forall i j, Z.of_nat i < height cfg -> Z.of_nat j < width cfg ->
        at_ (np_zeros (height cfg) (width cfg)) i j = Some (0, 0, 0))
  /\ (length (texts_drawn message) <= 6)%nat
  /\ (message = [] -> texts_drawn message = [(py "error", (10, 24))])
  /\ (message <> [] ->
      length (texts_drawn message)
      = Nat.min 6 (length (splitlines message))
      /\ forall i, (i < 6)%nat ->
           nth_error (texts_drawn message) i
           = option_map
               (fun line => (firstn 64 line, (10, 24 + 26 * Z.of_nat i)))
               (nth_error (splitlines message) i))
  /\ (forall text org, In (text, org) (texts_drawn message) ->
        (length text <= 64)%nat).
Proof.
  split; [|split; [|split; [|split; [|split]]]].
  - unfold draw_placeholder, placeholder_lines, texts_drawn. cbv zeta.
    rewrite draw_lines_placed. now destruct message.
  - intros i j. apply at_np_zeros.
  - unfold texts_drawn. destruct message as [|c message]; [cbn; lia|].
    rewrite length_placed, length_map, length_firstn. lia.
  - intros ->. reflexivity.
  - intros Hne. unfold texts_drawn.
    destruct message as [|c message]; [congruence|]. split.
    + now rewrite length_placed, length_map, length_firstn.
    + intros i Hi.
      rewrite nth_error_placed, nth_error_map, nth_error_firstn.
      destruct (Nat.ltb_spec i 6); [|lia].
      now destruct (nth_error (splitlines (c :: message)) i).
  - intros text org Hin. unfold texts_drawn in Hin.
    destruct message as [|c message].
    + destruct Hin as [Heq|[]]. injection Heq as <- _.
      vm_compute. lia.
    + apply In_nth_error in Hin as [i Hi].
      rewrite nth_error_placed, nth_error_map in Hi.
      match type of Hi with
      | context [option_map (firstn 64) ?o] => destruct o as [line|]
      end; cbn [option_map] in Hi; [|discriminate].
      assert (Htext : text = firstn 64 line) by congruence.
      rewrite Htext, length_firstn. lia.
Qed.

(** * Further properties of the widget *)

(** Unfolds the methods down to the primitive computations. *)
Ltac unfold_methods :=
  unfold __init__, update_frame, update_frame_body, toggle_cutout,
    toggle_shape, zoom_bar_moved, permission_callback, closeEvent,
    cap_not_live, _validate_camera_usage_description,
    _ensure_segmenter_ready, segmenter_setup, segmenter_process,
    _configure_mediapipe_resource_dir, first_base,
    _ensure_camera_permission, _open_camera, _camera_permission_denied,
    _render_placeholder, _write_debug_text, setPixmap,
    logging_info, logging_exception, record.

(** Turns a goal about the state a computation leaves into a goal about
    the computation. *)
Ltac as_preserves R :=
  cbv beta;
  match goal with
  | |- context [snd (?m ?s0)] =>
      let Hm := fresh "Hm" in
      assert (Hm : preserves R m); [|exact (Hm s0)]
  end.

(** ** The retry counter *)

Definition same_counter (s s' : State) : Prop :=
  _open_retry_counter s' = _open_retry_counter s.

Lemma same_counter_refl (s : State) : same_counter s s.
Proof. reflexivity. Qed.

Lemma same_counter_trans (s1 s2 s3 : State) :
  same_counter s1 s2 -> same_counter s2 s3 -> same_counter s1 s3.
Proof. unfold same_counter. congruence. Qed.

Ltac same_counter_steps :=
  unfold_methods;
  preserve_steps same_counter_refl same_counter_trans;
  try solve [intros ?st; reflexivity].

(** The device is not live at tick [ev] in state [s]: there is no handle,
    or the handle reports itself closed. *)
Definition dead_tick (ev : Event) (s : State) : bool :=
  match ev with
  | Tick env =>
      match cap s with
      | None => true
      | Some _ =>
          match cap_isOpened env with
          | Ok false => true
          | _ => false
          end
      end
  | _ => false
  end.

(** What [cap_not_live] answers; it changes nothing. *)
Definition liveness (env : Env) (s : State) : result bool :=
  match cap s with
  | None => Ok true
  | Some _ =>
      match cap_isOpened env with
      | Ok opened => Ok (negb opened)
      | Raise e => Raise e
      end
  end.

Lemma cap_not_live_run (env : Env) (s : State) :
  cap_not_live env s = (liveness env s, s).
Proof.
  unfold cap_not_live, liveness. cbv [bind gets lift ret].
  destruct (cap s); [|reflexivity].
  now destruct (cap_isOpened env).
Qed.

Lemma bind_run {A B} (m : M A) (k : A -> M B) (s : State) :
  bind m k s
  = match fst (m s) with
    | Ok a => k a (snd (m s))
    | Raise e => (Raise e, snd (m s))
    end.
Proof. unfold bind. now destruct (m s) as [[a|e] s1]. Qed.

Lemma bind_modify {B} (f : State -> State) (k : unit -> M B) (s : State) :
  bind (modify f) k s = k tt (f s).
Proof. reflexivity. Qed.

(** The state a tick leaves is the one its body leaves, up to what the
    handler of the [try] preserves. *)
Lemma update_frame_after_body (R : State -> State -> Prop) (env : Env)
  (s : State) :
  (forall s0, R s0 s0) ->
  (forall e,
      preserves R
        (bind (logging_exception (py "update_frame failed") e)
           (fun _ => _render_placeholder env MSG_TICK_FAILED))) ->
  R (snd (update_frame_body env s)) (snd (update_frame env s)).
Proof.
  intros Hrefl Hhandler. unfold update_frame, try_except.
  destruct (update_frame_body env s) as [[a|e] s1]; cbn [snd].
  - apply Hrefl.
  - apply Hhandler.
Qed.

Lemma counter_body (env : Env) (s : State) :
  _open_retry_counter (snd (update_frame_body env s))
  = _open_retry_counter s + (if dead_tick (Tick env) s then 1 else 0).
Proof.
  unfold update_frame_body. rewrite bind_run, cap_not_live_run. cbn [fst snd].
  unfold dead_tick, liveness.
  destruct (cap s) as [c|];
    [destruct (cap_isOpened env) as [[|]|e]|]; cbn [negb snd];
    try (rewrite Z.add_0_r; try reflexivity);
    try rewrite bind_modify.
  - as_preserves same_counter. same_counter_steps.
  - match goal with
    | |- _ = ?c + 1 =>
        change (c + 1)
          with (_open_retry_counter (set_open_retry_counter (c + 1) s))
    end.
    as_preserves same_counter. same_counter_steps.
  - match goal with
    | |- _ = ?c + 1 =>
        change (c + 1)
          with (_open_retry_counter (set_open_retry_counter (c + 1) s))
    end.
    as_preserves same_counter. same_counter_steps.
Qed.

Lemma counter_tick (env : Env) (s : State) :
  _open_retry_counter (snd (update_frame env s))
  = _open_retry_counter s + (if dead_tick (Tick env) s then 1 else 0).
Proof.
  rewrite <- counter_body.
  apply (@update_frame_after_body same_counter env s same_counter_refl).
  intros e. same_counter_steps.
Qed.

Lemma same_counter_toggle_cutout (env : Env) :
  preserves same_counter (toggle_cutout env).
Proof. same_counter_steps. Qed.

Lemma same_counter_closeEvent (env : Env) :
  preserves same_counter (closeEvent env).
Proof. same_counter_steps. Qed.

(** X1.  Only a tick on which the device is not live moves the retry
    counter, and it moves it up by exactly one: no click, slider move,
    callback or close touches it, a tick with a live device leaves it
    alone even when the tick fails, and nothing ever resets it. *)
Theorem retry_counter_moves_on_dead_ticks (s : State) (ev : Event) :
  _open_retry_counter (step s ev)
  = _open_retry_counter s + (if dead_tick ev s then 1 else 0).
Proof.
  unfold step. destruct ev as [env|env| |value|granted|env]; cbn [handler].
  - apply counter_tick.
  - cbn [dead_tick]. rewrite Z.add_0_r. apply same_counter_toggle_cutout.
  - cbn [dead_tick]. rewrite Z.add_0_r.
    assert (H : preserves same_counter toggle_shape) by same_counter_steps.
    apply H.
  - cbn [dead_tick]. rewrite Z.add_0_r.
    assert (H : preserves same_counter (zoom_bar_moved value))
      by same_counter_steps.
    apply H.
  - cbn [dead_tick]. rewrite Z.add_0_r.
    assert (H : preserves same_counter (permission_callback granted))
      by same_counter_steps.
    apply H.
  - cbn [dead_tick]. rewrite Z.add_0_r. apply same_counter_closeEvent.
Qed.

(** ** The recorded error message *)

Definition message_stays (s s' : State) : Prop :=
  camera_error_message s <> None -> camera_error_message s' <> None.

Lemma message_stays_refl (s : State) : message_stays s s.
Proof. unfold message_stays. auto. Qed.

Lemma message_stays_trans (s1 s2 s3 : State) :
  message_stays s1 s2 -> message_stays s2 s3 -> message_stays s1 s3.
Proof. unfold message_stays. auto. Qed.

Lemma message_stays_handler (ev : Event) : preserves message_stays (handler ev).
Proof.
  destruct ev as [env|env| |value|granted|env]; cbn [handler];
    unfold_methods;
    preserve_steps message_stays_refl message_stays_trans;
    intros st; unfold message_stays; fields; auto; discriminate.
Qed.

(** X2.  No event ever clears the recorded error message: once
    [camera_error_message] is set it stays set (possibly replaced by a
    newer message) through every sequence of ticks, clicks, slider moves,
    callbacks and close -- also after the camera has come back. *)
Theorem error_message_never_cleared (s : State) (evs : list Event) :
  camera_error_message s <> None ->
  camera_error_message (run s evs) <> None.
Proof.
  revert s. induction evs as [|ev evs IH]; intros s Hset; [exact Hset|].
  change (run s (ev :: evs)) with (run (step s ev) evs).
  apply IH. exact (message_stays_handler ev s Hset).
Qed.

(** ** Captions *)

Definition cutout_caption (enabled : bool) : pystr :=
  if enabled then MSG_CUTOUT_ON else MSG_CUTOUT_OFF.

Definition shape_caption (sh : Shape) : pystr :=
  match sh with
  | circle => MSG_SHAPE_CIRCLE
  | square => MSG_SHAPE_SQUARE
  end.

(** Both buttons say what the state is. *)
Definition captions_match (s : State) : Prop :=
  cutout_button_text s = cutout_caption (cutout_enabled s)
  /\ shape_button_text s = shape_caption (shape s).

Definition same_look (s s' : State) : Prop :=
  cutout_enabled s' = cutout_enabled s
  /\ cutout_button_text s' = cutout_button_text s
  /\ shape s' = shape s
  /\ shape_button_text s' = shape_button_text s.

Lemma same_look_refl (s : State) : same_look s s.
Proof. repeat split. Qed.

Lemma same_look_trans (s1 s2 s3 : State) :
  same_look s1 s2 -> same_look s2 s3 -> same_look s1 s3.
Proof. unfold same_look. intuition congruence. Qed.

Ltac same_look_steps :=
  unfold_methods;
  preserve_steps same_look_refl same_look_trans;
  try solve [intros ?st; repeat split].

Lemma same_look_captions (s s' : State) :
  same_look s s' -> captions_match s -> captions_match s'.
Proof.
  intros (He & Hc & Hs & Hb) [Hcut Hshape]. unfold captions_match.
  now rewrite He, Hc, Hs, Hb.
Qed.

Lemma same_look_ensure_segmenter_ready (env : Env) :
  preserves same_look (_ensure_segmenter_ready env).
Proof. same_look_steps. Qed.

Lemma captions_step (s : State) (ev : Event) :
  captions_match s -> captions_match (step s ev).
Proof.
  intros Hinv. unfold step.
  destruct ev as [env|env| |value|granted|env]; cbn [handler].
  - apply (same_look_captions (s := s)); [|exact Hinv].
    as_preserves same_look. same_look_steps.
  - destruct (cutout_enabled s) eqn:Hflag.
    + unfold toggle_cutout. cbv [bind gets modify ret]. rewrite Hflag.
      cbn [negb snd]. destruct Hinv as [_ Hshape].
      split; fields; [reflexivity|exact Hshape].
    + pose proof (same_look_ensure_segmenter_ready env s) as Hlook.
      rewrite (@toggle_cutout_after env s Hflag).
      destruct (_ensure_segmenter_ready env s) as [[[|]|e] s1];
        cbn [snd] in *;
        pose proof (same_look_captions Hlook Hinv) as [Hcut Hshape];
        [|now split|now split].
      split; fields; [reflexivity|exact Hshape].
  - destruct Hinv as [Hcut _]. unfold toggle_shape.
    cbv [bind gets modify]. destruct (shape s); cbn [snd];
      split; fields; auto.
  - apply (same_look_captions (s := s)); [|exact Hinv].
    as_preserves same_look. same_look_steps.
  - apply (same_look_captions (s := s)); [|exact Hinv].
    as_preserves same_look. same_look_steps.
  - apply (same_look_captions (s := s)); [|exact Hinv].
    as_preserves same_look. same_look_steps.
Qed.

Lemma captions_init (cfg : AppConfig) (env : Env) (s : State) :
  __init__ env (fresh cfg) = (Ok tt, s) -> captions_match s.
Proof.
  intros Hinit. apply (same_look_captions (s := fresh cfg)); [|now split].
  replace s with (snd (__init__ env (fresh cfg))) by now rewrite Hinit.
  as_preserves same_look. same_look_steps.
Qed.

(** X3.  In every state the widget can reach, the caption of the cutout
    button says whether the cutout is on and the caption of the shape
    button names the current shape -- in particular a click that fails to
    turn the cutout on leaves the caption at OFF. *)
Theorem captions_reflect_state (s : State) :
  reachable s -> captions_match s.
Proof.
  induction 1 as [cfg env s Hinit|s ev _ IH].
  - exact (@captions_init cfg env s Hinit).
  - now apply captions_step.
Qed.

(** ** The permission prompt *)

Definition is_requestAccess (c : Call) : bool :=
  match c with call_requestAccess => true | _ => false end.

(** How often the prompt was requested. *)
Definition requests (tr : list Call) : nat :=
  length (filter is_requestAccess tr).

Lemma requests_app (tr : list Call) (c : Call) :
  requests (tr ++ [c])
  = (requests tr + if is_requestAccess c then 1 else 0)%nat.
Proof.
  unfold requests. rewrite filter_app, length_app. cbn [filter].
  now destruct (is_requestAccess c).
Qed.

(** A request made on the way from [s] to [s'] was the one that raised
    the flag [_permission_requested]. *)
Definition asked_once (s s' : State) : Prop :=
  (requests (trace s') + Nat.b2n (_permission_requested s)
   <= requests (trace s) + Nat.b2n (_permission_requested s'))%nat.

Lemma asked_once_refl (s : State) : asked_once s s.
Proof. unfold asked_once. lia. Qed.

Lemma asked_once_trans (s1 s2 s3 : State) :
  asked_once s1 s2 -> asked_once s2 s3 -> asked_once s1 s3.
Proof. unfold asked_once. lia. Qed.

(** The one method that requests the prompt raises the flag first, and
    does neither when the flag is up. *)
Lemma asked_once_ensure_camera_permission (env : Env) :
  preserves asked_once (_ensure_camera_permission env).
Proof.
  intros s. unfold _ensure_camera_permission, asked_once.
  cbv [bind ret lift gets modify record].
  destruct (platform_darwin env), (import_AVFoundation env);
    cbn [negb snd]; fields; rewrite ?requests_app; cbn; try lia.
  destruct (authorizationStatus env) as [[| | |]|e];
    cbn [snd]; fields; rewrite ?requests_app; cbn; try lia.
  destruct (_permission_requested s) eqn:Hflag;
    cbn [snd]; fields; rewrite ?requests_app, ?Hflag; cbn; lia.
Qed.

Ltac asked_once_steps :=
  unfold __init__, update_frame, update_frame_body, toggle_cutout,
    toggle_shape, zoom_bar_moved, permission_callback, closeEvent,
    cap_not_live, _validate_camera_usage_description,
    _ensure_segmenter_ready, segmenter_setup, segmenter_process,
    _configure_mediapipe_resource_dir, first_base,
    _open_camera, _camera_permission_denied,
    _render_placeholder, _write_debug_text, setPixmap,
    logging_info, logging_exception, record;
  preserve_steps asked_once_refl asked_once_trans;
  try apply asked_once_ensure_camera_permission;
  try solve [intros ?st; unfold asked_once; fields;
             rewrite ?requests_app; cbn; lia].

Lemma asked_once_handler (ev : Event) : preserves asked_once (handler ev).
Proof.
  destruct ev as [env|env| |value|granted|env]; cbn [handler];
    asked_once_steps.
Qed.

Lemma asked_once_init (env : Env) : preserves asked_once (__init__ env).
Proof. asked_once_steps. Qed.

(** X4.  In every state the widget can reach, the camera-permission
    prompt has been requested at most once since the start, and only with
    the flag [_permission_requested] raised: however often the permission
    is re-checked while it is undetermined, the prompt is not requested
    again. *)
Theorem permission_requested_at_most_once (s : State) :
  reachable s ->
  (requests (trace s) <= Nat.b2n (_permission_requested s))%nat
  /\ (requests (trace s) <= 1)%nat.
Proof.
  intros Hreach.
  assert (Hinv : (requests (trace s) <= Nat.b2n (_permission_requested s))%nat).
  { induction Hreach as [cfg env s Hinit|s ev _ IH].
    - pose proof (asked_once_init env (fresh cfg)) as Hstep.
      rewrite Hinit in Hstep. unfold asked_once in Hstep.
      cbn in Hstep. cbn. lia.
    - pose proof (asked_once_handler ev s) as Hstep.
      unfold asked_once in Hstep. unfold step. lia. }
  split; [exact Hinv|].
  destruct (_permission_requested s); cbn in Hinv; lia.
Qed.

(** ** The segmenter, once constructed *)

Definition is_SelfieSegmentation (c : Call) : bool :=
  match c with call_SelfieSegmentation => true | _ => false end.

(** How often the construction of the segmenter was attempted. *)
Definition constructions (tr : list Call) : nat :=
  length (filter is_SelfieSegmentation tr).

Lemma constructions_app (tr : list Call) (c : Call) :
  constructions (tr ++ [c])
  = (constructions tr + if is_SelfieSegmentation c then 1 else 0)%nat.
Proof.
  unfold constructions. rewrite filter_app, length_app. cbn [filter].
  now destruct (is_SelfieSegmentation c).
Qed.

(** From a state with a segmenter, the segmenter stays the same object and
    no construction is attempted. *)
Definition constructed_once (s s' : State) : Prop :=
  segmenter s <> None ->
  segmenter s' = segmenter s
  /\ constructions (trace s') = constructions (trace s).

Lemma constructed_once_refl (s : State) : constructed_once s s.
Proof. intros _. split; reflexivity. Qed.

Lemma constructed_once_trans (s1 s2 s3 : State) :
  constructed_once s1 s2 -> constructed_once s2 s3 -> constructed_once s1 s3.
Proof.
  intros H12 H23 Hseg. destruct (H12 Hseg) as [Hs Hc].
  destruct H23 as [Hs' Hc']; [congruence|]. split; congruence.
Qed.

Lemma constructed_once_ensure_segmenter_ready (env : Env) :
  preserves constructed_once (_ensure_segmenter_ready env).
Proof.
  intros s Hseg. unfold _ensure_segmenter_ready.
  cbv [bind gets record modify ret]. fields.
  destruct (segmenter s) as [seg|] eqn:Hs; [|congruence].
  cbn [snd]. fields. rewrite constructions_app. cbn.
  split; [exact Hs|lia].
Qed.

Ltac constructed_once_steps :=
  unfold update_frame, update_frame_body, toggle_cutout,
    toggle_shape, zoom_bar_moved, permission_callback, closeEvent,
    cap_not_live, segmenter_process,
    _ensure_camera_permission, _open_camera, _camera_permission_denied,
    _render_placeholder, _write_debug_text, setPixmap,
    logging_info, logging_exception, record;
  preserve_steps constructed_once_refl constructed_once_trans;
  try apply constructed_once_ensure_segmenter_ready;
  try solve [intros ?st _; fields; rewrite ?constructions_app; cbn;
             split; [reflexivity|lia]].

Lemma constructed_once_handler (ev : Event) :
  preserves constructed_once (handler ev).
Proof.
  destruct ev as [env|env| |value|granted|env]; cbn [handler];
    constructed_once_steps.
Qed.

(** X5.  Once the segmenter is constructed, no sequence of events
    replaces it or attempts to construct it again: turning the cutout off
    and on, ticking with the cutout on and closing all use the segmenter
    that is there. *)
Theorem segmenter_constructed_once (s : State) (evs : list Event) :
  segmenter s <> None ->
  segmenter (run s evs) = segmenter s
  /\ constructions (trace (run s evs)) = constructions (trace s).
Proof.
  revert s. induction evs as [|ev evs IH]; intros s Hseg; [now split|].
  change (run s (ev :: evs)) with (run (step s ev) evs).
  destruct (constructed_once_handler ev s Hseg) as [Hs Hc].
  destruct (IH (step s ev)) as [Hs' Hc'].
  - unfold step. congruence.
  - unfold step in *. split; congruence.
Qed.

(** ** The shape and the pixels *)

(** [m] neither reads nor writes the shape: run from a state with another
    shape it returns the same and leaves the same state, but for the
    shape. *)
Definition shape_blind {A} (m : M A) : Prop :=
  forall sh s, m (set_shape sh s) = (fst (m s), set_shape sh (snd (m s))).

Lemma shape_blind_ret {A} (a : A) : shape_blind (ret a).
Proof. intros sh s. reflexivity. Qed.

Lemma shape_blind_lift {A} (r : result A) : shape_blind (lift r).
Proof. intros sh s. reflexivity. Qed.

Lemma shape_blind_gets {A} (f : State -> A) :
  (forall sh s, f (set_shape sh s) = f s) -> shape_blind (gets f).
Proof. intros H sh s. cbv [gets]. now rewrite H. Qed.

Lemma shape_blind_modify (f : State -> State) :
  (forall sh s, f (set_shape sh s) = set_shape sh (f s)) ->
  shape_blind (modify f).
Proof. intros H sh s. cbv [modify]. now rewrite H. Qed.

Lemma shape_blind_bind {A B} (m : M A) (k : A -> M B) :
  shape_blind m -> (forall a, shape_blind (k a)) -> shape_blind (bind m k).
Proof.
  intros Hm Hk sh s. unfold bind. rewrite Hm.
  destruct (m s) as [[a|e] s1]; cbn [fst snd]; [|reflexivity].
  rewrite Hk. now destruct (k a s1).
Qed.

Lemma shape_blind_try_except {A} (body : M A) (handler : exn -> M A) :
  shape_blind body -> (forall e, shape_blind (handler e)) ->
  shape_blind (try_except body handler).
Proof.
  intros Hm Hk sh s. unfold try_except. rewrite Hm.
  destruct (body s) as [[a|e] s1]; cbn [fst snd]; [reflexivity|].
  rewrite Hk. now destruct (handler e s1).
Qed.

Ltac shape_blind_steps :=
  unfold_methods;
  repeat match goal with
    | |- shape_blind (bind _ _) => apply shape_blind_bind; [|intros ?]
    | |- shape_blind (try_except _ _) =>
        apply shape_blind_try_except; [|intros ?]
    | |- shape_blind (ret _) => apply shape_blind_ret
    | |- shape_blind (lift _) => apply shape_blind_lift
    | |- shape_blind (gets _) => apply shape_blind_gets
    | |- shape_blind (modify _) => apply shape_blind_modify
    | |- shape_blind (if ?b then _ else _) => destruct b
    | |- shape_blind (match ?x with _ => _ end) => destruct x
    end;
  try solve [intros ?sh ?st; reflexivity].

(** X6.  The shape never reaches the pixels: a tick, a click on the
    cutout button and a close do exactly the same -- same outcome, same
    bitmap on the label, same messages, same calls -- whether the shape is
    the square or the circle; they leave the shape as it was. *)
Theorem shape_never_reaches_the_pixels (env : Env) (sh : Shape) (s : State) :
  update_frame env (set_shape sh s)
  = (fst (update_frame env s), set_shape sh (snd (update_frame env s)))
  /\ toggle_cutout env (set_shape sh s)
     = (fst (toggle_cutout env s), set_shape sh (snd (toggle_cutout env s)))
  /\ closeEvent env (set_shape sh s)
     = (fst (closeEvent env s), set_shape sh (snd (closeEvent env s))).
Proof.
  assert (H1 : shape_blind (update_frame env)) by shape_blind_steps.
  assert (H2 : shape_blind (toggle_cutout env)) by shape_blind_steps.
  assert (H3 : shape_blind (closeEvent env)) by shape_blind_steps.
  split; [apply H1|]. split; [apply H2|apply H3].
Qed.

(** ** The slider *)

Definition same_slider (s s' : State) : Prop :=
  config s' = config s /\ zoom_bar_value s' = zoom_bar_value s.

Lemma same_slider_refl (s : State) : same_slider s s.
Proof. split; reflexivity. Qed.

Lemma same_slider_trans (s1 s2 s3 : State) :
  same_slider s1 s2 -> same_slider s2 s3 -> same_slider s1 s3.
Proof. unfold same_slider. intuition congruence. Qed.

Ltac same_slider_steps :=
  unfold_methods;
  preserve_steps same_slider_refl same_slider_trans;
  try solve [intros ?st; split; reflexivity].

Definition same_config (s s' : State) : Prop := config s' = config s.

Lemma same_config_refl (s : State) : same_config s s.
Proof. reflexivity. Qed.

Lemma same_config_trans (s1 s2 s3 : State) :
  same_config s1 s2 -> same_config s2 s3 -> same_config s1 s3.
Proof. unfold same_config. congruence. Qed.

(** No handler touches the configuration. *)
Lemma same_config_handler (ev : Event) : preserves same_config (handler ev).
Proof.
  destruct ev as [env|env| |value|granted|env]; cbn [handler];
    unfold_methods;
    preserve_steps same_config_refl same_config_trans;
    intros st; reflexivity.
Qed.

(** The slider's value lies within the range the configuration gives. *)
Definition slider_in_range (s : State) : Prop :=
  zoom_min (config s) <= zoom_bar_value s <= zoom_max (config s).

Lemma slider_step (s : State) (ev : Event) :
  zoom_min (config s) <= zoom_max (config s) ->
  slider_in_range s ->
  config (step s ev) = config s /\ slider_in_range (step s ev).
Proof.
  intros Hcfg Hinv. unfold step, slider_in_range.
  destruct ev as [env|env| |value|granted|env]; cbn [handler];
    try match goal with
        | |- context [snd (?m s)] =>
            assert (Hm : preserves same_slider m) by same_slider_steps;
            destruct (Hm s) as [Hc Hv]; rewrite Hc, Hv; now split
        end.
  unfold zoom_bar_moved, slider_value. cbv [bind gets modify]. cbn [snd].
  fields. split; [reflexivity|lia].
Qed.

Lemma slider_reachable (s : State) :
  reachable s ->
  zoom_min (config s) <= zoom_max (config s) ->
  slider_in_range s.
Proof.
  induction 1 as [cfg env s Hinit|s ev _ IH]; intros Hcfg.
  - assert (Hm : preserves same_slider (__init__ env)) by same_slider_steps.
    specialize (Hm (fresh cfg)). rewrite Hinit in Hm.
    destruct Hm as [Hc Hv]. cbn [snd] in *. unfold slider_in_range.
    rewrite Hv, Hc in *. cbn in *. unfold slider_value. lia.
  - assert (Hkeep : config (step s ev) = config s)
      by exact (same_config_handler ev s).
    rewrite Hkeep in Hcfg.
    now apply slider_step; [|apply IH].
Qed.

(** ** The window of the zoom *)

(** The rows [y1, y2) and columns [x1, x2) that [_apply_zoom] keeps of a
    frame of [h] rows and [w] columns: all of it when the zoom factor is at
    most 1.0. *)
Definition zoom_window (value h w : Z) : result (Z * Z * Z * Z) :=
  let zoom := zoom_factor value in
  if PrimFloat.leb zoom PrimFloat.one then Ok (0, h, 0, w)
  else
    match zoom_len zoom w with
    | Raise e => Raise e
    | Ok new_w =>
        match zoom_len zoom h with
        | Raise e => Raise e
        | Ok new_h =>
            let x1 := (w - new_w) / 2 in
            let y1 := (h - new_h) / 2 in
            Ok (y1, y1 + new_h, x1, x1 + new_w)
        end
    end.

Lemma py_slice_all {A} (l : list A) :
  py_slice l 0 (Z.of_nat (length l)) = l.
Proof.
  rewrite py_slice_inner by lia. cbn [Z.to_nat skipn].
  rewrite Z.sub_0_r, Nat2Z.id. apply firstn_all.
Qed.

Lemma crop_all (h w : nat) (frame : Frame) :
  rect h w frame -> crop frame 0 (Z.of_nat h) 0 (Z.of_nat w) = frame.
Proof.
  intros [Hl Hall]. unfold crop. rewrite <- Hl, py_slice_all.
  rewrite <- (map_id frame) at 2. apply map_ext_in. intros row Hin.
  rewrite Forall_forall in Hall. rewrite <- (Hall row Hin).
  apply py_slice_all.
Qed.

(** [_apply_zoom] cuts the window of [zoom_window]. *)
Lemma apply_zoom_window (value : Z) (h w : nat) (frame : Frame) :
  rect h w frame -> (0 < h)%nat ->
  _apply_zoom value frame
  = match zoom_window value (Z.of_nat h) (Z.of_nat w) with
    | Ok (y1, y2, x1, x2) => Ok (crop frame y1 y2 x1 x2)
    | Raise e => Raise e
    end.
Proof.
  intros Hrect Hh. unfold _apply_zoom, zoom_window. cbv zeta.
  rewrite (rect_rows Hrect), (rect_cols Hrect Hh).
  destruct (PrimFloat.leb (zoom_factor value) PrimFloat.one).
  - now rewrite (crop_all Hrect).
  - destruct (zoom_len (zoom_factor value) (Z.of_nat w)); [|reflexivity].
    now destruct (zoom_len (zoom_factor value) (Z.of_nat h)).
Qed.

Lemma zoom_factor_100 :
  PrimFloat.leb (zoom_factor 100) PrimFloat.one = true.
Proof. reflexivity. Qed.

(** A larger slider value gives a side that is no longer. *)
Lemma near_floor_antitone (v v' n k k' : Z) :
  0 < v < v' -> 0 < n ->
  near_floor v n k -> near_floor v' n k' -> k' <= k.
Proof.
  intros Hv Hn (Hk & Hq & Hex) (Hk' & Hq' & _). cbv zeta in *.
  assert (Hle : 100 * n / v' <= 100 * n / v)
    by (apply Z.div_le_compat_l; lia).
  destruct (Z.eq_dec ((100 * n) mod v) 0) as [Hmod|Hmod].
  - assert (Hexact : 100 * n = v * (100 * n / v)).
    { rewrite (Z.div_mod (100 * n) v) at 1 by lia. lia. }
    assert (Hpos : 0 < 100 * n / v).
    { apply Z.div_str_pos. split; [lia|].
      apply Z.divide_pos_le; [lia|].
      apply Z.mod_divide; [lia|exact Hmod]. }
    assert (Hlt : 100 * n / v' < 100 * n / v).
    { apply Z.div_lt_upper_bound; [lia|]. nia. }
    lia.
  - specialize (Hex Hmod). lia.
Qed.

(** The window of the zoom within the slider's range. *)
Lemma zoom_window_in_range (value h w : Z) :
  100 <= value <= 300 -> 1 <= h <= max_side -> 1 <= w <= max_side ->
  exists y1 y2 x1 x2,
    zoom_window value h w = Ok (y1, y2, x1, x2)
    /\ 0 <= y1 /\ y1 < y2 /\ y2 <= h
    /\ 0 <= x1 /\ x1 < x2 /\ x2 <= w.
Proof.
  intros Hv Hh Hw. unfold zoom_window. cbv zeta.
  destruct (Z.eq_dec value 100) as [->|Hne].
  - rewrite zoom_factor_100. exists 0, h, 0, w. repeat split; lia.
  - assert (Hv' : 101 <= value <= 300) by lia.
    destruct (zoom_quotient_in_range Hv' Hw) as (Hgt & _).
    destruct (zoom_len_in_range Hv' Hw) as (new_w & Hlw & (Hbw & _)).
    destruct (zoom_len_in_range Hv' Hh) as (new_h & Hlh & (Hbh & _)).
    rewrite Hgt, Hlw, Hlh.
    eexists _, _, _, _. split; [reflexivity|].
    pose proof (Z.div_pos (w - new_w) 2 ltac:(lia) ltac:(lia)).
    pose proof (Z.div_pos (h - new_h) 2 ltac:(lia) ltac:(lia)).
    pose proof (Z.mul_div_le (w - new_w) 2 ltac:(lia)).
    pose proof (Z.mul_div_le (h - new_h) 2 ltac:(lia)).
    repeat split; lia.
Qed.

Lemma centered_window_nested (n k k' : Z) :
  k' <= k ->
  (n - k) / 2 <= (n - k') / 2
  /\ (n - k') / 2 + k' <= (n - k) / 2 + k.
Proof.
  intros Hk. split.
  - apply Z.div_le_mono; lia.
  - replace ((n - k') / 2 + k') with ((n + k') / 2).
    + replace ((n - k) / 2 + k) with ((n + k) / 2).
      * apply Z.div_le_mono; lia.
      * replace (n + k) with (n - k + k * 2) by lia.
        now rewrite Z.div_add by lia.
    + replace (n + k') with (n - k' + k' * 2) by lia.
      now rewrite Z.div_add by lia.
Qed.

(** X7.  Zooming in narrows the view and never shifts it out of the
    previous one: for slider values [value <= value'] within 100..300 and a
    frame with sides between 1 and [max_side], [_apply_zoom] returns at both
    values a non-empty window of the frame, and the window at [value'] lies
    within the window at [value]. *)
Theorem zooming_in_narrows_the_window (value value' : Z) (h w : nat)
  (frame : Frame) :
  100 <= value <= value' -> value' <= 300 ->
  rect h w frame ->
  1 <= Z.of_nat h <= max_side -> 1 <= Z.of_nat w <= max_side ->
  exists y1 y2 x1 x2 y1' y2' x1' x2',
    _apply_zoom value frame = Ok (crop frame y1 y2 x1 x2)
    /\ _apply_zoom value' frame = Ok (crop frame y1' y2' x1' x2')
    /\ (0 <= y1 <= y1' /\ y1' < y2' /\ y2' <= y2 <= Z.of_nat h)
    /\ (0 <= x1 <= x1' /\ x1' < x2' /\ x2' <= x2 <= Z.of_nat w).
Proof.
  intros Hv Hv' Hrect Hh Hw.
  assert (Hhpos : (0 < h)%nat) by lia.
  rewrite !(apply_zoom_window _ Hrect Hhpos).
  destruct (@zoom_window_in_range value (Z.of_nat h) (Z.of_nat w))
    as (y1 & y2 & x1 & x2 & Hwin & Hy1 & Hy12 & Hy2 & Hx1 & Hx12 & Hx2);
    try lia.
  destruct (@zoom_window_in_range value' (Z.of_nat h) (Z.of_nat w))
    as (y1' & y2' & x1' & x2' & Hwin' & Hy1' & Hy12' & Hy2' & Hx1' & Hx12'
        & Hx2'); try lia.
  exists y1, y2, x1, x2, y1', y2', x1', x2'.
  rewrite Hwin, Hwin'. split; [reflexivity|]. split; [reflexivity|].
  destruct (Z.eq_dec value value') as [<-|Hne].
  { rewrite Hwin in Hwin'. injection Hwin' as <- <- <- <-. lia. }
  destruct (Z.eq_dec value 100) as [->|Hne100].
  { unfold zoom_window in Hwin. cbv zeta in Hwin.
    rewrite zoom_factor_100 in Hwin. injection Hwin as <- <- <- <-. lia. }
  assert (Hr : 101 <= value <= 300) by lia.
  assert (Hr' : 101 <= value' <= 300) by lia.
  unfold zoom_window in Hwin, Hwin'. cbv zeta in Hwin, Hwin'.
  destruct (zoom_quotient_in_range Hr Hw) as (Hgt & _).
  destruct (zoom_quotient_in_range Hr' Hw) as (Hgt' & _).
  destruct (zoom_len_in_range Hr Hw) as (cw & Hlw & Hnw).
  destruct (zoom_len_in_range Hr Hh) as (ch & Hlh & Hnh).
  destruct (zoom_len_in_range Hr' Hw) as (cw' & Hlw' & Hnw').
  destruct (zoom_len_in_range Hr' Hh) as (ch' & Hlh' & Hnh').
  rewrite Hgt, Hlw, Hlh in Hwin. rewrite Hgt', Hlw', Hlh' in Hwin'.
  injection Hwin as <- <- <- <-. injection Hwin' as <- <- <- <-.
  assert (Hcw : cw' <= cw)
    by (apply (@near_floor_antitone value value' (Z.of_nat w)); try lia;
        assumption).
  assert (Hch : ch' <= ch)
    by (apply (@near_floor_antitone value value' (Z.of_nat h)); try lia;
        assumption).
  destruct (centered_window_nested (Z.of_nat w) Hcw).
  destruct (centered_window_nested (Z.of_nat h) Hch).
  lia.
Qed.

(** X8.  With the default configuration the slider stays within 100..300
    in every state the widget can reach, so the zoom step of a tick cannot
    fail there: on a frame with sides between 1 and [max_side] it returns a
    frame that is not empty and not larger than the one it was given. *)
Theorem zoom_step_never_fails (s : State) (h w : nat) (frame : Frame) :
  reachable s ->
  config s = default_config ->
  rect h w frame ->
  1 <= Z.of_nat h <= max_side -> 1 <= Z.of_nat w <= max_side ->
  100 <= zoom_bar_value s <= 300
  /\ exists g h' w',
      _apply_zoom (zoom_bar_value s) frame = Ok g
      /\ rect h' w' g
      /\ (1 <= h' <= h)%nat /\ (1 <= w' <= w)%nat.
Proof.
  intros Hreach Hcfg Hrect Hh Hw.
  assert (Hrange : 100 <= zoom_bar_value s <= 300).
  { pose proof (slider_reachable Hreach) as Hin.
    unfold slider_in_range in Hin. rewrite Hcfg in Hin. cbn in Hin.
    apply Hin. lia. }
  split; [exact Hrange|].
  assert (Hhpos : (0 < h)%nat) by lia.
  rewrite (apply_zoom_window _ Hrect Hhpos).
  destruct (@zoom_window_in_range (zoom_bar_value s) (Z.of_nat h) (Z.of_nat w))
    as (y1 & y2 & x1 & x2 & Hwin & Hy1 & Hy12 & Hy2 & Hx1 & Hx12 & Hx2);
    try lia.
  rewrite Hwin.
  destruct (@crop_inner frame h w y1 y2 x1 x2 Hrect) as [Hshape _]; try lia.
  exists (crop frame y1 y2 x1 x2), (Z.to_nat (y2 - y1)), (Z.to_nat (x2 - x1)).
  split; [reflexivity|]. split; [exact Hshape|]. lia.
Qed.

(** ** Opening the camera *)

(** The permission service refuses: on macOS, with AVFoundation loaded,
    the status is denied or restricted. *)
Definition refused (env : Env) : Prop :=
  platform_darwin env = true /\ import_AVFoundation env = true
  /\ (authorizationStatus env = Ok AVAuthorizationStatusDenied
      \/ authorizationStatus env = Ok AVAuthorizationStatusRestricted).

(** What [_open_camera] returned, read back on the environment. *)
Definition open_camera_result (env : Env) (s' : State) (r : option Capture)
  : Prop :=
  match r with
  | Some (VideoCapture CAP_AVFOUNDATION) =>
      ~ refused env /\ open_avfoundation env = Ok true
  | Some (VideoCapture CAP_ANY) =>
      ~ refused env /\ open_avfoundation env = Ok false
      /\ open_default env = Ok true
  | None =>
      (refused env /\ camera_error_message s' = Some MSG_PERMISSION_OFF)
      \/ (~ refused env /\ open_avfoundation env = Ok false
          /\ open_default env = Ok false
          /\ camera_error_message s' = Some MSG_CHECK_PERMISSION)
  end.

(** X9.  What [_open_camera] returns tells what happened.  It returns the
    AVFoundation capture only if that backend opened, and the default
    capture only if AVFoundation did not open and the default backend did.
    It returns no capture only if the permission is refused or neither
    backend opened, and then it has recorded the matching message: a
    failed open never leaves the error message unset. *)
Theorem open_camera_outcome (env : Env) (s s' : State)
  (r : option Capture) :
  _open_camera env s = (Ok r, s') -> open_camera_result env s' r.
Proof.
  unfold _open_camera, _camera_permission_denied, open_camera_result, refused.
  cbv [bind ret lift gets modify record].
  destruct (platform_darwin env), (import_AVFoundation env);
    cbn [negb];
    try destruct (authorizationStatus env) as [[| | |]|e];
    try destruct (open_avfoundation env) as [[|]|e1];
    try destruct (open_default env) as [[|]|e2];
    cbn [negb]; intros Hrun; inversion Hrun; subst; fields;
    intuition (try discriminate; try congruence).
Qed.

(** ** A handle that is missing is explained *)

(** An error message is recorded, and it is not the empty string. *)
Definition told (s : State) : Prop :=
  exists c m, camera_error_message s = Some (c :: m).

Definition explained (s : State) : Prop := cap s = None -> told s.

(** [_open_camera] returns no capture only with a message recorded. *)
Lemma open_camera_none_told (env : Env) (s s' : State) :
  _open_camera env s = (Ok None, s') -> told s'.
Proof.
  unfold _open_camera, _camera_permission_denied, told.
  cbv [bind ret lift gets modify record].
  destruct (platform_darwin env), (import_AVFoundation env);
    cbn [negb];
    try destruct (authorizationStatus env) as [[| | |]|e];
    try destruct (open_avfoundation env) as [[|]|e1];
    try destruct (open_default env) as [[|]|e2];
    cbn [negb]; intros Hrun; inversion Hrun; subst; fields;
    eexists _, _; reflexivity.
Qed.

(** On the way from [s] to [s'] the message was not cleared, and the
    handle was not dropped without a message. *)
Definition explains (s s' : State) : Prop :=
  (told s -> told s')
  /\ (cap s' = None -> cap s = None \/ told s').

Lemma explains_refl (s : State) : explains s s.
Proof. split; auto. Qed.

Lemma explains_trans (s1 s2 s3 : State) :
  explains s1 s2 -> explains s2 s3 -> explains s1 s3.
Proof.
  unfold explains. intros [H12 H12'] [H23 H23'].
  split; [auto|]. intros Hcap. destruct (H23' Hcap) as [H2|H3]; auto.
  destruct (H12' H2); auto.
Qed.

Lemma explains_explained (s s' : State) :
  explains s s' -> explained s -> explained s'.
Proof.
  unfold explains, explained.
  intros [Hstay Hcap] Hinv Hnone. destruct (Hcap Hnone); auto.
Qed.

(** Closes the goals the mutations leave: a field other than the message
    is written, or a message that starts with some character. *)
Ltac explains_leaf :=
  intros ?st; split;
  [ unfold told; fields; first [ now auto | intros _; eexists _, _; reflexivity ]
  | fields; auto ].

Lemma told_stays_open_camera (env : Env) (s : State) :
  told s -> told (snd (_open_camera env s)).
Proof.
  assert (Hm : preserves (fun s0 s1 => told s0 -> told s1) (_open_camera env)).
  { unfold _open_camera, _camera_permission_denied, record.
    preserve_steps (fun s0 (H : told s0) => H)
      (fun s1 s2 s3 (H12 : told s1 -> told s2) (H23 : told s2 -> told s3) H =>
         H23 (H12 H));
      intros st; unfold told; fields;
      first [ now auto | intros _; eexists _, _; reflexivity ]. }
  apply Hm.
Qed.

(** Opening the camera and storing what it returned. *)
Lemma explains_open_and_store (env : Env) :
  preserves explains
    (bind (_open_camera env) (fun c => modify (set_cap c))).
Proof.
  intros s. rewrite bind_run.
  pose proof (@told_stays_open_camera env s) as Hstay.
  assert (Hcap : cap (snd (_open_camera env s)) = cap s).
  { assert (Hidle : idle s (snd (_open_camera env s)))
      by apply idle_open_camera.
    apply Hidle. }
  destruct (_open_camera env s) as [[r|e] s1] eqn:Hrun; cbn [fst snd] in *.
  - cbv [modify]. cbn [snd]. split.
    + unfold told in *. fields. exact Hstay.
    + fields. intros ->.
      right. exact (@open_camera_none_told env s s1 Hrun).
  - split; [exact Hstay|]. intros Hnone. left. congruence.
Qed.

Ltac explains_steps :=
  unfold update_frame, update_frame_body, toggle_cutout,
    toggle_shape, zoom_bar_moved, permission_callback, closeEvent,
    cap_not_live, _validate_camera_usage_description,
    _ensure_segmenter_ready, segmenter_setup, segmenter_process,
    _configure_mediapipe_resource_dir, first_base,
    _ensure_camera_permission,
    _render_placeholder, _write_debug_text, setPixmap,
    logging_info, logging_exception, record;
  repeat first
    [ apply explains_open_and_store
    | match goal with
      | |- preserves _ (bind _ _) =>
          apply (preserves_bind explains_trans); [|intros ?]
      | |- preserves _ (try_except _ _) =>
          apply (preserves_try_except explains_trans); [|intros ?]
      | |- preserves _ (ret _) => apply (preserves_ret explains_refl)
      | |- preserves _ (lift _) => apply (preserves_lift explains_refl)
      | |- preserves _ (gets _) => apply (preserves_gets explains_refl)
      | |- preserves _ (modify _) => apply preserves_modify
      | |- preserves _ (if ?b then _ else _) => destruct b
      | |- preserves _ (match ?x with _ => _ end) => destruct x
      end ];
  try solve [explains_leaf].

Lemma explains_handler (ev : Event) : preserves explains (handler ev).
Proof.
  destruct ev as [env|env| |value|granted|env]; cbn [handler];
    explains_steps.
Qed.

(** Opening and storing leaves the handle explained outright. *)
Lemma open_and_store_explained (env : Env) (s s' : State) :
  bind (_open_camera env) (fun c => modify (set_cap c)) s = (Ok tt, s') ->
  explained s'.
Proof.
  rewrite bind_run.
  destruct (_open_camera env s) as [[r|e] s1] eqn:Hrun; cbn [fst snd];
    [|discriminate].
  cbv [modify]. intros Heq. injection Heq as <-.
  unfold explained. fields. intros ->.
  exact (@open_camera_none_told env s s1 Hrun).
Qed.

(** A failed validation of the usage description records a message. *)
Lemma validate_false_message (env : Env) (s s' : State) :
  _validate_camera_usage_description env s = (Ok false, s') -> told s'.
Proof.
  unfold _validate_camera_usage_description, told.
  cbv [bind ret modify logging_exception].
  destruct (platform_darwin env), (frozen env); cbn [negb];
    try discriminate.
  destruct (read_info_plist env) as [[[|c u]|]|e]; intros Heq;
    inversion Heq; subst; fields; eexists _, _; reflexivity.
Qed.

Lemma explained_init (cfg : AppConfig) (env : Env) (s : State) :
  __init__ env (fresh cfg) = (Ok tt, s) -> explained s.
Proof.
  unfold __init__. rewrite bind_run.
  destruct (_ensure_camera_permission env (fresh cfg)) as [[[]|e] s1];
    cbn [fst snd]; [|discriminate].
  rewrite bind_run.
  destruct (_validate_camera_usage_description env s1) as [[usable|e] s2]
    eqn:Hvalid; cbn [fst snd]; [|discriminate].
  rewrite bind_run.
  assert (Hfinish : forall s3,
             explained s3 ->
             explained
               (snd (bind (_configure_mediapipe_resource_dir env)
                       (fun _ => modify (set_segmenter None)) s3))).
  { intros s3. apply explains_explained.
    as_preserves explains.
    unfold _configure_mediapipe_resource_dir, first_base, logging_info,
      logging_exception, record.
    preserve_steps explains_refl explains_trans; explains_leaf. }
  destruct usable.
  - destruct (bind (_open_camera env) (fun c => modify (set_cap c)) s2)
      as [[[]|e] s3] eqn:Hopen; cbn [fst snd]; [|discriminate].
    intros Hrest. apply open_and_store_explained in Hopen.
    specialize (Hfinish s3 Hopen). now rewrite Hrest in Hfinish.
  - change (modify (set_cap None) s2) with (Ok tt, set_cap None s2).
    cbn [fst snd]. intros Hrest.
    assert (Hexp : explained (set_cap None s2)).
    { intros _. unfold told. fields.
      exact (@validate_false_message env s1 s2 Hvalid). }
    specialize (Hfinish _ Hexp). now rewrite Hrest in Hfinish.
Qed.

Lemma explained_reachable (s : State) : reachable s -> explained s.
Proof.
  induction 1 as [cfg env s Hinit|s ev _ IH].
  - exact (@explained_init cfg env s Hinit).
  - exact (explains_explained (explains_handler ev s) IH).
Qed.

(** The end of a tick without a live device, from a state with a
    message. *)
Lemma degraded_tail_told (Hdraw : drawing_succeeds)
  (env : Env) (s : State) (c : codepoint) (m : pystr) :
  camera_error_message s = Some (c :: m) ->
  bind (gets camera_error_message)
    (fun message => _render_placeholder env (or_else message MSG_CAMERA_CLOSED))
    s
  = (Ok tt, rendered env (c :: m) s).
Proof.
  intros Hmsg. cbv [bind gets]. rewrite Hmsg. cbn [or_else].
  now rewrite (_render_placeholder_run Hdraw).
Qed.

Lemma message_rendered (env : Env) (message : pystr) (s : State) :
  camera_error_message (rendered env message s) = camera_error_message s.
Proof. unfold rendered. now destruct (write_debug_text env). Qed.

(** X10.  In every state the widget can reach, a missing camera handle
    comes with a recorded, non-empty error message: the constructor and
    every failed reopen leave one.  So a tick without a handle and without
    a device shows the placeholder of the recorded message; the default
    text "the camera cannot be opened" is left to a handle that reports
    itself closed.  For what the tick shows, drawing the placeholder is
    taken not to raise ([drawing_succeeds]). *)
Theorem missing_handle_is_explained (s : State) :
  reachable s ->
  (cap s = None -> exists c m, camera_error_message s = Some (c :: m))
  /\ forall env,
      drawing_succeeds ->
      cap s = None -> no_device env ->
      exists c m,
        camera_error_message (step s (Tick env)) = Some (c :: m)
        /\ label_pixmap (step s (Tick env))
           = Some (placeholder_bitmap (config s) (c :: m)).
Proof.
  intros Hreach. pose proof (explained_reachable Hreach) as Hexp.
  split; [exact Hexp|].
  intros env Hdraw Hcap Hno.
  set (s1 := set_open_retry_counter (_open_retry_counter s + 1) s).
  assert (Hstart :
            update_frame_body env s
            = bind (if (_open_retry_counter s + 1) mod 30 =? 0
                    then reopen env else ret tt)
                (fun _ => bind (gets camera_error_message)
                   (fun message =>
                      _render_placeholder env (or_else message MSG_CAMERA_CLOSED)))
                s1).
  { unfold update_frame_body, cap_not_live.
    cbv [bind gets modify ret]. rewrite Hcap. reflexivity. }
  assert (Hcap1 : cap s1 = None) by exact Hcap.
  assert (Htold1 : told s1) by exact (Hexp Hcap).
  assert (Hmid : exists s2,
             (if (_open_retry_counter s + 1) mod 30 =? 0
              then reopen env else ret tt) s1 = (Ok tt, s2)
             /\ config s2 = config s /\ told s2).
  { destruct ((_open_retry_counter s + 1) mod 30 =? 0).
    - destruct (@reopen_no_device env s1 Hcap1 Hno)
        as (s2 & extra & Hrun & (_ & _ & Hcfg & _) & _).
      exists s2. split; [exact Hrun|]. split; [exact Hcfg|].
      assert (Hm : preserves explains (reopen env))
        by (unfold reopen; explains_steps).
      specialize (Hm s1). rewrite Hrun in Hm. now apply Hm.
    - exists s1. repeat split. exact Htold1. }
  destruct Hmid as (s2 & Hrun & Hcfg & c & m & Hmsg).
  exists c, m. unfold step, handler, update_frame, try_except.
  rewrite Hstart, (bind_Ok Hrun), (degraded_tail_told Hdraw env _ Hmsg).
  cbn [snd]. rewrite message_rendered, label_rendered, Hcfg.
  split; [exact Hmsg|reflexivity].
Qed.

(** ** The camera comes back *)

Lemma ensure_camera_permission_authorized (env : Env) (s : State) :
  authorizationStatus env = Ok AVAuthorizationStatusAuthorized ->
  exists s', _ensure_camera_permission env s = (Ok tt, s') /\ idle s s'.
Proof.
  intros Hstatus.
  pose proof (idle_ensure_camera_permission env s) as Hidle.
  unfold _ensure_camera_permission in *.
  cbv [bind ret lift gets modify record] in *. rewrite Hstatus in *.
  destruct (platform_darwin env), (import_AVFoundation env);
    cbn [negb] in *; eexists; (split; [reflexivity|exact Hidle]).
Qed.

Lemma open_camera_opens (env : Env) (s : State) :
  authorizationStatus env = Ok AVAuthorizationStatusAuthorized ->
  open_avfoundation env = Ok true ->
  exists s',
    _open_camera env s = (Ok (Some (VideoCapture CAP_AVFOUNDATION)), s')
    /\ idle s s'.
Proof.
  intros Hstatus Hopen.
  pose proof (idle_open_camera env s) as Hidle.
  unfold _open_camera, _camera_permission_denied in *.
  cbv [bind ret lift gets modify record] in *.
  rewrite Hstatus, Hopen in *.
  destruct (platform_darwin env), (import_AVFoundation env);
    cbn [negb] in *; eexists; (split; [reflexivity|exact Hidle]).
Qed.

Lemma cap_rendered (env : Env) (message : pystr) (s : State) :
  cap (rendered env message s) = cap s.
Proof. unfold rendered. now destruct (write_debug_text env). Qed.

Lemma shown_label (b : Bitmap) (s : State) :
  label_pixmap (shown b s) = Some b.
Proof. reflexivity. Qed.

(** X11.  When the device is not live and the tick is due for a reopen,
    and the permission is authorized and the AVFoundation backend opens,
    the tick stores the new handle -- yet it still ends by showing the
    placeholder, with the message recorded so far or the default text.
    The picture comes with the next tick that reads a frame.
    Drawing the placeholder is taken not to raise ([drawing_succeeds]). *)
Theorem camera_comes_back_on_the_next_tick (Hdraw : drawing_succeeds)
  (env : Env) (s : State) :
  liveness env s = Ok true ->
  (_open_retry_counter s + 1) mod 30 = 0 ->
  authorizationStatus env = Ok AVAuthorizationStatusAuthorized ->
  open_avfoundation env = Ok true ->
  exists s',
    update_frame env s = (Ok tt, s')
    /\ cap s' = Some (VideoCapture CAP_AVFOUNDATION)
    /\ label_pixmap s'
       = Some (placeholder_bitmap (config s)
                 (or_else (camera_error_message s') MSG_CAMERA_CLOSED))
    /\ forall env' frame resized,
        tick_frame env' s' frame resized ->
        cutout_enabled s' = false ->
        label_pixmap (step s' (Tick env'))
        = Some (Format_RGB888 (cv2_cvtColor resized)).
Proof.
  intros Hdead Hdue Hstatus Hopen.
  set (s1 := set_open_retry_counter (_open_retry_counter s + 1) s).
  destruct (@ensure_camera_permission_authorized env s1 Hstatus)
    as (s2 & Hrun2 & Hidle2).
  destruct (@open_camera_opens env s2 Hstatus Hopen) as (s3 & Hrun3 & Hidle3).
  pose proof (idle_trans Hidle2 Hidle3) as (_ & _ & Hcfg & _).
  set (s4 := set_cap (Some (VideoCapture CAP_AVFOUNDATION)) s3).
  set (message := or_else (camera_error_message s4) MSG_CAMERA_CLOSED).
  assert (Hbody : update_frame_body env s = (Ok tt, rendered env message s4)).
  { unfold update_frame_body.
    rewrite bind_run, cap_not_live_run. cbn [fst snd]. rewrite Hdead.
    rewrite bind_modify. cbv beta.
    rewrite bind_run. cbv [gets]. cbn [fst snd]. fields.
    apply Z.eqb_eq in Hdue. rewrite Hdue. fold s1.
    rewrite bind_run, (bind_Ok Hrun2), (bind_Ok Hrun3).
    cbv [modify]. cbn [fst snd]. fold s4.
    rewrite bind_run. cbn [fst snd].
    now rewrite (_render_placeholder_run Hdraw). }
  exists (rendered env message s4).
  split; [unfold update_frame, try_except; now rewrite Hbody|].
  split; [now rewrite cap_rendered|].
  split.
  - rewrite label_rendered, message_rendered. unfold message, s4. fields.
    now rewrite Hcfg.
  - intros env' frame resized Htick Hoff. unfold step, handler.
    rewrite (update_frame_plain Htick Hoff). reflexivity.
Qed.

(** ** Masks that cannot be composited *)

Lemma rows_map {A B} (f : A -> B) (x : list (list A)) :
  rows (map (map f) x) = rows x.
Proof. unfold rows. now rewrite length_map. Qed.

Lemma cols_map {A B} (f : A -> B) (x : list (list A)) :
  cols (map (map f) x) = cols x.
Proof. destruct x as [|row x]; cbn; [reflexivity|now rewrite length_map]. Qed.

(** The tick up to the mask: the device is live, a frame is read and
    resized, the cutout is on and the segmenter answers [outcome]. *)
Lemma update_frame_body_masked (env : Env) (s : State)
  (frame resized : Frame) (seg : Segmenter) :
  tick_frame env s frame resized ->
  cutout_enabled s = true ->
  segmenter s = Some seg ->
  update_frame_body env s
  = match process env (cv2_cvtColor resized) with
    | Ok None =>
        (Ok tt,
         set_trace (trace s ++ [call_ensure_segmenter_ready; call_process]) s)
    | Ok (Some mask) =>
        match np_dstack (cv2_cvtColor resized) (alpha_of_mask mask) with
        | Ok rgba =>
            (Ok tt,
             shown (Format_RGBA8888 rgba)
               (set_trace
                  (trace s ++ [call_ensure_segmenter_ready; call_process]) s))
        | Raise e =>
            (Raise e,
             set_trace
               (trace s ++ [call_ensure_segmenter_ready; call_process]) s)
        end
    | Raise e =>
        (Raise e,
         set_trace (trace s ++ [call_ensure_segmenter_ready; call_process]) s)
    end.
Proof.
  intros ([c Hcap] & Hopen & Hread & zoomed & Hzoom & Hresize) Hon Hseg.
  unfold update_frame_body, cap_not_live, setPixmap,
    _ensure_segmenter_ready, segmenter_process.
  cbv [bind gets lift ret modify record].
  rewrite Hcap, Hopen. cbn [negb]. rewrite Hread, Hzoom, Hresize, Hon.
  fields. rewrite Hseg. cbn [negb]. fields. rewrite Hseg.
  destruct (process env (cv2_cvtColor resized)) as [[mask|]|e];
    try destruct (np_dstack (cv2_cvtColor resized) (alpha_of_mask mask));
    cbv [shown set_trace set_label_pixmap config shape cutout_enabled
           camera_error_message _permission_requested _open_retry_counter cap
           segmenter zoom_bar_value label_pixmap shape_button_text
           cutout_button_text debug_text log trace];
    rewrite <- ?app_assoc; reflexivity.
Qed.

(** X12.  When the segmenter yields no mask for a frame, the tick returns
    without touching the label: the bitmap shown before stays, no
    placeholder is drawn, nothing is logged and no message is recorded;
    only the two calls on the model are made. *)
Theorem no_mask_keeps_the_bitmap (env : Env) (s : State)
  (frame resized : Frame) (seg : Segmenter) :
  tick_frame env s frame resized ->
  cutout_enabled s = true ->
  segmenter s = Some seg ->
  process env (cv2_cvtColor resized) = Ok None ->
  update_frame env s
  = (Ok tt,
     set_trace (trace s ++ [call_ensure_segmenter_ready; call_process]) s).
Proof.
  intros Htick Hon Hseg Hprocess. unfold update_frame, try_except.
  rewrite (@update_frame_body_masked env s frame resized seg Htick Hon Hseg),
    Hprocess.
  reflexivity.
Qed.

(** X13.  When the mask does not have the rows and columns of the frame,
    stacking them fails: the tick logs the ValueError under "update_frame
    failed" and shows the generic placeholder instead of a picture.
    Drawing the placeholder is taken not to raise ([drawing_succeeds]). *)
Theorem misshapen_mask_shows_the_generic_placeholder (Hdraw : drawing_succeeds)
  (env : Env) (s : State)
  (frame resized : Frame) (seg : Segmenter) (mask : Mask) :
  tick_frame env s frame resized ->
  cutout_enabled s = true ->
  segmenter s = Some seg ->
  process env (cv2_cvtColor resized) = Ok (Some mask) ->
  rows mask <> rows resized \/ cols mask <> cols resized ->
  exists s',
    update_frame env s = (Ok tt, s')
    /\ In (log_exception (py "update_frame failed") ValueError) (log s')
    /\ label_pixmap s' = Some (placeholder_bitmap (config s) MSG_TICK_FAILED).
Proof.
  intros Htick Hon Hseg Hprocess Hshape.
  assert (Hstack : np_dstack (cv2_cvtColor resized) (alpha_of_mask mask)
                   = Raise ValueError).
  { unfold np_dstack, cv2_cvtColor, alpha_of_mask.
    rewrite !rows_map, !cols_map.
    destruct (Z.eqb_spec (rows resized) (rows mask)) as [Hr|Hr];
      destruct (Z.eqb_spec (cols resized) (cols mask)) as [Hc|Hc];
      try reflexivity.
    destruct Hshape; congruence. }
  unfold update_frame, try_except.
  rewrite (@update_frame_body_masked env s frame resized seg Htick Hon Hseg), Hprocess, Hstack.
  cbv [bind logging_exception modify]. rewrite (_render_placeholder_run Hdraw).
  eexists. split; [reflexivity|].
  rewrite label_rendered. fields. split; [|reflexivity].
  destruct (log_rendered env MSG_TICK_FAILED
              (set_log
                 (log s ++ [log_exception (py "update_frame failed") ValueError])
                 (set_trace
                    (trace s ++ [call_ensure_segmenter_ready; call_process]) s)))
    as [rest Hrest].
  rewrite Hrest. fields. rewrite !in_app_iff. left. right. now left.
Qed.

(** ** Failures of the model *)

(** The outcome of [_ensure_segmenter_ready] where the application is not
    a frozen macOS bundle: the constructor decides. *)
Lemma ensure_segmenter_ready_unfrozen (Hdraw : drawing_succeeds)
  (env : Env) (s : State) :
  platform_darwin env && frozen env = false ->
  segmenter s = None ->
  let s0 :=
    set_trace
      (trace s ++ [call_ensure_segmenter_ready; call_SelfieSegmentation]) s in
  _ensure_segmenter_ready env s
  = match new_SelfieSegmentation env with
    | Ok seg => (Ok true, set_segmenter (Some seg) s0)
    | Raise FileNotFoundError =>
        (Ok false,
         rendered env MSG_MODEL_MISSING
           (set_camera_error_message (Some MSG_MODEL_MISSING) s0))
    | Raise e =>
        (Ok false,
         rendered env MSG_SEGMENTER_FAILED
           (set_camera_error_message (Some MSG_SEGMENTER_FAILED)
              (set_log (log s ++ [log_exception (py "segmenter init failed") e])
                 s0)))
    end.
Proof.
  intros Hplat Hseg. cbv zeta.
  unfold _ensure_segmenter_ready, segmenter_setup,
    _configure_mediapipe_resource_dir.
  cbv [bind gets lift ret modify record try_except logging_exception].
  fields. rewrite Hseg, Hplat.
  assert (Hneg : negb (platform_darwin env) || negb (frozen env) = true)
    by (destruct (platform_darwin env), (frozen env); try reflexivity;
        discriminate).
  rewrite Hneg. cbn [negb].
  destruct (new_SelfieSegmentation env) as [seg|[]];
    cbn [is_FileNotFoundError]; rewrite ?(_render_placeholder_run Hdraw);
    cbv [set_trace set_segmenter set_camera_error_message set_log config
           shape cutout_enabled camera_error_message _permission_requested
           _open_retry_counter cap segmenter zoom_bar_value label_pixmap
           shape_button_text cutout_button_text debug_text log trace];
    rewrite <- ?app_assoc; reflexivity.
Qed.

(** What drawing a placeholder adds to the log: the entry of a failed
    write of the debug text, if the write failed. *)
Definition debug_write_log (env : Env) :=
  match write_debug_text env with
  | Ok _ => []
  | Raise e => [log_exception (py "failed to write debug text") e]
  end.

Lemma log_rendered_exact (env : Env) (message : pystr) (s : State) :
  log (rendered env message s) = log s ++ debug_write_log env.
Proof.
  unfold rendered, debug_write_log. destruct (write_debug_text env); fields;
    [now rewrite app_nil_r|reflexivity].
Qed.

Lemma segmenter_rendered (env : Env) (message : pystr) (s : State) :
  segmenter (rendered env message s) = segmenter s.
Proof. unfold rendered. destruct (write_debug_text env); reflexivity. Qed.

(** X14.  Where the application is not a frozen macOS bundle, preparing
    the segmenter succeeds exactly when its constructor does.  A
    FileNotFoundError is reported as "mediapipe model missing" without a
    log entry of its own; any other exception is logged under "segmenter
    init failed" and reported as the initialisation failure.  In both
    cases the call answers False, the segmenter stays unset and the
    placeholder of the message is on the label.
    Drawing the placeholder is taken not to raise ([drawing_succeeds]). *)
Theorem segmenter_failures_are_told_apart (Hdraw : drawing_succeeds)
  (env : Env) (s : State) :
  platform_darwin env && frozen env = false ->
  segmenter s = None ->
  exists s',
    match new_SelfieSegmentation env with
    | Ok seg =>
        _ensure_segmenter_ready env s = (Ok true, s')
        /\ segmenter s' = Some seg
        /\ label_pixmap s' = label_pixmap s
        /\ camera_error_message s' = camera_error_message s
        /\ log s' = log s
    | Raise e =>
        let message :=
          if is_FileNotFoundError e then MSG_MODEL_MISSING
          else MSG_SEGMENTER_FAILED in
        _ensure_segmenter_ready env s = (Ok false, s')
        /\ segmenter s' = None
        /\ shows_error s' message
        /\ log s'
           = log s
             ++ (if is_FileNotFoundError e then []
                 else [log_exception (py "segmenter init failed") e])
             ++ debug_write_log env
    end.
Proof.
  intros Hplat Hseg.
  pose proof (@ensure_segmenter_ready_unfrozen Hdraw env s Hplat Hseg) as Hrun.
  cbv zeta in Hrun. rewrite Hrun. clear Hrun.
  destruct (new_SelfieSegmentation env) as [seg|e].
  - eexists. split; [reflexivity|]. fields. repeat split.
  - destruct e; cbn [is_FileNotFoundError]; eexists;
      (split; [reflexivity|]);
      (split; [rewrite segmenter_rendered; fields; exact Hseg|]);
      (split; [apply shows_error_rendered; reflexivity|]);
      rewrite log_rendered_exact; fields; rewrite <- ?app_assoc; reflexivity.
Qed.

(** ** Turning the cutout on and off *)

(** Outside a frozen macOS bundle a constructor that succeeds is all there
    is to the preparation. *)
Lemma ensure_segmenter_ready_constructs (env : Env) (s : State)
  (seg : Segmenter) :
  platform_darwin env && frozen env = false ->
  segmenter s = None ->
  new_SelfieSegmentation env = Ok seg ->
  _ensure_segmenter_ready env s
  = (Ok true,
     set_segmenter (Some seg)
       (set_trace
          (trace s ++ [call_ensure_segmenter_ready; call_SelfieSegmentation])
          s)).
Proof.
  intros Hplat Hseg Hnew.
  unfold _ensure_segmenter_ready, segmenter_setup,
    _configure_mediapipe_resource_dir.
  cbv [bind gets lift ret modify record try_except].
  fields. rewrite Hseg, Hplat.
  assert (Hneg : negb (platform_darwin env) || negb (frozen env) = true)
    by (destruct (platform_darwin env), (frozen env); try reflexivity;
        discriminate).
  rewrite Hneg, Hnew. cbn [negb].
  cbv [set_trace set_segmenter config shape cutout_enabled
         camera_error_message _permission_requested _open_retry_counter cap
         segmenter zoom_bar_value label_pixmap shape_button_text
         cutout_button_text debug_text log trace].
  rewrite <- ?app_assoc. reflexivity.
Qed.

Lemma ensure_segmenter_ready_cached (env : Env) (s : State) (seg : Segmenter) :
  segmenter s = Some seg ->
  _ensure_segmenter_ready env s
  = (Ok true, set_trace (trace s ++ [call_ensure_segmenter_ready]) s).
Proof.
  intros Hseg. unfold _ensure_segmenter_ready.
  cbv [bind gets ret record modify]. fields. now rewrite Hseg.
Qed.

(** X15.  A failure to prepare the model is not remembered: whatever went
    before, a click on the button while the cutout is off, where the
    application is not a frozen macOS bundle and the constructor of the
    segmenter succeeds, turns the cutout on.  A segmenter constructed
    earlier is kept; otherwise the new one is stored. *)
Theorem cutout_recovers_once_the_model_loads (env : Env) (s : State)
  (seg : Segmenter) :
  cutout_enabled s = false ->
  platform_darwin env && frozen env = false ->
  new_SelfieSegmentation env = Ok seg ->
  let s' := step s (CutoutClicked env) in
  cutout_enabled s' = true
  /\ cutout_button_text s' = MSG_CUTOUT_ON
  /\ segmenter s'
     = Some match segmenter s with Some earlier => earlier | None => seg end
  /\ camera_error_message s' = camera_error_message s
  /\ label_pixmap s' = label_pixmap s.
Proof.
  intros Hoff Hplat Hnew. cbv zeta. unfold step. cbn [handler].
  destruct (segmenter s) as [earlier|] eqn:Hseg.
  - rewrite (@toggle_cutout_run env s _ true Hoff
               (@ensure_segmenter_ready_cached env s earlier Hseg)).
    cbn [snd]. fields. now rewrite Hseg.
  - rewrite (@toggle_cutout_run env s _ true Hoff
               (@ensure_segmenter_ready_constructs env s seg Hplat Hseg Hnew)).
    cbn [snd]. fields. repeat split.
Qed.

(** X16.  In a state the widget can reach with the cutout on, two clicks
    on the cutout button -- off and on again -- bring back the very same
    state: the segmenter is neither closed nor constructed anew, the
    captions, the bitmap and the recorded message are as before.  All
    that is added is the one call of [_ensure_segmenter_ready] the second
    click makes. *)
Theorem cutout_off_and_on_again (s : State) (env1 env2 : Env) :
  reachable s ->
  cutout_enabled s = true ->
  step (step s (CutoutClicked env1)) (CutoutClicked env2)
  = set_trace (trace s ++ [call_ensure_segmenter_ready]) s.
Proof.
  intros Hreach Hon.
  assert (Hcaptions : captions_match s).
  { clear Hon. induction Hreach as [cfg env s Hinit|s ev _ IH].
    - exact (@captions_init cfg env s Hinit).
    - now apply captions_step. }
  pose proof (cutout_ready_reachable Hreach Hon) as Hseg.
  destruct Hcaptions as [Hcaption _].
  rewrite Hon in Hcaption. cbn [cutout_caption] in Hcaption.
  destruct (segmenter s) as [seg|] eqn:Hsome; [clear Hseg|congruence].
  assert (Hfirst : step s (CutoutClicked env1)
                   = set_cutout_button_text MSG_CUTOUT_OFF
                       (set_cutout_enabled false s)).
  { unfold step. cbn [handler]. unfold toggle_cutout.
    cbv [bind gets modify ret]. now rewrite Hon. }
  rewrite Hfirst. unfold step. cbn [handler].
  set (s1 := set_cutout_button_text MSG_CUTOUT_OFF
               (set_cutout_enabled false s)).
  assert (Hoff : cutout_enabled s1 = false) by reflexivity.
  assert (Hkept : segmenter s1 = Some seg) by exact Hsome.
  rewrite (@toggle_cutout_run env2 s1 _ true Hoff
             (@ensure_segmenter_ready_cached env2 s1 seg Hkept)).
  cbn [snd]. subst s1. destruct s. fields. subst. reflexivity.
Qed.

(** ** The bundle without a usage description *)

Definition is_open_camera (c : Call) : bool :=
  match c with call_open_camera => true | _ => false end.

(** How often the camera was asked for. *)
Definition opens (tr : list Call) : nat := length (filter is_open_camera tr).

Lemma opens_app (tr : list Call) (c : Call) :
  opens (tr ++ [c]) = (opens tr + if is_open_camera c then 1 else 0)%nat.
Proof.
  unfold opens. rewrite filter_app, length_app. cbn [filter].
  now destruct (is_open_camera c).
Qed.

(** The frozen macOS bundle whose Info.plist cannot be read or carries no
    camera usage description. *)
Definition usage_description_missing (env : Env) : Prop :=
  platform_darwin env = true
  /\ frozen env = true
  /\ forall c text, read_info_plist env <> Ok (Some (c :: text)).

Definition not_opening (s s' : State) : Prop :=
  opens (trace s') = opens (trace s).

Lemma not_opening_refl (s : State) : not_opening s s.
Proof. reflexivity. Qed.

Lemma not_opening_trans (s1 s2 s3 : State) :
  not_opening s1 s2 -> not_opening s2 s3 -> not_opening s1 s3.
Proof. unfold not_opening. congruence. Qed.

(** What the end of the constructor leaves as the validation left it. *)
Definition settled (s s' : State) : Prop :=
  opens (trace s') = opens (trace s)
  /\ camera_error_message s' = camera_error_message s.

Lemma settled_refl (s : State) : settled s s.
Proof. now split. Qed.

Lemma settled_trans (s1 s2 s3 : State) :
  settled s1 s2 -> settled s2 s3 -> settled s1 s3.
Proof. unfold settled. intuition congruence. Qed.

Lemma validate_missing (env : Env) (s : State) :
  usage_description_missing env ->
  exists s' prefix,
    _validate_camera_usage_description env s = (Ok false, s')
    /\ (prefix = MSG_PLIST_UNREADABLE \/ prefix = MSG_PLIST_NO_USAGE)
    /\ camera_error_message s' = Some (prefix ++ info_plist_path env)
    /\ trace s' = trace s.
Proof.
  intros (Hdarwin & Hfrozen & Hread).
  unfold _validate_camera_usage_description.
  cbv [bind ret modify logging_exception]. rewrite Hdarwin, Hfrozen.
  cbn [negb].
  destruct (read_info_plist env) as [[[|c text]|]|e].
  - exists (set_camera_error_message
              (Some (MSG_PLIST_NO_USAGE ++ info_plist_path env)) s),
      MSG_PLIST_NO_USAGE.
    fields. auto.
  - now elim (Hread c text).
  - exists (set_camera_error_message
              (Some (MSG_PLIST_NO_USAGE ++ info_plist_path env)) s),
      MSG_PLIST_NO_USAGE.
    fields. auto.
  - eexists. exists MSG_PLIST_UNREADABLE.
    split; [reflexivity|]. fields. auto.
Qed.

(** X17.  In a frozen macOS bundle whose Info.plist cannot be read or has
    no camera usage description, the constructor never asks for the
    camera: no call of [_open_camera] is made, the handle is None, and
    the message that names the Info.plist is the one recorded when the
    constructor returns. *)
Theorem no_usage_description_no_camera (cfg : AppConfig) (env : Env)
  (s : State) :
  usage_description_missing env ->
  __init__ env (fresh cfg) = (Ok tt, s) ->
  opens (trace s) = 0%nat
  /\ cap s = None
  /\ exists prefix,
      (prefix = MSG_PLIST_UNREADABLE \/ prefix = MSG_PLIST_NO_USAGE)
      /\ camera_error_message s = Some (prefix ++ info_plist_path env).
Proof.
  intros Hmissing. unfold __init__. rewrite bind_run.
  assert (Hperm : not_opening (fresh cfg)
                    (snd (_ensure_camera_permission env (fresh cfg)))).
  { as_preserves not_opening. unfold _ensure_camera_permission, record.
    preserve_steps not_opening_refl not_opening_trans;
      try solve [intros ?st; unfold not_opening; fields;
                 rewrite ?opens_app; cbn; lia]. }
  destruct (_ensure_camera_permission env (fresh cfg)) as [[[]|e] s1];
    cbn [fst snd] in *; [|discriminate].
  destruct (@validate_missing env s1 Hmissing)
    as (s2 & prefix & Hvalid & Hprefix & Hmsg & Htrace).
  rewrite bind_run, Hvalid. cbn [fst snd].
  rewrite bind_run.
  change (modify (set_cap None) s2) with (Ok tt, set_cap None s2).
  cbn [fst snd].
  assert (Hend : settled (set_cap None s2)
                   (snd (bind (_configure_mediapipe_resource_dir env)
                           (fun _ => modify (set_segmenter None))
                           (set_cap None s2)))
                 /\ idle (set_cap None s2)
                      (snd (bind (_configure_mediapipe_resource_dir env)
                              (fun _ => modify (set_segmenter None))
                              (set_cap None s2)))).
  { split.
    - as_preserves settled.
      unfold _configure_mediapipe_resource_dir, first_base, logging_info,
        logging_exception, record.
      preserve_steps settled_refl settled_trans;
        try solve [intros ?st; unfold settled; fields;
                   rewrite ?opens_app; cbn; split; [lia|reflexivity]].
    - as_preserves idle.
      unfold _configure_mediapipe_resource_dir, first_base. idle_steps. }
  intros Hrun. rewrite Hrun in Hend. cbn [snd] in Hend.
  destruct Hend as [[Hopens Hsame] (Hcap & _)]. fields.
  unfold not_opening in Hperm. cbn in Hperm.
  split; [rewrite Hopens, Htrace; exact Hperm|].
  split; [exact Hcap|].
  exists prefix. split; [exact Hprefix|]. now rewrite Hsame.
Qed.

(** ** The bundle without the model file *)

(** X18.  In a frozen macOS bundle where neither the Resources nor the
    Frameworks directory holds the model file, preparing the segmenter
    answers False without ever calling the constructor of the segmenter:
    the segmenter stays unset, and the placeholder of a model error is on
    the label.  Unless setting the resource directory itself fails on the
    way, the message is the one that lists the two directories
    searched.
    Drawing the placeholder is taken not to raise ([drawing_succeeds]). *)
Theorem missing_model_file_stops_before_the_constructor
  (Hdraw : drawing_succeeds) (env : Env) (s : State) :
  platform_darwin env = true ->
  frozen env = true ->
  segmenter s = None ->
  binary_isfile env (resources_dir env) = false ->
  binary_isfile env (frameworks_dir env) = false ->
  exists s' message,
    _ensure_segmenter_ready env s = (Ok false, s')
    /\ constructions (trace s') = constructions (trace s)
    /\ segmenter s' = None
    /\ shows_error s' message
    /\ model_error env message
    /\ ((forall base, set_resource_dir env base = Ok tt) ->
        message
        = MSG_MODEL_NOT_FOUND (resources_dir env) (frameworks_dir env)).
Proof.
  intros Hdarwin Hfrozen Hseg Hres Hfw.
  unfold _ensure_segmenter_ready, segmenter_setup,
    _configure_mediapipe_resource_dir, first_base.
  cbv [bind gets lift ret modify record try_except logging_exception
         logging_info].
  fields. rewrite Hseg, Hdarwin, Hfrozen. cbn [negb orb andb find].
  rewrite Hres, Hfw.
  assert (Hdone : forall s0 message,
             segmenter s0 = None ->
             constructions (trace s0) = constructions (trace s) ->
             camera_error_message s0 = Some message ->
             constructions (trace (rendered env message s0))
             = constructions (trace s)
             /\ segmenter (rendered env message s0) = None
             /\ shows_error (rendered env message s0) message).
  { intros s0 message Hnone Hcount Hmsg.
    rewrite trace_rendered, constructions_app, segmenter_rendered.
    cbn [is_SelfieSegmentation]. split; [lia|].
    split; [exact Hnone|]. now apply shows_error_rendered. }
  assert (Hcount : forall tr,
             constructions (tr ++ [call_ensure_segmenter_ready])
             = constructions tr)
    by (intros tr; rewrite constructions_app; cbn; lia).
  assert (Hset : forall tr base,
             constructions (tr ++ [call_set_resource_dir base])
             = constructions tr)
    by (intros tr base; rewrite constructions_app; cbn; lia).
  destruct (import_resource_util env) as [[]|e0];
    [destruct (modules_isdir env (resources_dir env));
     [|destruct (modules_isdir env (frameworks_dir env))]|];
    cbv beta iota zeta; cbn [fst snd];
    try match goal with
      | |- context [set_resource_dir env ?base] =>
          destruct (set_resource_dir env base) as [[]|e1] eqn:Hbase;
          [|destruct e1]
      end;
    cbv beta iota zeta; cbn [fst snd negb is_FileNotFoundError];
    rewrite ?(_render_placeholder_run Hdraw); cbv beta iota zeta;
    cbn [fst snd negb];
    eexists; eexists; (split; [reflexivity|]);
    match goal with
    | |- constructions (trace (rendered env ?message ?s0)) = _ /\ _ =>
        destruct (@Hdone s0 message) as (H1 & H2 & H3);
        [fields; exact Hseg
        |fields; rewrite ?Hset, ?Hcount; reflexivity
        |reflexivity
        |split; [exact H1|]; split; [exact H2|]; split; [exact H3|];
         split; [unfold model_error; auto|]]
    end;
    try (intros _; reflexivity);
    intros Hok; rewrite Hok in Hbase; discriminate Hbase.
Qed.

(** * The window on the screen *)

(** The handlers of the mouse and [move_to_top_center] read and write the
    position of the window and the two fields [_dragging] and [_drag_pos];
    they touch nothing of the camera pipeline's state. *)

(** [QPoint]: integer coordinates, subtracted componentwise. *)
Definition QPoint : Type := (Z * Z)%type.

Definition point_sub (a b : QPoint) : QPoint :=
  (fst a - fst b, snd a - snd b).

Definition point_add (a b : QPoint) : QPoint :=
  (fst a + fst b, snd a + snd b).

Record Window : Type := mkWindow {
  top_left : QPoint;              (* self.frameGeometry().topLeft() *)
  _dragging : bool;
  _drag_pos : option QPoint
}.

(** [self.move(p)] *)
Definition move (p : QPoint) (w : Window) : Window :=
  mkWindow p (_dragging w) (_drag_pos w).

Inductive MouseButton : Type := LeftButton | RightButton | MiddleButton.

Definition is_LeftButton (b : MouseButton) : bool :=
  match b with LeftButton => true | _ => false end.

(** [over_label] is the answer of
    [self.childAt(event.position().toPoint()) is self.label], [global]
    is [event.globalPosition().toPoint()].  The handler of the base class
    leaves the window as it is. *)
Definition mousePressEvent (button : MouseButton) (over_label : bool)
  (global : QPoint) (w : Window) : Window :=
  if is_LeftButton button && over_label then
    mkWindow (top_left w) true (Some (point_sub global (top_left w)))
  else w.

Definition mouseMoveEvent (global : QPoint) (w : Window) : Window :=
  if _dragging w then
    match _drag_pos w with
    | Some offset => move (point_sub global offset) w
    | None => w
    end
  else w.

Definition mouseReleaseEvent (button : MouseButton) (w : Window) : Window :=
  if is_LeftButton button then mkWindow (top_left w) false None
  else w.

(** [QRect]: the available geometry of the primary screen. *)
Record QRect : Type := mkQRect {
  rect_x : Z;
  rect_y : Z;
  rect_width : Z;
  rect_height : Z
}.

(** [screen] is [QApplication.primaryScreen()], None without a screen. *)
Definition move_to_top_center (screen : option QRect) (cfg : AppConfig)
  (w : Window) : Window :=
  match screen with
  | None => w
  | Some rect =>
      let x := rect_x rect + (rect_width rect - width cfg) / 2 in
      let y := rect_y rect in
      move (x, y) w
  end.

Inductive MouseEvent : Type :=
| Pressed (button : MouseButton) (over_label : bool) (global : QPoint)
| Moved (global : QPoint)
| Released (button : MouseButton).

Definition mouse (w : Window) (ev : MouseEvent) : Window :=
  match ev with
  | Pressed button over_label global =>
      mousePressEvent button over_label global w
  | Moved global => mouseMoveEvent global w
  | Released button => mouseReleaseEvent button w
  end.

Definition mouse_run (w : Window) (evs : list MouseEvent) : Window :=
  fold_left mouse evs w.

(** The window as the constructor leaves it: not dragging, moved to the
    top centre of the screen from where the window system put it. *)
Definition window_init (screen : option QRect) (cfg : AppConfig)
  (placed_at : QPoint) : Window :=
  move_to_top_center screen cfg (mkWindow placed_at false None).

(** A left press on the label: the event that grabs the window. *)
Definition grabs (ev : MouseEvent) : bool :=
  match ev with
  | Pressed button over_label _ => is_LeftButton button && over_label
  | _ => false
  end.

(** A release of the left button: the event that lets go of it. *)
Definition lets_go (ev : MouseEvent) : bool :=
  match ev with
  | Released button => is_LeftButton button
  | _ => false
  end.

(** While the window is held: neither grabbed anew nor let go. *)
Definition holding (ev : MouseEvent) : bool :=
  negb (grabs ev) && negb (lets_go ev).

(** The window is dragged with the cursor [offset] away from its corner. *)
Definition held_at (offset : QPoint) (w : Window) : Prop :=
  _dragging w = true /\ _drag_pos w = Some offset.

Lemma held_at_step (offset : QPoint) (w : Window) (ev : MouseEvent) :
  holding ev = true -> held_at offset w -> held_at offset (mouse w ev).
Proof.
  intros Hev [Hdrag Hpos]. unfold holding in Hev.
  destruct ev as [button over global|global|button]; cbn in *.
  - unfold mousePressEvent.
    destruct (is_LeftButton button && over); [discriminate|now split].
  - unfold mouseMoveEvent. rewrite Hdrag, Hpos. now split.
  - unfold mouseReleaseEvent.
    destruct (is_LeftButton button); [discriminate|now split].
Qed.

Lemma held_at_run (offset : QPoint) (evs : list MouseEvent) (w : Window) :
  forallb holding evs = true -> held_at offset w ->
  held_at offset (mouse_run w evs).
Proof.
  revert w. induction evs as [|ev evs IH]; intros w Hevs Hheld; [exact Hheld|].
  cbn in Hevs. apply andb_prop in Hevs as [Hev Hevs].
  cbn. apply IH; [exact Hevs|]. now apply held_at_step.
Qed.

(** X19.  Dragging: after a left press on the label with the cursor at
    [start], and however many events that neither let go of the window
    nor grab it anew, a move of the cursor to [finish] puts the window
    where the press found it, displaced by exactly what the cursor was
    displaced: the point grabbed stays under the cursor. *)
Theorem window_follows_the_cursor (w : Window) (start finish : QPoint)
  (evs : list MouseEvent) :
  forallb holding evs = true ->
  top_left
    (mouse_run w (Pressed LeftButton true start :: evs ++ [Moved finish]))
  = point_add (top_left w) (point_sub finish start).
Proof.
  intros Hevs. unfold mouse_run. cbn [fold_left]. rewrite fold_left_app.
  cbn [fold_left mouse].
  assert (Hheld : held_at (point_sub start (top_left w))
                    (mouse_run (mousePressEvent LeftButton true start w) evs)).
  { apply held_at_run; [exact Hevs|]. now split. }
  destruct Hheld as [Hdrag Hpos]. unfold mouse_run in Hdrag, Hpos.
  unfold mouseMoveEvent. rewrite Hdrag, Hpos. cbn [top_left move].
  unfold point_add, point_sub. cbn [fst snd]. f_equal; lia.
Qed.

(** The window at rest: not dragging, no offset stored. *)
Definition at_rest (w : Window) : Prop :=
  _dragging w = false /\ _drag_pos w = None.

Lemma at_rest_step (w : Window) (ev : MouseEvent) :
  grabs ev = false -> at_rest w ->
  at_rest (mouse w ev) /\ top_left (mouse w ev) = top_left w.
Proof.
  intros Hev [Hdrag Hpos].
  destruct ev as [button over global|global|button]; cbn in *.
  - unfold mousePressEvent. rewrite Hev. now repeat split.
  - unfold mouseMoveEvent. rewrite Hdrag. now repeat split.
  - unfold mouseReleaseEvent.
    destruct (is_LeftButton button); now repeat split.
Qed.

Lemma at_rest_run (evs : list MouseEvent) (w : Window) :
  forallb (fun ev => negb (grabs ev)) evs = true -> at_rest w ->
  top_left (mouse_run w evs) = top_left w.
Proof.
  revert w. induction evs as [|ev evs IH]; intros w Hevs Hrest; [reflexivity|].
  cbn in Hevs. apply andb_prop in Hevs as [Hev Hevs].
  apply negb_true_iff in Hev.
  destruct (at_rest_step ev Hev Hrest) as [Hrest' Hsame].
  cbn. unfold mouse_run in IH. rewrite IH; assumption.
Qed.

(** X20.  The window moves only while it is held: after the left button
    is released, whatever the state of the drag before, no sequence of
    moves, releases and presses other than a left press on the label
    changes the position of the window. *)
Theorem released_window_stays (w : Window) (evs : list MouseEvent) :
  forallb (fun ev => negb (grabs ev)) evs = true ->
  top_left (mouse_run w (Released LeftButton :: evs)) = top_left w.
Proof.
  intros Hevs. unfold mouse_run. cbn [fold_left mouse].
  change (fold_left mouse evs (mouseReleaseEvent LeftButton w))
    with (mouse_run (mouseReleaseEvent LeftButton w) evs).
  rewrite at_rest_run; [reflexivity|exact Hevs|now split].
Qed.

(** X21.  With a screen, the constructor puts the window on the top edge
    of the available area and centres it horizontally: the free space to
    its right exceeds the free space to its left by 0 or 1 pixel, also
    when the window is wider than the area and both are negative.  The
    window is not being dragged. *)
Theorem window_starts_top_center (rect : QRect) (cfg : AppConfig)
  (placed_at : QPoint) :
  let w := window_init (Some rect) cfg placed_at in
  let left := fst (top_left w) - rect_x rect in
  let right :=
    rect_x rect + rect_width rect - (fst (top_left w) + width cfg) in
  snd (top_left w) = rect_y rect
  /\ 0 <= right - left <= 1
  /\ _dragging w = false.
Proof.
  cbv zeta. unfold window_init, move_to_top_center. cbn [top_left move fst snd].
  split; [reflexivity|]. split; [|reflexivity].
  pose proof (Z.div_mod (rect_width rect - width cfg) 2 ltac:(lia)) as Hdiv.
  pose proof (Z.mod_pos_bound (rect_width rect - width cfg) 2 ltac:(lia)).
  lia.
Qed.


End Pipeline.

(** * Worked instances

    Small concrete frames, library routines and environments on which the
    theorems above are instantiated. *)

(** ** Evaluations of the helpers *)

Example splitlines_newlines :
  splitlines (py "a" ++ [10; 13; 10]%N ++ py "b" ++ [13]%N)
  = [py "a"; []; py "b"].
Proof. reflexivity. Qed.

Example splitlines_empty : splitlines [] = [].
Proof. reflexivity. Qed.

Example py_int_truncates :
  py_int 2.5%float = Ok 2 /\ py_int (-2.5)%float = Ok (-2)
  /\ py_int 0%float = Ok 0 /\ py_int 1e20%float = Ok (10 ^ 20)
  /\ py_int PrimFloat.nan = Raise ValueError
  /\ py_int PrimFloat.infinity = Raise OverflowError.
Proof. repeat split; vm_compute; reflexivity. Qed.

Example zoom_factor_values :
  Prim2SF (zoom_factor 200) = Prim2SF 2%float
  /\ Prim2SF (zoom_factor 125) = Prim2SF 1.25%float
  /\ PrimFloat.eqb 0x1.199999999999ap+0%float (zoom_factor 110) = true.
Proof. repeat split; vm_compute; reflexivity. Qed.

(** ** Library routines *)

(** A resize by nearest neighbour; like the library's it rejects an empty
    source. *)
Definition resize_nearest (frame : Frame) (dsize : Z * Z) : result Frame :=
  let '(w, h) := dsize in
  if (rows frame =? 0) || (cols frame =? 0) then Raise CvError
  else
    Ok (map (fun i =>
               map (fun j =>
                      nth (Z.to_nat (Z.of_nat j * cols frame / w))
                        (nth (Z.to_nat (Z.of_nat i * rows frame / h)) frame [])
                        (0, 0, 0))
                 (seq 0 (Z.to_nat w)))
          (seq 0 (Z.to_nat h))).

(** A text routine that only marks the origin of the text in white. *)
Definition putText_mark (frame : Frame) (text : pystr) (org : Z * Z) : Frame :=
  let '(x, y) := org in
  map (fun ir =>
         map (fun jp =>
                if (Z.of_nat (fst ir) =? y) && (Z.of_nat (fst jp) =? x)
                then (255, 255, 255) else snd jp)
           (combine (seq 0 (length (snd ir))) (snd ir)))
    (combine (seq 0 (length frame)) frame).

(** [cv2.putText] as a routine that draws that mark and never raises ... *)
Definition cv2_putText_mark (frame : Frame) (text : pystr) (org : Z * Z)
  : result Frame :=
  Ok (putText_mark frame text org).

Lemma putText_mark_draws : drawing_succeeds cv2_putText_mark putText_mark.
Proof. intros frame text org. reflexivity. Defined.

(** ... and as one that, like the library's, rejects an empty image. *)
Definition cv2_putText_strict (frame : Frame) (text : pystr) (org : Z * Z)
  : result Frame :=
  if (rows frame =? 0) || (cols frame =? 0) then Raise CvError
  else Ok (putText_mark frame text org).

(** ** Frames, environments and states *)

Definition frame_2x3 : Frame :=
  [[(1, 2, 3); (4, 5, 6); (7, 8, 9)];
   [(10, 11, 12); (13, 14, 15); (16, 17, 18)]].

Definition frame_2x5 : Frame :=
  [[(1, 1, 1); (2, 2, 2); (3, 3, 3); (4, 4, 4); (5, 5, 5)];
   [(6, 6, 6); (7, 7, 7); (8, 8, 8); (9, 9, 9); (10, 10, 10)]].

Definition mask_2x2 : Mask := [[0.75%float; 0.5%float]; [0.25%float; 1%float]].

(** A label of 2 by 2 pixels. *)
Definition small_config : AppConfig := mkAppConfig 2 2 21 100 300.

(** An environment off macOS in which the camera answers [read] with
    [read_outcome] and the segmenter answers with [mask_outcome]; both
    backends open or not as [opens] says. *)
Definition env_of (opens : bool) (read_outcome : result (option Frame))
  (mask_outcome : result (option Mask)) : Env :=
  mkEnv false false false (Ok AVAuthorizationStatusAuthorized)
    (Ok opens) (Ok opens) (Ok true) read_outcome
    [] (Ok None) [] [] (Ok tt) (fun _ => false) (fun _ => false)
    (fun _ => Ok tt) (Ok (SelfieSegmentation 1)) (fun _ => mask_outcome)
    (Ok tt).

(** The same on a frozen macOS build whose model files are missing. *)
Definition env_model_missing : Env :=
  mkEnv true true true (Ok AVAuthorizationStatusAuthorized)
    (Ok true) (Ok true) (Ok true) (Ok None)
    [] (Ok (Some (py "camera"))) (py "/R") (py "/F") (Ok tt)
    (fun _ => false) (fun _ => false)
    (fun _ => Ok tt) (Raise FileNotFoundError) (fun _ => Ok None)
    (Ok tt).

(** The widget right after construction, with the camera opened or not. *)
Definition started (opens : bool) : State :=
  snd (__init__ (env_of opens (Ok None) (Ok None)) (fresh small_config)).

(** ... after the slider was moved to its minimum ... *)
Definition started_plain : State :=
  step resize_nearest cv2_putText_mark (started true) (ZoomMoved 100).

(** ... and after the cutout button was then clicked once. *)
Definition started_cutout : State :=
  step resize_nearest cv2_putText_mark started_plain
    (CutoutClicked (env_of true (Ok None) (Ok None))).

(** ** Runs of the model *)

Example zoom_2x_of_2x5 :
  _apply_zoom 200 frame_2x5 = Ok [[(2, 2, 2); (3, 3, 3)]].
Proof. vm_compute. reflexivity. Qed.

Example zoom_3x_of_2x5 : _apply_zoom 300 frame_2x5 = Ok [[(3, 3, 3)]].
Proof. vm_compute. reflexivity. Qed.

(** Without a camera the widget starts with no handle and shows the
    placeholder at the first tick. *)
Example first_tick_without_camera :
  cap (started false) = None
  /\ camera_error_message (started false) = Some MSG_CHECK_PERMISSION
  /\ label_pixmap
       (step resize_nearest cv2_putText_mark (started false)
          (Tick (env_of false (Ok None) (Ok None))))
     = Some (placeholder_bitmap putText_mark small_config MSG_CHECK_PERMISSION).
Proof. repeat split. Qed.

(** Clicking the cutout button while the model files are missing. *)
Example cutout_click_model_missing :
  let s := step resize_nearest cv2_putText_mark (started true)
             (CutoutClicked env_model_missing) in
  cutout_enabled s = false
  /\ segmenter s = None
  /\ cutout_button_text s = MSG_CUTOUT_OFF
  /\ camera_error_message s = Some (MSG_MODEL_NOT_FOUND (py "/R") (py "/F"))
  /\ label_pixmap s
     = Some (placeholder_bitmap putText_mark small_config
               (MSG_MODEL_NOT_FOUND (py "/R") (py "/F"))).
Proof. repeat split. Qed.

(** The placeholder of a message of eight lines has six texts. *)
Example eight_lines_six_texts :
  map fst
    (texts_drawn (py "1" ++ NL ++ py "2" ++ NL ++ py "3" ++ NL ++ py "4" ++ NL
                  ++ py "5" ++ NL ++ py "6" ++ NL ++ py "7" ++ NL ++ py "8"))
  = [py "1"; py "2"; py "3"; py "4"; py "5"; py "6"].
Proof. reflexivity. Qed.

(** ** The theorems at these instances *)

Lemma cutout_alpha_is_thresholded_witness :
  let env := env_of true (Ok (Some frame_2x3)) (Ok (Some mask_2x2)) in
  tick_frame resize_nearest env started_cutout frame_2x3
    [[(7, 8, 9); (4, 5, 6)]; [(16, 17, 18); (13, 14, 15)]]
  /\ exists rgba s',
      update_frame resize_nearest cv2_putText_mark env started_cutout = (Ok tt, s')
      /\ label_pixmap s' = Some (Format_RGBA8888 rgba)
      /\ rect 2 2 rgba
      /\ forall i j,
          (i < 2)%nat -> (j < 2)%nat ->
          exists b g r m a,
            at_ [[(7, 8, 9); (4, 5, 6)]; [(16, 17, 18); (13, 14, 15)]] i j
            = Some (b, g, r)
            /\ at_ mask_2x2 i j = Some m
            /\ at_ rgba i j = Some (r, g, b, a)
            /\ a = (if PrimFloat.ltb 0.5%float m then 255 else 0)
            /\ (a = 0 \/ a = 255).
Proof.
  assert (Htick :
            tick_frame resize_nearest
              (env_of true (Ok (Some frame_2x3)) (Ok (Some mask_2x2)))
              started_cutout frame_2x3
              [[(7, 8, 9); (4, 5, 6)]; [(16, 17, 18); (13, 14, 15)]]).
  { split; [eexists; reflexivity|]. split; [reflexivity|].
    split; [reflexivity|]. eexists. split; reflexivity. }
  split; [exact Htick|].
  apply (@cutout_alpha_is_thresholded resize_nearest cv2_putText_mark _ _ _ _
           (SelfieSegmentation 1) mask_2x2 2%nat 2%nat Htick);
    try reflexivity.
  - split; [reflexivity|]. repeat constructor.
  - split; [reflexivity|]. repeat constructor.
Defined.

Lemma apply_zoom_identity_witness :
  PrimFloat.leb (zoom_factor 100) PrimFloat.one = true
  /\ _apply_zoom 100 frame_2x5 = Ok frame_2x5.
Proof.
  split; [reflexivity|]. apply apply_zoom_identity. reflexivity.
Defined.

Lemma apply_zoom_center_crop_witness :
  rect 2 5 frame_2x5
  /\ exists new_w new_h g,
      zoom_len (zoom_factor 200) 5 = Ok new_w
      /\ zoom_len (zoom_factor 200) 2 = Ok new_h
      /\ near_floor 200 5 new_w
      /\ near_floor 200 2 new_h
      /\ _apply_zoom 200 frame_2x5 = Ok g
      /\ centered_crop frame_2x5 g 2 5 new_h new_w.
Proof.
  assert (Hrect : rect 2 5 frame_2x5)
    by (split; [reflexivity|repeat constructor]).
  split; [exact Hrect|].
  apply (@apply_zoom_center_crop 200 2 5 frame_2x5); unfold max_side;
    [lia|exact Hrect|cbn; lia|cbn; lia].
Defined.

Lemma toggle_cutout_on_witness :
  cutout_enabled (started true) = false
  /\ exists ready s1 s',
      _ensure_segmenter_ready cv2_putText_mark env_model_missing (started true)
      = (Ok ready, s1)
      /\ toggle_cutout cv2_putText_mark env_model_missing (started true) = (Ok tt, s')
      /\ (exists rest,
            trace s' = trace (started true) ++ call_ensure_segmenter_ready :: rest)
      /\ (ready = true ->
          cutout_enabled s' = true /\ segmenter s' <> None
          /\ cutout_button_text s' = MSG_CUTOUT_ON)
      /\ (ready = false ->
          s' = s1 /\ cutout_enabled s' = false
          /\ cutout_button_text s' = cutout_button_text (started true)
          /\ exists message,
              model_error env_model_missing message
              /\ shows_error putText_mark s' message).
Proof.
  split; [reflexivity|].
  apply (@toggle_cutout_on cv2_putText_mark putText_mark putText_mark_draws).
  reflexivity.
Defined.

Lemma failing_reads_change_nothing_witness :
  let envs := repeat (env_of true (Ok None) (Ok None)) 3 in
  cap (started true) = Some (VideoCapture CAP_AVFOUNDATION)
  /\ Forall read_fails envs
  /\ Forall
       (fun env =>
          update_frame resize_nearest cv2_putText_mark env (started true)
          = (Ok tt, started true)) envs
  /\ run resize_nearest cv2_putText_mark (started true) (map Tick envs)
     = started true.
Proof.
  assert (Hall : Forall read_fails (repeat (env_of true (Ok None) (Ok None)) 3))
    by (repeat constructor).
  split; [reflexivity|]. split; [exact Hall|].
  apply (@failing_reads_change_nothing resize_nearest cv2_putText_mark _
           (started true) (VideoCapture CAP_AVFOUNDATION));
    [reflexivity|exact Hall].
Defined.

Lemma reopen_every_30_ticks_witness :
  let env := env_of false (Ok None) (Ok None) in
  let envs := repeat env 30 in
  cap (started false) = None
  /\ _open_retry_counter (started false) = 0
  /\ Forall no_device envs
  /\ _open_retry_counter
       (run resize_nearest cv2_putText_mark (started false) (map Tick envs))
     = 30
  /\ exists calls message,
      trace (run resize_nearest cv2_putText_mark (started false) (map Tick envs))
      = trace (run resize_nearest cv2_putText_mark (started false)
                 (map Tick (firstn 29 envs)))
        ++ calls
        ++ [call_setPixmap
              (placeholder_bitmap putText_mark small_config message)]
      /\ In call_open_camera calls.
Proof.
  cbv zeta.
  set (env := env_of false (Ok None) (Ok None)).
  assert (Hno : no_device env).
  { split; [eexists; reflexivity|]. split; reflexivity. }
  assert (Hall : Forall no_device (repeat env 30)).
  { apply Forall_forall. intros e He. apply repeat_spec in He. now subst. }
  split; [reflexivity|]. split; [reflexivity|]. split; [exact Hall|].
  destruct (@reopen_every_30_ticks resize_nearest cv2_putText_mark putText_mark
           putText_mark_draws (repeat env 30)
              (started false) eq_refl eq_refl Hall 29%nat env eq_refl)
    as (_ & _ & Hcount & _ & calls & message & Htrace & _ & _ & Hopen).
  split; [exact Hcount|].
  exists calls, message. split; [exact Htrace|].
  apply Hopen. reflexivity.
Defined.

Lemma update_frame_raises_only_while_drawing_witness :
  let env := env_of true (Raise CvError) (Ok None) in
  let b := placeholder_bitmap putText_mark small_config MSG_TICK_FAILED in
  draw_placeholder cv2_putText_mark (config (started true)) MSG_TICK_FAILED
  = Ok b
  /\ update_frame_body resize_nearest cv2_putText_mark env (started true)
     = (Raise CvError, started true)
  /\ exists s',
      update_frame resize_nearest cv2_putText_mark env (started true)
      = (Ok tt, s')
      /\ (exists rest,
            log s'
            = log (started true)
              ++ log_exception (py "update_frame failed") CvError :: rest)
      /\ label_pixmap s' = Some b
      /\ trace s' = trace (started true) ++ [call_setPixmap b].
Proof.
  cbv zeta. split; [reflexivity|]. split; [reflexivity|].
  apply (proj2
           (proj1 (update_frame_raises_only_while_drawing resize_nearest
                     cv2_putText_mark
                     (env_of true (Raise CvError) (Ok None)) (started true))
              (placeholder_bitmap putText_mark small_config MSG_TICK_FAILED)
              eq_refl)
           CvError (started true)).
  reflexivity.
Defined.

(** A label without pixels. *)
Definition empty_config : AppConfig := mkAppConfig 0 0 21 100 300.

Definition started_empty : State :=
  snd (__init__ (env_of true (Ok None) (Ok None)) (fresh empty_config)).

(** C8 as the specification has it fails on a label without pixels: the
    read of the camera raises, the handler logs the failure, and the
    exception [cv2.putText] raises on the empty canvas of the generic
    placeholder leaves [update_frame]. *)
Lemma update_frame_can_raise :
  let env := env_of true (Raise CvError) (Ok None) in
  reachable resize_nearest cv2_putText_strict started_empty
  /\ update_frame_body resize_nearest cv2_putText_strict env started_empty
     = (Raise CvError, started_empty)
  /\ draw_placeholder cv2_putText_strict (config started_empty) MSG_TICK_FAILED
     = Raise CvError
  /\ update_frame resize_nearest cv2_putText_strict env started_empty
     = (Raise CvError,
        set_debug_text (Some MSG_TICK_FAILED)
          (set_log [log_exception (py "update_frame failed") CvError]
             started_empty)).
Proof.
  cbv zeta. split.
  - apply (@reach_init resize_nearest cv2_putText_strict empty_config
             (env_of true (Ok None) (Ok None))).
    reflexivity.
  - repeat split.
Qed.

Lemma started_cutout_reachable :
  reachable resize_nearest cv2_putText_mark started_cutout.
Proof.
  apply reach_step. apply reach_step.
  apply (@reach_init resize_nearest cv2_putText_mark small_config
           (env_of true (Ok None) (Ok None))).
  reflexivity.
Defined.

Lemma cutout_implies_segmenter_witness :
  reachable resize_nearest cv2_putText_mark started_cutout
  /\ cutout_enabled started_cutout = true
  /\ (In call_process (trace started_cutout) -> segmenter started_cutout <> None)
  /\ (exists seg, segmenter started_cutout = Some seg)
  /\ (forall env,
         _ensure_segmenter_ready cv2_putText_mark env started_cutout
         = (Ok true,
            set_trace (trace started_cutout ++ [call_ensure_segmenter_ready])
              started_cutout))
  /\ (forall env rgb,
         segmenter_process env rgb started_cutout
         = (process env rgb,
            set_trace (trace started_cutout ++ [call_process]) started_cutout)).
Proof.
  split; [exact started_cutout_reachable|]. split; [reflexivity|].
  destruct (@cutout_implies_segmenter resize_nearest cv2_putText_mark
              started_cutout started_cutout_reachable) as [Hguard Hon].
  split; [exact Hguard|]. exact (Hon eq_refl).
Defined.

Lemma displayed_frame_is_mirrored_witness :
  let env := env_of true (Ok (Some frame_2x3)) (Ok None) in
  cap started_plain = Some (VideoCapture CAP_AVFOUNDATION)
  /\ rect 2 3 frame_2x3
  /\ cv2_flip frame_2x3
     = [[(7, 8, 9); (4, 5, 6); (1, 2, 3)];
        [(16, 17, 18); (13, 14, 15); (10, 11, 12)]]
  /\ update_frame resize_nearest cv2_putText_mark env started_plain
     = (Ok tt,
        shown (Format_RGB888 [[(9, 8, 7); (6, 5, 4)]; [(18, 17, 16); (15, 14, 13)]])
          started_plain).
Proof.
  cbv zeta.
  assert (Hrect : rect 2 3 frame_2x3)
    by (split; [reflexivity|repeat constructor]).
  split; [reflexivity|]. split; [exact Hrect|]. split; [reflexivity|].
  destruct (@displayed_frame_is_mirrored resize_nearest cv2_putText_mark
              (env_of true (Ok (Some frame_2x3)) (Ok None)) started_plain
              (VideoCapture CAP_AVFOUNDATION) frame_2x3 2%nat 3%nat
              eq_refl eq_refl eq_refl Hrect) as [_ Hshow].
  apply (Hshow [[(7, 8, 9); (4, 5, 6); (1, 2, 3)];
                [(16, 17, 18); (13, 14, 15); (10, 11, 12)]]
           [[(7, 8, 9); (4, 5, 6)]; [(16, 17, 18); (13, 14, 15)]]);
    reflexivity.
Defined.

(** ** Further environments and states *)

(** macOS, run from source, with the camera permission not yet decided
    and no device to open. *)
Definition env_undetermined : Env :=
  mkEnv true false true (Ok AVAuthorizationStatusNotDetermined)
    (Ok false) (Ok false) (Ok false) (Ok None)
    [] (Ok None) [] [] (Ok tt) (fun _ => false) (fun _ => false)
    (fun _ => Ok tt) (Ok (SelfieSegmentation 1)) (fun _ => Ok None)
    (Ok tt).

(** Off macOS, with a segmenter whose constructor fails. *)
Definition env_broken_model : Env :=
  mkEnv false false false (Ok AVAuthorizationStatusAuthorized)
    (Ok true) (Ok true) (Ok true) (Ok None)
    [] (Ok None) [] [] (Ok tt) (fun _ => false) (fun _ => false)
    (fun _ => Ok tt) (Raise RuntimeError) (fun _ => Ok None)
    (Ok tt).

(** A frozen macOS bundle whose Info.plist has no camera usage
    description. *)
Definition env_no_usage : Env :=
  mkEnv true true true (Ok AVAuthorizationStatusAuthorized)
    (Ok true) (Ok true) (Ok true) (Ok None)
    (py "/App/Contents/Info.plist") (Ok None) (py "/R") (py "/F") (Ok tt)
    (fun _ => false) (fun _ => false)
    (fun _ => Ok tt) (Ok (SelfieSegmentation 1)) (fun _ => Ok None)
    (Ok tt).

(** The widget started while the permission is undecided, after thirty
    ticks. *)
Definition started_undetermined : State :=
  run resize_nearest cv2_putText_mark
    (snd (__init__ env_undetermined (fresh small_config)))
    (repeat (Tick env_undetermined) 30).

(** The widget started without a camera, after twenty-nine ticks. *)
Definition waiting : State :=
  run resize_nearest cv2_putText_mark (started false)
    (repeat (Tick (env_of false (Ok None) (Ok None))) 29).

(** The default widget after the slider was pushed past its end. *)
Definition started_zoomed : State :=
  step resize_nearest cv2_putText_mark
    (snd (__init__ (env_of true (Ok None) (Ok None)) (fresh default_config)))
    (ZoomMoved 1000).

(** The widget after a click on the cutout button that failed. *)
Definition started_click_failed : State :=
  step resize_nearest cv2_putText_mark (started true)
    (CutoutClicked env_model_missing).

Definition mask_1x2 : Mask := [[0.75%float; 0.5%float]].

Lemma reachable_run (resize : Frame -> Z * Z -> result Frame)
  (putText : Frame -> pystr -> Z * Z -> result Frame) (evs : list Event)
  (s : State) :
  reachable resize putText s -> reachable resize putText (run resize putText s evs).
Proof.
  revert s. induction evs as [|ev evs IH]; intros s Hreach; [exact Hreach|].
  apply (IH (step resize putText s ev)). now apply reach_step.
Qed.

Lemma started_reachable (opens : bool) :
  reachable resize_nearest cv2_putText_mark (started opens).
Proof.
  apply (@reach_init resize_nearest cv2_putText_mark small_config
           (env_of opens (Ok None) (Ok None))).
  now destruct opens.
Qed.

(** ** The further theorems at these instances *)

Lemma error_message_never_cleared_witness :
  let env := env_of true (Ok (Some frame_2x3)) (Ok None) in
  let evs := [Tick env; CutoutClicked env; ZoomMoved 150; Tick env] in
  camera_error_message (started false) = Some MSG_CHECK_PERMISSION
  /\ camera_error_message
       (run resize_nearest cv2_putText_mark (started false) evs) <> None.
Proof.
  split; [reflexivity|].
  apply (@error_message_never_cleared resize_nearest cv2_putText_mark
           (started false)).
  discriminate.
Defined.

Lemma captions_reflect_state_witness :
  reachable resize_nearest cv2_putText_mark started_cutout
  /\ cutout_enabled started_cutout = true
  /\ captions_match started_cutout.
Proof.
  split; [exact started_cutout_reachable|]. split; [reflexivity|].
  exact (@captions_reflect_state resize_nearest cv2_putText_mark started_cutout
           started_cutout_reachable).
Defined.

Lemma permission_requested_at_most_once_witness :
  reachable resize_nearest cv2_putText_mark started_undetermined
  /\ _open_retry_counter started_undetermined = 30
  /\ requests (trace started_undetermined) = 1%nat
  /\ (requests (trace started_undetermined)
      <= Nat.b2n (_permission_requested started_undetermined))%nat
  /\ (requests (trace started_undetermined) <= 1)%nat.
Proof.
  assert (Hreach : reachable resize_nearest cv2_putText_mark started_undetermined).
  { apply reachable_run.
    apply (@reach_init resize_nearest cv2_putText_mark small_config
             env_undetermined).
    reflexivity. }
  split; [exact Hreach|]. split; [reflexivity|]. split; [reflexivity|].
  exact (@permission_requested_at_most_once resize_nearest cv2_putText_mark
           started_undetermined Hreach).
Defined.

Lemma segmenter_constructed_once_witness :
  let env := env_of true (Ok (Some frame_2x3)) (Ok (Some mask_2x2)) in
  let evs := [CutoutClicked env; CutoutClicked env; Tick env; Closed env] in
  segmenter started_cutout = Some (SelfieSegmentation 1)
  /\ segmenter (run resize_nearest cv2_putText_mark started_cutout evs)
     = segmenter started_cutout
  /\ constructions (trace (run resize_nearest cv2_putText_mark started_cutout evs))
     = constructions (trace started_cutout).
Proof.
  split; [reflexivity|].
  apply (@segmenter_constructed_once resize_nearest cv2_putText_mark
           started_cutout).
  discriminate.
Defined.

Lemma zooming_in_narrows_the_window_witness :
  rect 2 5 frame_2x5
  /\ exists y1 y2 x1 x2 y1' y2' x1' x2',
      _apply_zoom 150 frame_2x5 = Ok (crop frame_2x5 y1 y2 x1 x2)
      /\ _apply_zoom 250 frame_2x5 = Ok (crop frame_2x5 y1' y2' x1' x2')
      /\ (0 <= y1 <= y1' /\ y1' < y2' /\ y2' <= y2 <= 2)
      /\ (0 <= x1 <= x1' /\ x1' < x2' /\ x2' <= x2 <= 5).
Proof.
  assert (Hrect : rect 2 5 frame_2x5)
    by (split; [reflexivity|repeat constructor]).
  split; [exact Hrect|].
  apply (@zooming_in_narrows_the_window 150 250 2 5 frame_2x5);
    unfold max_side; [lia|lia|exact Hrect|cbn; lia|cbn; lia].
Defined.

Lemma zoom_step_never_fails_witness :
  reachable resize_nearest cv2_putText_mark started_zoomed
  /\ zoom_bar_value started_zoomed = 300
  /\ rect 2 5 frame_2x5
  /\ 100 <= zoom_bar_value started_zoomed <= 300
  /\ exists g h' w',
      _apply_zoom (zoom_bar_value started_zoomed) frame_2x5 = Ok g
      /\ rect h' w' g
      /\ (1 <= h' <= 2)%nat /\ (1 <= w' <= 5)%nat.
Proof.
  assert (Hreach : reachable resize_nearest cv2_putText_mark started_zoomed).
  { apply reach_step.
    apply (@reach_init resize_nearest cv2_putText_mark default_config
             (env_of true (Ok None) (Ok None))).
    reflexivity. }
  assert (Hrect : rect 2 5 frame_2x5)
    by (split; [reflexivity|repeat constructor]).
  split; [exact Hreach|]. split; [reflexivity|]. split; [exact Hrect|].
  apply (@zoom_step_never_fails resize_nearest cv2_putText_mark started_zoomed
           2 5 frame_2x5 Hreach eq_refl Hrect);
    unfold max_side; cbn; lia.
Defined.

Lemma open_camera_outcome_witness :
  let env := env_of false (Ok None) (Ok None) in
  let s' := snd (_open_camera env (fresh small_config)) in
  _open_camera env (fresh small_config) = (Ok None, s')
  /\ camera_error_message s' = Some MSG_CHECK_PERMISSION
  /\ open_camera_result env s' None.
Proof.
  cbv zeta. split; [reflexivity|]. split; [reflexivity|].
  apply (@open_camera_outcome (env_of false (Ok None) (Ok None))
           (fresh small_config)).
  reflexivity.
Defined.

Lemma missing_handle_is_explained_witness :
  let env := env_of false (Ok None) (Ok None) in
  reachable resize_nearest cv2_putText_mark (started false)
  /\ cap (started false) = None
  /\ no_device env
  /\ (exists c m, camera_error_message (started false) = Some (c :: m))
  /\ exists c m,
      camera_error_message
        (step resize_nearest cv2_putText_mark (started false) (Tick env))
      = Some (c :: m)
      /\ label_pixmap
           (step resize_nearest cv2_putText_mark (started false) (Tick env))
         = Some (placeholder_bitmap putText_mark (config (started false))
                   (c :: m)).
Proof.
  cbv zeta.
  assert (Hno : no_device (env_of false (Ok None) (Ok None))).
  { split; [eexists; reflexivity|]. split; reflexivity. }
  split; [exact (started_reachable false)|]. split; [reflexivity|].
  split; [exact Hno|].
  destruct (@missing_handle_is_explained resize_nearest cv2_putText_mark
              putText_mark (started false) (started_reachable false))
    as [Htold Htick].
  split; [exact (Htold eq_refl)|].
  exact (Htick (env_of false (Ok None) (Ok None)) putText_mark_draws eq_refl
           Hno).
Defined.

Lemma camera_comes_back_on_the_next_tick_witness :
  let env := env_of true (Ok None) (Ok None) in
  cap waiting = None
  /\ _open_retry_counter waiting = 29
  /\ exists s',
      update_frame resize_nearest cv2_putText_mark env waiting = (Ok tt, s')
      /\ cap s' = Some (VideoCapture CAP_AVFOUNDATION)
      /\ label_pixmap s'
         = Some (placeholder_bitmap putText_mark (config waiting)
                   (or_else (camera_error_message s') MSG_CAMERA_CLOSED))
      /\ forall env' frame resized,
          tick_frame resize_nearest env' s' frame resized ->
          cutout_enabled s' = false ->
          label_pixmap (step resize_nearest cv2_putText_mark s' (Tick env'))
          = Some (Format_RGB888 (cv2_cvtColor resized)).
Proof.
  split; [reflexivity|]. split; [reflexivity|].
  apply (@camera_comes_back_on_the_next_tick resize_nearest cv2_putText_mark
           putText_mark putText_mark_draws
           (env_of true (Ok None) (Ok None)) waiting);
    reflexivity.
Defined.

Lemma no_mask_keeps_the_bitmap_witness :
  let env := env_of true (Ok (Some frame_2x3)) (Ok None) in
  tick_frame resize_nearest env started_cutout frame_2x3
    [[(7, 8, 9); (4, 5, 6)]; [(16, 17, 18); (13, 14, 15)]]
  /\ cutout_enabled started_cutout = true
  /\ update_frame resize_nearest cv2_putText_mark env started_cutout
     = (Ok tt,
        set_trace
          (trace started_cutout ++ [call_ensure_segmenter_ready; call_process])
          started_cutout).
Proof.
  assert (Htick :
            tick_frame resize_nearest
              (env_of true (Ok (Some frame_2x3)) (Ok None))
              started_cutout frame_2x3
              [[(7, 8, 9); (4, 5, 6)]; [(16, 17, 18); (13, 14, 15)]]).
  { split; [eexists; reflexivity|]. split; [reflexivity|].
    split; [reflexivity|]. eexists. split; reflexivity. }
  split; [exact Htick|]. split; [reflexivity|].
  apply (@no_mask_keeps_the_bitmap resize_nearest cv2_putText_mark _ _ _ _
           (SelfieSegmentation 1) Htick);
    reflexivity.
Defined.

Lemma misshapen_mask_shows_the_generic_placeholder_witness :
  let env := env_of true (Ok (Some frame_2x3)) (Ok (Some mask_1x2)) in
  let resized := [[(7, 8, 9); (4, 5, 6)]; [(16, 17, 18); (13, 14, 15)]] in
  tick_frame resize_nearest env started_cutout frame_2x3 resized
  /\ rows mask_1x2 = 1 /\ rows resized = 2
  /\ exists s',
      update_frame resize_nearest cv2_putText_mark env started_cutout = (Ok tt, s')
      /\ In (log_exception (py "update_frame failed") ValueError) (log s')
      /\ label_pixmap s'
         = Some (placeholder_bitmap putText_mark (config started_cutout)
                   MSG_TICK_FAILED).
Proof.
  cbv zeta.
  assert (Htick :
            tick_frame resize_nearest
              (env_of true (Ok (Some frame_2x3)) (Ok (Some mask_1x2)))
              started_cutout frame_2x3
              [[(7, 8, 9); (4, 5, 6)]; [(16, 17, 18); (13, 14, 15)]]).
  { split; [eexists; reflexivity|]. split; [reflexivity|].
    split; [reflexivity|]. eexists. split; reflexivity. }
  split; [exact Htick|]. split; [reflexivity|]. split; [reflexivity|].
  apply (@misshapen_mask_shows_the_generic_placeholder resize_nearest
           cv2_putText_mark putText_mark putText_mark_draws _ _ _ _
           (SelfieSegmentation 1) mask_1x2 Htick);
    try reflexivity.
  left. discriminate.
Defined.

Lemma segmenter_failures_are_told_apart_witness :
  segmenter (started true) = None
  /\ exists s',
      _ensure_segmenter_ready cv2_putText_mark env_broken_model (started true)
      = (Ok false, s')
      /\ segmenter s' = None
      /\ shows_error putText_mark s' MSG_SEGMENTER_FAILED
      /\ log s'
         = log (started true)
           ++ [log_exception (py "segmenter init failed") RuntimeError].
Proof.
  split; [reflexivity|].
  exact (@segmenter_failures_are_told_apart cv2_putText_mark putText_mark
           putText_mark_draws env_broken_model
           (started true) eq_refl eq_refl).
Defined.

Lemma cutout_recovers_once_the_model_loads_witness :
  let env := env_of true (Ok None) (Ok None) in
  let s' := step resize_nearest cv2_putText_mark started_click_failed
              (CutoutClicked env) in
  cutout_enabled started_click_failed = false
  /\ camera_error_message started_click_failed
     = Some (MSG_MODEL_NOT_FOUND (py "/R") (py "/F"))
  /\ cutout_enabled s' = true
  /\ cutout_button_text s' = MSG_CUTOUT_ON
  /\ segmenter s' = Some (SelfieSegmentation 1)
  /\ camera_error_message s' = camera_error_message started_click_failed
  /\ label_pixmap s' = label_pixmap started_click_failed.
Proof.
  cbv zeta. split; [reflexivity|]. split; [reflexivity|].
  exact (@cutout_recovers_once_the_model_loads resize_nearest cv2_putText_mark
           (env_of true (Ok None) (Ok None)) started_click_failed
           (SelfieSegmentation 1) eq_refl eq_refl eq_refl).
Defined.

Lemma cutout_off_and_on_again_witness :
  reachable resize_nearest cv2_putText_mark started_cutout
  /\ cutout_enabled started_cutout = true
  /\ step resize_nearest cv2_putText_mark
       (step resize_nearest cv2_putText_mark started_cutout
          (CutoutClicked env_model_missing))
       (CutoutClicked env_broken_model)
     = set_trace (trace started_cutout ++ [call_ensure_segmenter_ready])
         started_cutout.
Proof.
  split; [exact started_cutout_reachable|]. split; [reflexivity|].
  exact (@cutout_off_and_on_again resize_nearest cv2_putText_mark started_cutout
           env_model_missing env_broken_model started_cutout_reachable
           eq_refl).
Defined.

Lemma no_usage_description_no_camera_witness :
  let s := snd (__init__ env_no_usage (fresh small_config)) in
  usage_description_missing env_no_usage
  /\ __init__ env_no_usage (fresh small_config) = (Ok tt, s)
  /\ opens (trace s) = 0%nat
  /\ cap s = None
  /\ exists prefix,
      (prefix = MSG_PLIST_UNREADABLE \/ prefix = MSG_PLIST_NO_USAGE)
      /\ camera_error_message s
         = Some (prefix ++ info_plist_path env_no_usage).
Proof.
  cbv zeta.
  assert (Hmissing : usage_description_missing env_no_usage).
  { split; [reflexivity|]. split; [reflexivity|].
    intros c text Hread. discriminate Hread. }
  split; [exact Hmissing|]. split; [reflexivity|].
  exact (@no_usage_description_no_camera small_config env_no_usage _
           Hmissing eq_refl).
Defined.

Lemma missing_model_file_stops_before_the_constructor_witness :
  segmenter (started true) = None
  /\ exists s' message,
      _ensure_segmenter_ready cv2_putText_mark env_model_missing (started true)
      = (Ok false, s')
      /\ constructions (trace s') = constructions (trace (started true))
      /\ segmenter s' = None
      /\ shows_error putText_mark s' message
      /\ model_error env_model_missing message
      /\ ((forall base, set_resource_dir env_model_missing base = Ok tt) ->
          message = MSG_MODEL_NOT_FOUND (py "/R") (py "/F")).
Proof.
  split; [reflexivity|].
  exact (@missing_model_file_stops_before_the_constructor cv2_putText_mark
           putText_mark putText_mark_draws
           env_model_missing (started true) eq_refl eq_refl eq_refl eq_refl
           eq_refl).
Defined.

Lemma window_follows_the_cursor_witness :
  let w := mkWindow (100, 50) false None in
  let evs :=
    [Moved (120, 70); Released RightButton; Pressed LeftButton false (0, 0);
     Moved (7, 7)] in
  forallb holding evs = true
  /\ top_left
       (mouse_run w
          (Pressed LeftButton true (110, 60) :: evs ++ [Moved (300, 200)]))
     = (290, 190).
Proof.
  cbv zeta. split; [reflexivity|].
  exact (@window_follows_the_cursor (mkWindow (100, 50) false None)
           (110, 60) (300, 200)
           [Moved (120, 70); Released RightButton;
            Pressed LeftButton false (0, 0); Moved (7, 7)] eq_refl).
Defined.

Lemma released_window_stays_witness :
  let w := mkWindow (5, 5) true (Some (1, 1)) in
  let evs := [Moved (50, 50); Pressed RightButton true (3, 3); Moved (9, 9)] in
  top_left (mouse_run w [Moved (50, 50)]) = (49, 49)
  /\ forallb (fun ev => negb (grabs ev)) evs = true
  /\ top_left (mouse_run w (Released LeftButton :: evs)) = (5, 5).
Proof.
  cbv zeta. split; [reflexivity|]. split; [reflexivity|].
  exact (@released_window_stays (mkWindow (5, 5) true (Some (1, 1)))
           [Moved (50, 50); Pressed RightButton true (3, 3); Moved (9, 9)]
           eq_refl).
Defined.
